(** * repoctx: the card store, its keyword index, staleness and queries

    A shallow embedding of the TypeScript sources of repoctx
    (cache.ts, save.ts, saveSymbol.ts, get.ts, checkpoint.ts, diff.ts
    and the `checkpoint`, `save`, `diff` and `init` commands of
    index.ts), the
    properties of the card store that the specification states about
    them, and further properties that the code shows.

    Conventions of the embedding.
    - A JavaScript string is a Rocq [string] holding its UTF-8 encoding.
      Splitting and joining on ASCII separators, [===], [includes],
      [startsWith] and [replaceAll] act on that encoding as they act on
      the code units of a well-formed string; the order of [<], which
      the default [sort] uses, is the order of the code units and
      decodes them.  [toLowerCase] needs the Unicode case tables and is
      a parameter of the query engine.
    - A plain object used as a dictionary ([Record<string, T>]) is a
      [JsObj.t]: its own properties in enumeration order, with the
      members every object inherits from [Object.prototype] visible to
      reads, as in the engine.
    - The directories [.repoctx/files] and [.repoctx/symbols] are finite
      maps from a file name to what a read and [JSON.parse] of the file
      give.  In a [Store] a record file that parses holds a card, as
      every record the code writes does; in a [Raw.t] it holds a card or
      a JSON value with none of the members of a card, which the loaders
      return unchecked.  The documents [index.json],
      [symbols-index.json] and [state.json] hold a value of the type the
      code declares for them when they parse.  The storage root is taken
      to be writable, and disjoint from the files cards are saved for.
    - The process environment (working directory, working tree, git,
      grep, clock) is a record [Env]; each external command is the text
      it prints, or the message of the error [execSync] throws.  Paths
      are POSIX paths.
    - The numbers of diff.ts ([Number] of a field or of the option
      [top], sums, differences, their tests, their printing and their
      integer part) and [Array.prototype.sort] are parameters of the
      list of changes; the length of an array is printed in decimal
      digits. *)

From stdpp Require Import gmap strings.
From Stdlib Require Import ZArith List String Ascii Bool Lia Sorted Permutation.
Import ListNotations.
Local Open Scope string_scope.
Local Open Scope list_scope.

(** ** Strings *)

Module Str.

Definition quote : string := String (ascii_of_nat 34) EmptyString.

(** [s.split(sep)] for a one-character separator. *)
Fixpoint splitAux (sep : ascii) (s : string) (cur : string) : list string :=
  match s with
  | EmptyString => [cur]
  | String c s' =>
      if Ascii.eqb c sep then cur :: splitAux sep s' EmptyString
      else splitAux sep s' (cur +:+ String c EmptyString)
  end.

Definition split (sep : ascii) (s : string) : list string :=
  splitAux sep s EmptyString.

(** [l.join(sep)]. *)
Definition join (sep : string) (l : list string) : string := String.concat sep l.

(** [s.startsWith(p)]. *)
Definition startsWith (s p : string) : bool := String.prefix p s.

(** [s.includes(sub)]. *)
Definition includes (s sub : string) : bool :=
  match sub with
  | EmptyString => true
  | _ => match String.index 0 sub s with Some _ => true | None => false end
  end.

(** [s.replaceAll(a, b)] for one-character [a] and [b]. *)
Fixpoint replaceAll (a b : ascii) (s : string) : string :=
  match s with
  | EmptyString => EmptyString
  | String c s' => String (if Ascii.eqb c a then b else c) (replaceAll a b s')
  end.

Definition rev (s : string) : string :=
  string_of_list_ascii (List.rev (list_ascii_of_string s)).

Definition bytes (l : list nat) : string :=
  string_of_list_ascii (List.map ascii_of_nat l).

(** The white space and line terminators of ECMAScript, UTF-8 encoded:
    TAB, LF, VT, FF, CR, SP, U+00A0, U+1680, U+2000..U+200A, U+2028,
    U+2029, U+202F, U+205F, U+3000 and U+FEFF. *)
Definition whiteSpace : list string :=
  List.map bytes
    ([[9]; [10]; [11]; [12]; [13]; [32]; [194; 160]; [225; 154; 128]]
     ++ List.map (fun b => [226; 128; b])
          [128; 129; 130; 131; 132; 133; 134; 135; 136; 137; 138; 168; 169; 175]
     ++ [[226; 129; 159]; [227; 128; 128]; [239; 187; 191]]).

Definition dropPrefix (p s : string) : option string :=
  if String.prefix p s
  then Some (String.substring (String.length p) (String.length s - String.length p) s)
  else None.

Fixpoint firstSome {A B} (f : A -> option B) (l : list A) : option B :=
  match l with
  | [] => None
  | x :: l' => match f x with Some y => Some y | None => firstSome f l' end
  end.

(** [s.trimStart()]: every step removes one white-space character; the
    fuel is the length of the string. *)
Fixpoint trimStartFuel (fuel : nat) (s : string) : string :=
  match fuel with
  | O => s
  | S fuel' =>
      match firstSome (fun w => dropPrefix w s) whiteSpace with
      | Some s' => trimStartFuel fuel' s'
      | None => s
      end
  end.

Definition trimStart (s : string) : string := trimStartFuel (String.length s) s.

Definition trimEnd (s : string) : string :=
  let ws := List.map rev whiteSpace in
  let fix go (fuel : nat) (r : string) : string :=
    match fuel with
    | O => r
    | S fuel' =>
        match firstSome (fun w => dropPrefix w r) ws with
        | Some r' => go fuel' r'
        | None => r
        end
    end in
  rev (go (String.length s) (rev s)).

(** [s.trim()]. *)
Definition trim (s : string) : string := trimEnd (trimStart s).

(** A string is truthy when it is not empty ([filter(Boolean)], [if (s)]). *)
Definition truthy (s : string) : bool := negb (String.eqb s EmptyString).

(** [l.includes(x)] on an array of strings. *)
Definition mem (x : string) (l : list string) : bool :=
  List.existsb (String.eqb x) l.

(** The ASCII part of [toLowerCase]: what the engine's function does on a
    string whose letters are ASCII. *)
Definition asciiLower (s : string) : string :=
  string_of_list_ascii
    (List.map (fun c => let n := nat_of_ascii c in
                        if andb (Nat.leb 65 n) (Nat.leb n 90) then ascii_of_nat (n + 32) else c)
       (list_ascii_of_string s)).

(** The UTF-16 code units of the string that [s] encodes: one unit for a
    sequence of one, two or three bytes, a surrogate pair for a sequence
    of four.  A byte that starts no such sequence counts as a unit. *)
Fixpoint codeUnits (s : string) : list N :=
  match s with
  | EmptyString => []
  | String c0 s0 =>
      let b0 := N_of_ascii c0 in
      let continues c := andb (128 <=? N_of_ascii c)%N (N_of_ascii c <? 192)%N in
      let low c := N.land (N_of_ascii c) 63 in
      let single := b0 :: codeUnits s0 in
      match s0 with
      | String c1 s1 =>
          if andb (andb (192 <=? b0)%N (b0 <? 224)%N) (continues c1)
          then (N.shiftl (N.land b0 31) 6 + low c1)%N :: codeUnits s1
          else
            match s1 with
            | String c2 s2 =>
                if andb (andb (224 <=? b0)%N (b0 <? 240)%N)
                     (andb (continues c1) (continues c2))
                then (N.shiftl (N.land b0 15) 12 + N.shiftl (low c1) 6 + low c2)%N
                     :: codeUnits s2
                else
                  match s2 with
                  | String c3 s3 =>
                      if andb (andb (240 <=? b0)%N (b0 <? 248)%N)
                           (andb (continues c1) (andb (continues c2) (continues c3)))
                      then
                        let point := (N.shiftl (N.land b0 7) 18 + N.shiftl (low c1) 12
                                      + N.shiftl (low c2) 6 + low c3)%N in
                        let v := (point - 65536)%N in
                        (55296 + N.shiftr v 10)%N :: (56320 + N.land v 1023)%N
                        :: codeUnits s3
                      else single
                  | EmptyString => single
                  end
            | EmptyString => single
            end
      | EmptyString => single
      end
  end.

(** The order of two sequences of numbers, unit by unit. *)
Fixpoint compareUnits (a b : list N) : comparison :=
  match a, b with
  | [], [] => Eq
  | [], _ :: _ => Lt
  | _ :: _, [] => Gt
  | x :: a', y :: b' =>
      match N.compare x y with
      | Eq => compareUnits a' b'
      | c => c
      end
  end.

Definition byteValues (s : string) : list N :=
  List.map N_of_ascii (list_ascii_of_string s).

(** [x < y], [x === y] or [x > y] on strings: the order of the code
    units, which is not the order of the bytes (U+1F600, a surrogate
    pair, comes before U+E000).  Two strings with the same units, which
    are not both well-formed UTF-8 and so encode no two strings of the
    engine, are ordered by their bytes. *)
Definition compare (x y : string) : comparison :=
  match compareUnits (codeUnits x) (codeUnits y) with
  | Eq => compareUnits (byteValues x) (byteValues y)
  | c => c
  end.

(** [!(x > y)] *)
Definition leb (x y : string) : bool :=
  match compare x y with Gt => false | _ => true end.

End Str.

(** ** SHA-1 ([crypto.createHash("sha1")], FIPS 180-4) *)

Module Sha1.
Local Open Scope Z_scope.

Definition w32 (x : Z) : Z := x mod 2 ^ 32.
Definition add32 (x y : Z) : Z := w32 (x + y).
Definition rotl (n x : Z) : Z := w32 (Z.lor (Z.shiftl x n) (Z.shiftr x (32 - n))).
Definition not32 (x : Z) : Z := 2 ^ 32 - 1 - x.

Definition bytesOf (s : string) : list Z :=
  List.map (fun c => Z.of_nat (nat_of_ascii c)) (list_ascii_of_string s).

(** Big-endian bytes of [x], [n] of them. *)
Fixpoint beBytes (n : nat) (x : Z) : list Z :=
  match n with
  | O => []
  | S n' => beBytes n' (Z.shiftr x 8) ++ [Z.land x 255]
  end.

(** The message, a 1 bit, zeros up to 56 modulo 64, the bit length on 64 bits. *)
Definition pad (msg : list Z) : list Z :=
  let len := Z.of_nat (List.length msg) in
  let zeros := Z.to_nat ((55 - len) mod 64) in
  msg ++ [128] ++ List.repeat 0 zeros ++ beBytes 8 (8 * len).

Fixpoint beWord (bs : list Z) : Z :=
  match bs with
  | [] => 0
  | b :: bs' => Z.shiftl b (8 * Z.of_nat (List.length bs')) + beWord bs'
  end.

(** The first [n] groups of [k] elements. *)
Fixpoint chunks {A} (k n : nat) (l : list A) : list (list A) :=
  match n with
  | O => []
  | S n' => List.firstn k l :: chunks k n' (List.skipn k l)
  end.

(** The message schedule, most recent word first: [rw] holds W(t-1), W(t-2), ... *)
Fixpoint schedule (n : nat) (rw : list Z) : list Z :=
  match n with
  | O => rw
  | S n' =>
      let w := rotl 1 (Z.lxor (Z.lxor (List.nth 2 rw 0) (List.nth 7 rw 0))
                              (Z.lxor (List.nth 13 rw 0) (List.nth 15 rw 0))) in
      schedule n' (w :: rw)
  end.

Definition state : Type := Z * Z * Z * Z * Z.

Definition round (t : nat) (st : state) (w : Z) : state :=
  let '(a, b, c, d, e) := st in
  let '(f, k) :=
    if Nat.ltb t 20 then (Z.lor (Z.land b c) (Z.land (not32 b) d), 1518500249)
    else if Nat.ltb t 40 then (Z.lxor (Z.lxor b c) d, 1859775393)
    else if Nat.ltb t 60 then
      (Z.lor (Z.lor (Z.land b c) (Z.land b d)) (Z.land c d), 2400959708)
    else (Z.lxor (Z.lxor b c) d, 3395469782) in
  (add32 (add32 (add32 (add32 (rotl 5 a) f) e) k) w, a, rotl 30 b, c, d).

Fixpoint rounds (t : nat) (ws : list Z) (st : state) : state :=
  match ws with
  | [] => st
  | w :: ws' => rounds (S t) ws' (round t st w)
  end.

Definition block (h : state) (bs : list Z) : state :=
  let w16 := List.map beWord (chunks 4 16 bs) in
  let ws := List.rev (schedule 64 (List.rev w16)) in
  let '(h0, h1, h2, h3, h4) := h in
  let '(a, b, c, d, e) := rounds 0 ws h in
  (add32 h0 a, add32 h1 b, add32 h2 c, add32 h3 d, add32 h4 e).

Definition hexDigit (x : Z) : ascii :=
  ascii_of_nat (Z.to_nat (if x <? 10 then 48 + x else 87 + x)).

Definition hexByte (b : Z) : string :=
  String (hexDigit (Z.shiftr b 4)) (String (hexDigit (Z.land b 15)) EmptyString).

(** [createHash("sha1").update(s).digest("hex")]: forty lower-case hex digits. *)
Definition hex (s : string) : string :=
  let p := pad (bytesOf s) in
  let '(h0, h1, h2, h3, h4) :=
    List.fold_left block (chunks 64 (List.length p / 64) p)
      (1732584193, 4023233417, 2562383102, 271733878, 3285377520) in
  String.concat EmptyString
    (List.map hexByte (List.flat_map (beBytes 4) [h0; h1; h2; h3; h4])).

End Sha1.

(** ** Paths ([node:path], POSIX flavour) *)

Module Path.

(** The non-empty components between slashes. *)
Definition segments (p : string) : list string :=
  List.filter Str.truthy (Str.split "/" p).

(** [normalizeString]: [.] is dropped and [..] removes the component
    before it (none above the root).  [acc] is reversed. *)
Fixpoint normalize (segs acc : list string) : list string :=
  match segs with
  | [] => List.rev acc
  | s :: segs' =>
      if String.eqb s "." then normalize segs' acc
      else if String.eqb s ".." then normalize segs' (List.tl acc)
      else normalize segs' (s :: acc)
  end.

Definition isAbsolute (p : string) : bool := Str.startsWith p "/".

(** The components of [path.resolve(p)] in the working directory [cwd]. *)
Definition resolveSegs (cwd p : string) : list string :=
  normalize (if isAbsolute p then segments p else segments cwd ++ segments p) [].

Definition ofSegs (segs : list string) : string := "/" +:+ Str.join "/" segs.

(** [path.resolve(p)]. *)
Definition resolve (cwd p : string) : string := ofSegs (resolveSegs cwd p).

Fixpoint dropCommon (a b : list string) : list string * list string :=
  match a, b with
  | x :: a', y :: b' => if String.eqb x y then dropCommon a' b' else (a, b)
  | _, _ => (a, b)
  end.

(** [path.relative(process.cwd(), path.resolve(p))]: up from the working
    directory to the common ancestor, then down. *)
Definition relative (cwd p : string) : string :=
  let '(up, down) := dropCommon (resolveSegs cwd EmptyString) (resolveSegs cwd p) in
  Str.join "/" (List.map (fun _ => "..") up ++ down).

(** The last component, trailing slashes ignored. *)
Definition lastSegment (p : string) : string := List.last (segments p) EmptyString.

(** The position of the last [.] of [b], counted from the end. *)
Definition lastDotFromEnd (b : string) : option nat := String.index 0 "." (Str.rev b).

(** [path.extname(p)]: from the last [.] of the last component, unless
    there is none, it is the first character, or the component is [..]. *)
Definition extname (p : string) : string :=
  let b := lastSegment p in
  match lastDotFromEnd b with
  | None => EmptyString
  | Some k =>
      let i := String.length b - S k in
      if orb (Nat.eqb i 0) (String.eqb b "..") then EmptyString
      else String.substring i (S k) b
  end.

(** [path.basename(p, ext)] for an [ext] that [extname] gave. *)
Definition basename (p ext : string) : string :=
  let b := lastSegment p in
  if andb (Str.truthy ext)
       (andb (negb (String.eqb ext b)) (Str.startsWith (Str.rev b) (Str.rev ext)))
  then String.substring 0 (String.length b - String.length ext) b
  else b.

End Path.

(** ** Plain objects used as dictionaries *)

Module JsObj.

(** The own properties, in the order [Object.keys], [Object.values] and
    [JSON.stringify] enumerate them. *)
Definition t (V : Type) : Type := list (string * V).

(** The members of [Object.prototype]: a read of one of these names on an
    object that has no own property of the name gives the inherited
    member, a function (for [__proto__], the prototype itself). *)
Definition protoNames : list string :=
  ["constructor"; "__defineGetter__"; "__defineSetter__"; "hasOwnProperty";
   "__lookupGetter__"; "__lookupSetter__"; "isPrototypeOf"; "propertyIsEnumerable";
   "toString"; "valueOf"; "__proto__"; "toLocaleString"].

Definition inherited (k : string) : bool := Str.mem k protoNames.

Inductive lookup (V : Type) : Type :=
| Own (v : V)      (* an own property *)
| Inherited        (* a member of Object.prototype: truthy, and no array *)
| Undefined.
Arguments Own {V} v.
Arguments Inherited {V}.
Arguments Undefined {V}.

Section Ops.
Context {V : Type}.

Definition empty : t V := [].

Fixpoint getOwn (k : string) (o : t V) : option V :=
  match o with
  | [] => None
  | (k', v) :: o' => if String.eqb k k' then Some v else getOwn k o'
  end.

Definition hasOwn (k : string) (o : t V) : bool :=
  match getOwn k o with Some _ => true | None => false end.

(** [o[k]] *)
Definition get (k : string) (o : t V) : lookup V :=
  match getOwn k o with
  | Some v => Own v
  | None => if inherited k then Inherited else Undefined
  end.

Definition keys (o : t V) : list string := List.map fst o.
Definition values (o : t V) : list V := List.map snd o.

Fixpoint replace (k : string) (v : V) (o : t V) : t V :=
  match o with
  | [] => []
  | (k', v') :: o' => if String.eqb k k' then (k, v) :: o' else (k', v') :: replace k v o'
  end.

(** The number a canonical array index denotes: decimal digits with no
    leading zero, below 2^32 - 1.  Such keys are enumerated first, in
    ascending order; the others follow in the order of their creation. *)
Definition arrayIndex (k : string) : option N :=
  let ds := List.map nat_of_ascii (list_ascii_of_string k) in
  let digit d := andb (Nat.leb 48 d) (Nat.leb d 57) in
  if andb (List.forallb digit ds)
       (andb (Nat.leb 1 (List.length ds)) (Nat.leb (List.length ds) 10))
  then
    let n := List.fold_left (fun a d => (10 * a + N.of_nat (d - 48))%N) ds 0%N in
    if andb (orb (Nat.eqb (List.length ds) 1) (negb (Nat.eqb (List.hd 0 ds) 48)))
         (N.ltb n 4294967295)
    then Some n else None
  else None.

Fixpoint insertIndex (n : N) (k : string) (v : V) (o : t V) : t V :=
  match o with
  | [] => [(k, v)]
  | (k', v') :: o' =>
      match arrayIndex k' with
      | Some n' => if N.ltb n' n then (k', v') :: insertIndex n k v o'
                   else (k, v) :: (k', v') :: o'
      | None => (k, v) :: (k', v') :: o'
      end
  end.

(** [CreateDataProperty]: what [JSON.parse] does for each member. *)
Definition define (k : string) (v : V) (o : t V) : t V :=
  if hasOwn k o then replace k v o
  else match arrayIndex k with
       | Some n => insertIndex n k v o
       | None => o ++ [(k, v)]
       end.

(** [o[k] = v].  Without an own property [__proto__], the assignment runs
    the setter of [Object.prototype] and creates no property. *)
Definition set (k : string) (v : V) (o : t V) : t V :=
  if andb (String.eqb k "__proto__") (negb (hasOwn k o)) then o else define k v o.

(** [delete o[k]] *)
Definition delete (k : string) (o : t V) : t V :=
  List.filter (fun kv => negb (String.eqb k (fst kv))) o.

(** [JSON.parse] of an object, from its members in the order of the text;
    [JSON.stringify] writes the own properties in their order. *)
Definition parse (members : list (string * V)) : t V :=
  List.fold_left (fun o kv => define (fst kv) (snd kv) o) members empty.

Definition stringify (o : t V) : list (string * V) := o.

End Ops.
End JsObj.

(** ** The data model (cache.ts, checkpoint.ts) *)

Inductive Kind : Type := KFunction | KClass | KConstant | KType | KOther.

Definition kindName (k : Kind) : string :=
  match k with
  | KFunction => "function"
  | KClass => "class"
  | KConstant => "constant"
  | KType => "type"
  | KOther => "other"
  end.

Module ExportEntry.
Record t : Type := { name : string; kind : Kind }.
End ExportEntry.

(** A module card. *)
Module RepoctxFileCache.
Record t : Type := {
  path : string;
  hash : string;                          (* SHA1 of file content, or "meta" *)
  publicSurfaceHash : option string;
  summary : string;
  symbols : list string;
  exports : option (list ExportEntry.t);
  keywords : option (list string);
  dependencies : option (list string);
  footguns : option string;
  delta : option string;
  repoHeadAtSave : option string;
  updatedAt : string
}.
End RepoctxFileCache.

Module FileEntry.
Record t : Type := { hash : string; ref : string }.
End FileEntry.

Module RepoctxIndex.
Record t : Type := {
  metaVersion : option Z;
  files : JsObj.t FileEntry.t;            (* path -> { hash, ref } *)
  keywordIndex : JsObj.t (list string)    (* keyword -> [paths] *)
}.
End RepoctxIndex.

Module SymbolRelation.
Record t : Type := { symbol : string; relation : string }.
End SymbolRelation.

Module SymbolCard.
Record t : Type := {
  symbol : string;
  kind : Kind;
  file : string;
  signature : option string;
  purpose : string;
  related : option (list SymbolRelation.t);
  keywords : option (list string);
  updatedAt : string
}.
End SymbolCard.

Module SymbolsIndex.
Record t : Type := { symbols : JsObj.t string }.   (* symbolName -> filename *)
End SymbolsIndex.

Module Checkpoint.
Record t : Type := { head : string; branch : string; at_ : string }.
End Checkpoint.

Module RepoctxState.
Record t : Type := { repoRoot : string; lastCheckpoint : option Checkpoint.t }.
End RepoctxState.

(** ** The storage root [.repoctx] *)

(** What a read and [JSON.parse] of an existing file give. *)
Inductive content (A : Type) : Type :=
| Json (a : A)
| Garbage.                                (* JSON.parse throws *)
Arguments Json {A} a.
Arguments Garbage {A}.

(** [index.json] as text: an older document has no [keywordIndex]. *)
Module IndexDoc.
Record t : Type := {
  metaVersion : option Z;
  files : list (string * FileEntry.t);
  keywordIndex : option (list (string * list string))
}.
End IndexDoc.

(** For [index.json], [symbols-index.json] and [state.json], [None] is a
    file that is missing or does not parse. *)
Record Store : Type := {
  indexFile : option IndexDoc.t;
  filesDir : gmap string (content RepoctxFileCache.t);
  symbolsIndexFile : option (list (string * string));
  symbolsDir : gmap string (content SymbolCard.t);
  stateFile : option RepoctxState.t
}.

Definition emptyStore : Store :=
  {| indexFile := None; filesDir := ∅; symbolsIndexFile := None;
     symbolsDir := ∅; stateFile := None |}.

(** ** The process environment *)

(** [execSync(cmd, { encoding: "utf8" })]: the text printed, or the
    message of the error thrown. *)
Inductive exec : Type :=
| Stdout (out : string)
| Failed (message : string).

Record Env : Type := {
  cwd : string;                           (* process.cwd(), absolute *)
  readFile : string -> option string;     (* fs.readFile: the bytes, None when it throws *)
  gitRevParseHead : exec;                 (* git rev-parse HEAD *)
  gitRevParseAbbrevRefHead : exec;        (* git rev-parse --abbrev-ref HEAD *)
  gitDiffNumstat : string -> exec;        (* git diff <head>..HEAD --numstat *)
  grepFiles : string -> exec;             (* the grep -r -l of findWhereUsed, by basename *)
  now : string                            (* new Date().toISOString() *)
}.

(** ** Results and exceptions *)

Inductive error : Type :=
| TypeError
| FsError
| ExecError (message : string).

Inductive result (A : Type) : Type :=
| Ok (a : A)
| Throw (e : error).
Arguments Ok {A} a.
Arguments Throw {A} e.

(** An operation on the store: the store it leaves (also when it throws)
    and what it returns. *)
Definition M (A : Type) : Type := Store -> Store * result A.

Definition ret {A} (a : A) : M A := fun st => (st, Ok a).
Definition throw {A} (e : error) : M A := fun st => (st, Throw e).
Definition bind {A B} (m : M A) (k : A -> M B) : M B :=
  fun st => match m st with
            | (st', Ok a) => k a st'
            | (st', Throw e) => (st', Throw e)
            end.
Definition read {A} (f : Store -> A) : M A := fun st => (st, Ok (f st)).
Definition write (f : Store -> Store) : M unit := fun st => (f st, Ok tt).
Definition lift {A} (r : result A) : M A := fun st => (st, r).

Notation "'await' x <- m ;; k" := (bind m (fun x => k))
  (at level 10, x name, m at level 99, k at level 200).
Notation "'run' m ;; k" := (bind m (fun _ => k))
  (at level 10, m at level 99, k at level 200).

(** ** cache.ts *)

(** [fileHash(file)] *)
Definition fileHash (env : Env) (file : string) : result string :=
  match readFile env file with
  | Some buf => Ok (Sha1.hex buf)
  | None => Throw FsError
  end.

(** Stable short filename derived from the path (not content) *)
Definition refFromPath (p : string) : string :=
  String.substring 0 12 (Sha1.hex p) +:+ ".json".

Fixpoint insertSorted (x : string) (l : list string) : list string :=
  match l with
  | [] => [x]
  | y :: l' => if Str.leb x y then x :: l else y :: insertSorted x l'
  end.

(** [symbols.slice().sort()]: the default order of [sort] is [<] on
    strings. *)
Definition sortStrings (l : list string) : list string :=
  List.fold_right insertSorted [] l.

Definition computePublicSurfaceHash (symbols : list string) : string :=
  String.substring 0 12 (Sha1.hex (Str.join "," (sortStrings symbols))).

Definition loadIndex (st : Store) : RepoctxIndex.t :=
  match indexFile st with
  | Some parsed =>
      {| RepoctxIndex.metaVersion := IndexDoc.metaVersion parsed;
         RepoctxIndex.files := JsObj.parse (IndexDoc.files parsed);
         (* back-compat: old index had no keywordIndex *)
         RepoctxIndex.keywordIndex :=
           match IndexDoc.keywordIndex parsed with
           | Some kwi => JsObj.parse kwi
           | None => JsObj.empty
           end |}
  | None =>
      {| RepoctxIndex.metaVersion := None;
         RepoctxIndex.files := JsObj.empty;
         RepoctxIndex.keywordIndex := JsObj.empty |}
  end.

Definition saveIndex (idx : RepoctxIndex.t) (st : Store) : Store :=
  {| indexFile :=
       Some {| IndexDoc.metaVersion := RepoctxIndex.metaVersion idx;
               IndexDoc.files := JsObj.stringify (RepoctxIndex.files idx);
               IndexDoc.keywordIndex := Some (JsObj.stringify (RepoctxIndex.keywordIndex idx)) |};
     filesDir := filesDir st;
     symbolsIndexFile := symbolsIndexFile st;
     symbolsDir := symbolsDir st;
     stateFile := stateFile st |}.

Definition loadFileCache (relativePath : string) (st : Store) : option RepoctxFileCache.t :=
  let idx := loadIndex st in
  match JsObj.get relativePath (RepoctxIndex.files idx) with
  | JsObj.Own entry =>
      match filesDir st !! FileEntry.ref entry with
      | Some (Json card) => Some card
      | Some Garbage | None => None       (* catch *)
      end
  | JsObj.Inherited => None               (* entry.ref is undefined: path.join throws *)
  | JsObj.Undefined => None
  end.

Definition writeFileCard (ref : string) (data : RepoctxFileCache.t) (st : Store) : Store :=
  {| indexFile := indexFile st;
     filesDir := <[ref := Json data]> (filesDir st);
     symbolsIndexFile := symbolsIndexFile st;
     symbolsDir := symbolsDir st;
     stateFile := stateFile st |}.

(** [idx.keywordIndex[kw] ?? []] for an own key [kw]. *)
Definition bucket (kw : string) (o : JsObj.t (list string)) : list string :=
  match JsObj.getOwn kw o with Some l => l | None => [] end.

(** One turn of the loop that removes this path from all existing keyword
    entries; [kw] runs over the own keys. *)
Definition removeStep (relativePath : string) (o : JsObj.t (list string)) (kw : string)
  : JsObj.t (list string) :=
  let o1 :=
    JsObj.set kw
      (List.filter (fun p => negb (String.eqb p relativePath)) (bucket kw o)) o in
  if Nat.eqb (List.length (bucket kw o1)) 0 then JsObj.delete kw o1 else o1.

Definition removePath (relativePath : string) (kwi : JsObj.t (list string))
  : JsObj.t (list string) :=
  List.fold_left (removeStep relativePath) (JsObj.keys kwi) kwi.

(** Add to new keywords.  A keyword that names a member of
    [Object.prototype] and is no own key reads as that member, which has
    no [includes]: the call throws. *)
Fixpoint addPath (relativePath : string) (keywords : list string)
    (o : JsObj.t (list string)) : result (JsObj.t (list string)) :=
  match keywords with
  | [] => Ok o
  | kw :: keywords' =>
      let o1 := match JsObj.get kw o with
                | JsObj.Undefined => JsObj.set kw [] o
                | _ => o
                end in
      match JsObj.get kw o1 with
      | JsObj.Own l =>
          if Str.mem relativePath l then addPath relativePath keywords' o1
          else addPath relativePath keywords' (JsObj.set kw (l ++ [relativePath]) o1)
      | _ => Throw TypeError
      end
  end.

(** [data.keywords ?? []] *)
Definition keywordsOf (data : RepoctxFileCache.t) : list string :=
  match RepoctxFileCache.keywords data with Some k => k | None => [] end.

Definition saveFileCache (relativePath : string) (data : RepoctxFileCache.t) : M unit :=
  await idx <- read loadIndex ;;
  let ref := refFromPath relativePath in
  run write (writeFileCard ref data) ;;
  (* Update file entry *)
  let files :=
    JsObj.set relativePath
      {| FileEntry.hash := RepoctxFileCache.hash data; FileEntry.ref := ref |}
      (RepoctxIndex.files idx) in
  (* Rebuild keyword index for this path *)
  let keywords := keywordsOf data in
  await kwi <- lift (addPath relativePath keywords
                 (removePath relativePath (RepoctxIndex.keywordIndex idx))) ;;
  write (saveIndex {| RepoctxIndex.metaVersion := RepoctxIndex.metaVersion idx;
                      RepoctxIndex.files := files;
                      RepoctxIndex.keywordIndex := kwi |}).

(** The elements of a [Set] in insertion order, added one by one. *)
Definition setAdd (acc : list string) (p : string) : list string :=
  if Str.mem p acc then acc else acc ++ [p].

Definition newSet (l : list string) : list string := List.fold_left setAdd l [].

Fixpoint keywordSets (kwi : JsObj.t (list string)) (keywords : list string)
  : result (list (list string)) :=
  match keywords with
  | [] => Ok []
  | k :: keywords' =>
      match JsObj.get k kwi with
      | JsObj.Inherited => Throw TypeError        (* new Set of a function *)
      | other =>
          let s := newSet (match other with JsObj.Own l => l | _ => [] end) in
          match keywordSets kwi keywords' with
          | Ok sets => Ok (s :: sets)
          | Throw e => Throw e
          end
      end
  end.

(** O(1) keyword lookup using the index.  OR logic: union of all sets. *)
Definition lookupByKeywords (keywords : list string) (st : Store) : result (list string) :=
  let idx := loadIndex st in
  match keywordSets (RepoctxIndex.keywordIndex idx) keywords with
  | Ok sets => Ok (List.fold_left (fun union s => List.fold_left setAdd s union) sets [])
  | Throw e => Throw e
  end.

(** *** Symbol card I/O *)

Definition loadSymbolsIndex (st : Store) : SymbolsIndex.t :=
  match symbolsIndexFile st with
  | Some parsed => {| SymbolsIndex.symbols := JsObj.parse parsed |}
  | None => {| SymbolsIndex.symbols := JsObj.empty |}
  end.

Definition writeSymbolCard (fname : string) (data : SymbolCard.t) (st : Store) : Store :=
  {| indexFile := indexFile st;
     filesDir := filesDir st;
     symbolsIndexFile := symbolsIndexFile st;
     symbolsDir := <[fname := Json data]> (symbolsDir st);
     stateFile := stateFile st |}.

Definition writeSymbolsIndex (idx : SymbolsIndex.t) (st : Store) : Store :=
  {| indexFile := indexFile st;
     filesDir := filesDir st;
     symbolsIndexFile := Some (JsObj.stringify (SymbolsIndex.symbols idx));
     symbolsDir := symbolsDir st;
     stateFile := stateFile st |}.

Definition saveSymbolCard (data : SymbolCard.t) : M unit :=
  await idx <- read loadSymbolsIndex ;;
  let fname := refFromPath ("symbol:" +:+ SymbolCard.symbol data) in
  run write (writeSymbolCard fname data) ;;
  write (writeSymbolsIndex
           {| SymbolsIndex.symbols :=
                JsObj.set (SymbolCard.symbol data) fname (SymbolsIndex.symbols idx) |}).

Definition loadAllSymbols (st : Store) : list SymbolCard.t :=
  let idx := loadSymbolsIndex st in
  List.fold_left
    (fun results fname =>
       match symbolsDir st !! fname with
       | Some (Json card) => results ++ [card]
       | Some Garbage | None => results    (* skip corrupt entries *)
       end)
    (JsObj.values (SymbolsIndex.symbols idx)) [].

(** *** Git helpers *)

Definition execSync (cmd : exec) : result string :=
  match cmd with
  | Stdout out => Ok out
  | Failed message => Throw (ExecError message)
  end.

Definition getGitHead (env : Env) : option string :=
  match execSync (gitRevParseHead env) with
  | Ok out => Some (Str.trim out)
  | Throw _ => None
  end.

Definition getGitBranch (env : Env) : option string :=
  match execSync (gitRevParseAbbrevRefHead env) with
  | Ok out => Some (Str.trim out)
  | Throw _ => None
  end.

(** ** save.ts *)

Definition nl : string := String (ascii_of_nat 10) EmptyString.
Definition backslash : ascii := ascii_of_nat 92.

(** [x] when it is a non-empty string ([if (x) ...]). *)
Definition whenTruthy (x : option string) : option string :=
  match x with
  | Some s => if Str.truthy s then Some s else None
  | None => None
  end.

(** [x] when it is a non-empty array ([if (x && x.length > 0) ...]). *)
Definition whenNonEmpty {A} (x : option (list A)) : option (list A) :=
  match x with
  | Some (a :: l) => Some (a :: l)
  | Some [] | None => None
  end.

Definition findWhereUsed (env : Env) (relPath : string) : list string :=
  let basename := Path.basename relPath (Path.extname relPath) in
  match execSync (grepFiles env basename) with
  | Ok raw =>
      List.firstn 5
        (List.filter
           (fun f => andb (negb (String.eqb f ("./" +:+ relPath)))
                          (negb (String.eqb f relPath)))
           (List.filter
              (fun f => andb (negb (Str.includes f "node_modules"))
                             (negb (Str.includes f ".repoctx")))
              (List.filter Str.truthy (Str.split (ascii_of_nat 10) (Str.trim raw)))))
  | Throw _ => []
  end.

Module SaveArgs.
Record t : Type := {
  filePath : string;
  summary : string;
  symbols : list string;
  exports : option (list ExportEntry.t);
  keywords : list string;
  dependencies : option (list string);
  footguns : option string;
  delta : option string;
  meta : bool
}.
End SaveArgs.

(** The path a card is saved under. *)
Definition relOf (env : Env) (meta : bool) (filePath : string) : string :=
  if meta then Str.replaceAll backslash "/" filePath
  else Str.replaceAll backslash "/" (Path.relative (cwd env) filePath).

Definition saveManual (env : Env) (a : SaveArgs.t) : M string :=
  let rel := relOf env (SaveArgs.meta a) (SaveArgs.filePath a) in
  await hash <- lift (if SaveArgs.meta a then Ok "meta"
                      else fileHash env (Path.resolve (cwd env) (SaveArgs.filePath a))) ;;
  let publicSurfaceHash :=
    match SaveArgs.symbols a with
    | [] => None
    | _ => Some (computePublicSurfaceHash (SaveArgs.symbols a))
    end in
  let head := getGitHead env in
  let whereUsed := if SaveArgs.meta a then [] else findWhereUsed env rel in
  let entry :=
    {| RepoctxFileCache.path := rel;
       RepoctxFileCache.hash := hash;
       RepoctxFileCache.summary :=
         match whereUsed with
         | [] => SaveArgs.summary a
         | _ => SaveArgs.summary a +:+ nl +:+ "Used in: " +:+ Str.join ", " whereUsed
         end;
       RepoctxFileCache.symbols := SaveArgs.symbols a;
       RepoctxFileCache.keywords := Some (SaveArgs.keywords a);
       RepoctxFileCache.updatedAt := now env;
       RepoctxFileCache.publicSurfaceHash := whenTruthy publicSurfaceHash;
       RepoctxFileCache.exports := whenNonEmpty (SaveArgs.exports a);
       RepoctxFileCache.dependencies := whenNonEmpty (SaveArgs.dependencies a);
       RepoctxFileCache.footguns := whenTruthy (SaveArgs.footguns a);
       RepoctxFileCache.delta := whenTruthy (SaveArgs.delta a);
       RepoctxFileCache.repoHeadAtSave := whenTruthy head |} in
  run saveFileCache rel entry ;;
  ret rel.

(** ** saveSymbol.ts *)

Module SaveSymbolArgs.
Record t : Type := {
  symbol : string;
  kind : Kind;
  file : string;
  signature : option string;
  purpose : string;
  related : option (list SymbolRelation.t);
  keywords : option (list string)
}.
End SaveSymbolArgs.

Definition saveSymbol (env : Env) (a : SaveSymbolArgs.t) : M string :=
  let card :=
    {| SymbolCard.symbol := SaveSymbolArgs.symbol a;
       SymbolCard.kind := SaveSymbolArgs.kind a;
       SymbolCard.file := SaveSymbolArgs.file a;
       SymbolCard.purpose := SaveSymbolArgs.purpose a;
       SymbolCard.updatedAt := now env;
       SymbolCard.signature := whenTruthy (SaveSymbolArgs.signature a);
       SymbolCard.related := whenNonEmpty (SaveSymbolArgs.related a);
       SymbolCard.keywords := whenNonEmpty (SaveSymbolArgs.keywords a) |} in
  run saveSymbolCard card ;;
  ret (SaveSymbolArgs.symbol a).

(** One segment of the [--related] text: [symbol:relation]. *)
Definition parseRelation (s : string) : SymbolRelation.t :=
  let parts := Str.split ":" s in
  let relation := Str.trim (Str.join ":" (List.tl parts)) in
  {| SymbolRelation.symbol := Str.trim (List.hd EmptyString parts);
     SymbolRelation.relation := if Str.truthy relation then relation else "related" |}.

(** Parse "symbol:relation,symbol:relation" format from CLI *)
Definition parseRelated (raw : string) : list SymbolRelation.t :=
  List.map parseRelation
    (List.filter Str.truthy (List.map Str.trim (Str.split "," raw))).

(** ** get.ts *)

Module Query.
Record t : Type := {
  filterPath : option string;
  keywords : option (list string);
  symbol : option string
}.
End Query.

(** [keywords && keywords.length > 0] *)
Definition keywordsGiven (q : Query.t) : option (list string) :=
  whenNonEmpty (Query.keywords q).

(** [x?.length] is truthy *)
Definition nonEmpty {A} (x : option (list A)) : list A :=
  match x with Some l => l | None => [] end.

Definition symbolDetail (m : SymbolCard.t) : list string :=
  ["[symbol: " +:+ SymbolCard.symbol m +:+ "]";
   "Kind: " +:+ kindName (SymbolCard.kind m);
   "File: " +:+ SymbolCard.file m;
   "Purpose: " +:+ SymbolCard.purpose m]
  ++ match whenTruthy (SymbolCard.signature m) with
     | Some sig => ["Signature: " +:+ sig]
     | None => []
     end
  ++ match nonEmpty (SymbolCard.related m) with
     | [] => []
     | rs => "Related:"
             :: List.map (fun r => "  - " +:+ SymbolRelation.symbol r +:+ " ("
                                   +:+ SymbolRelation.relation r +:+ ")") rs
     end
  ++ match nonEmpty (SymbolCard.keywords m) with
     | [] => []
     | ks => ["Keywords: " +:+ Str.join ", " ks]
     end
  ++ ["Updated: " +:+ SymbolCard.updatedAt m].

Definition outdatedLine : string := "⚠ Context outdated (file changed since last save)".
Definition notFoundLine : string := "⚠ File not found (may have been deleted or moved)".

(** The staleness annotation of a module block. *)
Definition stalenessLines (env : Env) (rel : string) (cache : RepoctxFileCache.t)
  : list string :=
  if negb (String.eqb (RepoctxFileCache.hash cache) "meta") then
    match fileHash env (Path.resolve (cwd env) rel) with
    | Ok currentHash =>
        if negb (String.eqb currentHash (RepoctxFileCache.hash cache))
        then [outdatedLine] else []
    | Throw _ => [notFoundLine]
    end
  else [].

Definition moduleBlock (env : Env) (rel : string) (cache : RepoctxFileCache.t)
  : list string :=
  ["[" +:+ rel +:+ "]"; RepoctxFileCache.summary cache]
  ++ match RepoctxFileCache.symbols cache with
     | [] => []
     | ss => ["Symbols: " +:+ Str.join ", " ss]
     end
  ++ match nonEmpty (RepoctxFileCache.exports cache) with
     | [] => []
     | es => ["Exports: " +:+ Str.join ", "
                (List.map (fun e => ExportEntry.name e +:+ "("
                                    +:+ kindName (ExportEntry.kind e) +:+ ")") es)]
     end
  ++ match nonEmpty (RepoctxFileCache.keywords cache) with
     | [] => []
     | ks => ["Keywords: " +:+ Str.join ", " ks]
     end
  ++ match nonEmpty (RepoctxFileCache.dependencies cache) with
     | [] => []
     | ds => ["Deps: " +:+ Str.join ", " ds]
     end
  ++ match whenTruthy (RepoctxFileCache.footguns cache) with
     | Some f => ["⚠ Footguns: " +:+ f]
     | None => []
     end
  ++ match whenTruthy (RepoctxFileCache.delta cache) with
     | Some d => ["Δ Last change: " +:+ d]
     | None => []
     end
  ++ stalenessLines env rel cache
  ++ [EmptyString].

(** The test of the loop over [pathsToShow] that skips a path. *)
Definition filteredOut (relFilter : option string) (rel : string) : bool :=
  match whenTruthy relFilter with
  | Some relFilter =>
      let isCwd := orb (String.eqb relFilter EmptyString) (String.eqb relFilter ".") in
      let isExact := String.eqb rel relFilter in
      let isUnder := Str.startsWith rel (relFilter +:+ "/") in
      andb (negb isCwd) (andb (negb isExact) (negb isUnder))
  | None => false
  end.

(** One turn of the loop over [pathsToShow]. *)
Definition moduleStep (env : Env) (st : Store) (relFilter : option string)
    (lines : list string) (rel : string) : list string :=
  if filteredOut relFilter rel then lines          (* continue *)
  else match loadFileCache rel st with
       | None => lines                             (* continue *)
       | Some cache => lines ++ moduleBlock env rel cache
       end.

Definition symbolsHeader : string :=
  "── Symbols ──────────────────────────────────────────────".

Definition symbolBlock (s : SymbolCard.t) : list string :=
  ["[symbol: " +:+ SymbolCard.symbol s +:+ "] (" +:+ kindName (SymbolCard.kind s)
     +:+ ") " +:+ SymbolCard.file s;
   "  " +:+ SymbolCard.purpose s]
  ++ match whenTruthy (SymbolCard.signature s) with
     | Some sig => ["  Sig: " +:+ sig]
     | None => []
     end
  ++ match nonEmpty (SymbolCard.related s) with
     | [] => []
     | rs => ["  Related: " +:+ Str.join ", "
                (List.map (fun r => SymbolRelation.symbol r +:+ " ("
                                    +:+ SymbolRelation.relation r +:+ ")") rs)]
     end
  ++ [EmptyString].

(** [keywords.some((k) => s.keywords?.includes(k))] *)
Definition symbolTagged (keywords : list string) (s : SymbolCard.t) : bool :=
  List.existsb
    (fun k => match SymbolCard.keywords s with
              | Some ks => Str.mem k ks
              | None => false
              end)
    keywords.

Definition notFound (symbol : string) : string :=
  "No symbol found: " +:+ Str.quote +:+ symbol +:+ Str.quote.

Section QueryEngine.

(** [String.prototype.toLowerCase] *)
Variable toLowerCase : string -> string.

Definition findSymbol (symbol : string) (allSymbols : list SymbolCard.t)
  : option SymbolCard.t :=
  List.find
    (fun s => String.eqb (toLowerCase (SymbolCard.symbol s)) (toLowerCase symbol))
    allSymbols.

Definition getContext (env : Env) (q : Query.t) (st : Store) : result string :=
  match whenTruthy (Query.symbol q) with
  | Some symbol =>
      (* Symbol lookup *)
      let allSymbols := loadAllSymbols st in
      match findSymbol symbol allSymbols with
      | None => Ok (notFound symbol)
      | Some m => Ok (Str.join nl (symbolDetail m))
      end
  | None =>
      (* Determine which paths to show: None = show all *)
      match (match keywordsGiven q with
             | Some keywords =>
                 match lookupByKeywords keywords st with
                 | Ok paths => Ok (Some paths)
                 | Throw e => Throw e
                 end
             | None => Ok None
             end) with
      | Throw e => Throw e
      | Ok targetPaths =>
          (* Module cards *)
          let idx := loadIndex st in
          let relFilter :=
            match whenTruthy (Query.filterPath q) with
            | Some filterPath =>
                Some (Str.replaceAll backslash "/" (Path.relative (cwd env) filterPath))
            | None => None
            end in
          let pathsToShow :=
            match targetPaths with
            | Some paths => paths
            | None => JsObj.keys (RepoctxIndex.files idx)
            end in
          let lines := List.fold_left (moduleStep env st relFilter) pathsToShow [] in
          (* Symbol cards *)
          let allSymbols := loadAllSymbols st in
          let symbolsToShow :=
            match keywordsGiven q with
            | Some keywords => List.filter (symbolTagged keywords) allSymbols
            | None => allSymbols
            end in
          let lines :=
            match symbolsToShow with
            | [] => lines
            | _ => List.fold_left (fun lines s => lines ++ symbolBlock s) symbolsToShow
                     (lines ++ [symbolsHeader])
            end in
          Ok (Str.join nl lines)
      end
  end.

End QueryEngine.

Module StaleEntry.
Record t : Type := { path : string; reason : string }.
End StaleEntry.

(** One turn of the loop of [getStale]. *)
Definition staleStep (env : Env) (st : Store) (stale : list StaleEntry.t) (rel : string)
  : list StaleEntry.t :=
  match loadFileCache rel st with
  | None => stale                                  (* continue *)
  | Some cache =>
      if String.eqb (RepoctxFileCache.hash cache) "meta" then stale
      else match fileHash env (Path.resolve (cwd env) rel) with
           | Ok currentHash =>
               if negb (String.eqb currentHash (RepoctxFileCache.hash cache))
               then stale ++ [{| StaleEntry.path := rel;
                                 StaleEntry.reason := "file content changed" |}]
               else stale
           | Throw _ =>
               stale ++ [{| StaleEntry.path := rel;
                            StaleEntry.reason := "file not found" |}]
           end
  end.

Definition getStale (env : Env) (st : Store) : list StaleEntry.t :=
  let idx := loadIndex st in
  List.fold_left (staleStep env st) (JsObj.keys (RepoctxIndex.files idx)) [].

(** ** checkpoint.ts *)

Definition writeState (state : RepoctxState.t) (st : Store) : Store :=
  {| indexFile := indexFile st;
     filesDir := filesDir st;
     symbolsIndexFile := symbolsIndexFile st;
     symbolsDir := symbolsDir st;
     stateFile := Some state |}.

Definition saveCheckpoint (env : Env) : M Checkpoint.t :=
  await head <- lift (execSync (gitRevParseHead env)) ;;
  let head := Str.trim head in
  await branch <- lift (execSync (gitRevParseAbbrevRefHead env)) ;;
  let branch := Str.trim branch in
  let cp := {| Checkpoint.head := head; Checkpoint.branch := branch;
               Checkpoint.at_ := now env |} in
  run write (writeState {| RepoctxState.repoRoot := cwd env;
                           RepoctxState.lastCheckpoint := Some cp |}) ;;
  ret cp.

Definition loadCheckpoint (st : Store) : option Checkpoint.t :=
  match stateFile st with
  | Some state => RepoctxState.lastCheckpoint state
  | None => None
  end.

(** ** diff.ts *)

Section ChangeSummary.

(** The ranked list of changed files and the diff excerpts, from the text
    [git diff --numstat] printed (the second half of [runDiff]; every
    command it runs is inside a [try]).  It takes no part in what is
    proved below and is a parameter. *)
Variable formatChanges : Checkpoint.t -> string -> string.

Definition runDiff (env : Env) (st : Store) : string :=
  match loadCheckpoint st with
  | None => "No checkpoint found. Run `repoctx checkpoint` first."
  | Some checkpoint =>
      let head := Checkpoint.head checkpoint in
      let shortHead := String.substring 0 7 head in
      match execSync (gitRevParseHead env) with
      | Throw _ => "Not in a git repository."
      | Ok out =>
          let currentHead := Str.trim out in
          if String.eqb currentHead head
          then "No changes since checkpoint (" +:+ shortHead +:+ ")."
          else match execSync (gitDiffNumstat env head) with
               | Throw _ => "Could not compute diff from " +:+ shortHead +:+ "."
               | Ok numstatOutput => formatChanges checkpoint numstatOutput
               end
      end
  end.

End ChangeSummary.

(** ** index.ts: the [checkpoint] command *)

Record Outcome : Type := {
  stdout : list string;                   (* console.log *)
  stderr : list string;                   (* console.error *)
  exitCode : Z
}.

(** [e.message]; the texts of the engine's own errors are not modelled. *)
Definition errorMessage (e : error) : string :=
  match e with
  | ExecError message => message
  | TypeError => "TypeError"
  | FsError => "FsError"
  end.

Definition checkpointCommand (env : Env) (st : Store) : Store * Outcome :=
  match saveCheckpoint env st with
  | (st', Ok cp) =>
      (st', {| stdout := ["✓ Checkpoint saved: " +:+ Checkpoint.branch cp +:+ " @ "
                            +:+ String.substring 0 7 (Checkpoint.head cp)
                            +:+ " (" +:+ Checkpoint.at_ cp +:+ ")"];
               stderr := [];
               exitCode := 0 |})
  | (st', Throw e) =>
      (st', {| stdout := [];
               stderr := ["Error: " +:+ errorMessage e;
                          "Make sure you are inside a git repository."];
               exitCode := 1 |})
  end.

(** ** diff.ts: the list of changes *)

Definition tab : ascii := ascii_of_nat 9.

(** The decimal digits of a natural number, prepended to [acc]; the fuel
    is a bound on their number. *)
Fixpoint digitsFuel (fuel : nat) (n : N) (acc : string) : string :=
  match fuel with
  | O => acc
  | S fuel' =>
      let acc' := String (ascii_of_N (48 + n mod 10)) acc in
      if (n <? 10)%N then acc' else digitsFuel fuel' (n / 10) acc'
  end.

(** [`${z}`] for an integer. *)
Definition showZ (z : Z) : string :=
  let digits n := digitsFuel (S (N.to_nat (N.log2 n))) n EmptyString in
  if (z <? 0)%Z then "-" +:+ digits (Z.to_N (- z)) else digits (Z.to_N z).

(** [ToIntegerOrInfinity] of a number, which [slice] applies to its
    arguments: the number without its fraction. *)
Inductive integerOrInfinity : Type :=
| Finite (z : Z)
| PlusInfinity
| MinusInfinity.

(** [arr.slice(0, end)]: a negative [end] counts from the end. *)
Definition sliceTo {A} (end_ : integerOrInfinity) (l : list A) : list A :=
  match end_ with
  | Finite z =>
      if (0 <=? z)%Z then List.firstn (Z.to_nat z) l
      else List.firstn (List.length l - Z.to_nat (- z)) l
  | PlusInfinity => l
  | MinusInfinity => []
  end.

(** The lines of a file's diff that [runDiff] shows: those that start
    with [+] or [-], the headers [+++] and [---] apart, forty at most. *)
Definition diffExcerpt (fileDiff : string) : list string :=
  List.firstn 40
    (List.filter
       (fun l => andb (orb (Str.startsWith l "+") (Str.startsWith l "-"))
                      (andb (negb (Str.startsWith l "+++")) (negb (Str.startsWith l "---"))))
       (Str.split (ascii_of_nat 10) fileDiff)).

Module FileStat.
Record t (num : Type) : Type := { file : string; additions : num; deletions : num }.
Arguments file {num} _.
Arguments additions {num} _.
Arguments deletions {num} _.
End FileStat.

Section ChangeList.

(** The numbers of the engine and what the code does with them, and the
    two library calls whose result the text does not fix: the sort of an
    array with a comparator, and one more [git] command. *)
Context {num : Type}.
Variable Number : string -> num.                       (* Number(s) *)
Variable add sub : num -> num -> num.                  (* a + b, a - b *)
Variable numToString : num -> string.                  (* `${n}` *)
Variable isTruthy : num -> bool.                       (* if (n): not 0, -0 or NaN *)
Variable gt : num -> num -> bool.                      (* a > b *)
Variable ofLength : nat -> num.                        (* arr.length *)
Variable toIntegerOrInfinity : num -> integerOrInfinity.
Variable sort : (FileStat.t num -> FileStat.t num -> num) ->
                list (FileStat.t num) -> list (FileStat.t num).   (* arr.sort(compareFn) *)
Variable gitDiffFile : string -> string -> exec.       (* git diff <head>..HEAD -- "<file>" *)

(** One turn of the loop of [parseNumstat]; [parts[2]] is [undefined]
    when the line has fewer than three fields. *)
Definition numstatStep (results : list (FileStat.t num)) (line : string)
  : list (FileStat.t num) :=
  let parts := Str.split tab line in
  match List.nth_error parts 2 with
  | Some file =>
      if Str.truthy file
      then results ++ [{| FileStat.file := file;
                          FileStat.additions := Number (List.nth 0 parts EmptyString);
                          FileStat.deletions := Number (List.nth 1 parts EmptyString) |}]
      else results                                     (* continue *)
  | None => results                                    (* continue *)
  end.

Definition parseNumstat (output : string) : list (FileStat.t num) :=
  List.fold_left numstatStep
    (List.filter Str.truthy (Str.split (ascii_of_nat 10) (Str.trim output))) [].

(** [top] when it is truthy: [top &&], [top ?]. *)
Definition whenTruthyNumber (top : option num) : option num :=
  match top with
  | Some n => if isTruthy n then Some n else None
  | None => None
  end.

Definition statLine (s : FileStat.t num) : string :=
  "- " +:+ FileStat.file s +:+ " (+" +:+ numToString (FileStat.additions s)
  +:+ " -" +:+ numToString (FileStat.deletions s) +:+ ")".

(** One turn of the loop that shows the diffs; a command that fails, and
    a diff that is blank, add nothing. *)
Definition excerptStep (head : string) (lines : list string) (s : FileStat.t num)
  : list string :=
  match execSync (gitDiffFile head (FileStat.file s)) with
  | Ok fileDiff =>
      if negb (Str.truthy (Str.trim fileDiff)) then lines          (* continue *)
      else ((lines ++ ["[" +:+ FileStat.file s +:+ "]"]) ++ diffExcerpt fileDiff)
           ++ [EmptyString]
  | Throw _ => lines                                     (* skip *)
  end.

(** The lines [runDiff] joins, from the text [git diff --numstat] printed. *)
Definition changeLines (top : option num) (checkpoint : Checkpoint.t)
    (numstatOutput : string) : list string :=
  let head := Checkpoint.head checkpoint in
  let shortHead := String.substring 0 7 head in
  let stats :=
    sort (fun a b => sub (add (FileStat.additions b) (FileStat.deletions b))
                         (add (FileStat.additions a) (FileStat.deletions a)))
      (parseNumstat numstatOutput) in
  let topStats :=
    match whenTruthyNumber top with
    | Some top => sliceTo (toIntegerOrInfinity top) stats
    | None => stats
    end in
  let lines :=
    ["# Repoctx Diff (since " +:+ shortHead +:+ " — " +:+ Checkpoint.at_ checkpoint +:+ ")";
     EmptyString;
     "Files changed (" +:+ showZ (Z.of_nat (List.length stats)) +:+ "):";
     EmptyString] in
  let lines := List.fold_left (fun lines s => lines ++ [statLine s]) topStats lines in
  let lines :=
    match whenTruthyNumber top with
    | Some top =>
        if gt (ofLength (List.length stats)) top
        then lines ++ ["... and " +:+ numToString (sub (ofLength (List.length stats)) top)
                       +:+ " more files"]
        else lines
    | None => lines
    end in
  let lines := lines ++ [EmptyString; "---"; EmptyString] in
  List.fold_left (excerptStep head) topStats lines.

(** The second half of [runDiff]: [runDiff (formatChanges top)] is
    [runDiff({ top })]. *)
Definition formatChanges (top : option num) (checkpoint : Checkpoint.t)
    (numstatOutput : string) : string :=
  Str.join nl (changeLines top checkpoint numstatOutput).

(** index.ts, the [diff] command: [opts.top ? Number(opts.top) : undefined],
    and what the command writes to the standard output. *)
Definition topOption (optsTop : option string) : option num :=
  match whenTruthy optsTop with
  | Some n => Some (Number n)
  | None => None
  end.

Definition diffCommand (optsTop : option string) (env : Env) (st : Store) : string :=
  runDiff (formatChanges (topOption optsTop)) env st +:+ nl.

End ChangeList.

(** ** index.ts: the [save] and [init] commands *)

(** [split], the helper of the [save] and [save-symbol] commands. *)
Definition splitList (s : string) : list string :=
  if Str.truthy s
  then List.filter Str.truthy (List.map Str.trim (Str.split "," s))
  else [].

(** The options of [repoctx save] as the command-line parser gives them:
    the lists default to the empty string, [--meta] is a flag. *)
Module SaveOpts.
Record t : Type := {
  symbols : string;
  keywords : string;
  deps : string;
  footguns : option string;
  delta : option string;
  meta : bool
}.
End SaveOpts.

(** The action of [repoctx save]; it returns what it prints. *)
Definition saveCommand (env : Env) (file summary : string) (opts : SaveOpts.t)
  : M (list string) :=
  await rel <- saveManual env
    {| SaveArgs.filePath := file;
       SaveArgs.summary := summary;
       SaveArgs.symbols := splitList (SaveOpts.symbols opts);
       SaveArgs.exports := None;
       SaveArgs.keywords := splitList (SaveOpts.keywords opts);
       SaveArgs.dependencies := Some (splitList (SaveOpts.deps opts));
       SaveArgs.footguns := SaveOpts.footguns opts;
       SaveArgs.delta := SaveOpts.delta opts;
       SaveArgs.meta := SaveOpts.meta opts |} ;;
  ret ["✓ Saved context for " +:+ rel].

(** What [repoctx init] appends to [.gitignore]. *)
Definition gitignoreEntry : string :=
  nl +:+ "# repoctx context index" +:+ nl +:+ ".repoctx" +:+ nl.

(** [content.split("\n").some((l) => l.trim() === ".repoctx")] *)
Definition ignoresRepoctx (content : string) : bool :=
  List.existsb (fun l => String.eqb (Str.trim l) ".repoctx")
    (Str.split (ascii_of_nat 10) content).

(** The action of [repoctx init], on what it meets: whether [fs.mkdir]
    returns, what [fs.readFile] gives for [.gitignore] ([None] when it
    throws), and whether [fs.appendFile] returns.  It gives the text it
    appends to [.gitignore], if any, and what it prints. *)
Definition initCommand (mkdir : bool) (gitignore : option string) (appendFile : bool)
  : result (option string * list string) :=
  if negb mkdir then Throw FsError
  else
    let alreadyIgnored :=
      match gitignore with
      | Some content => ignoresRepoctx content
      | None => false                                    (* no .gitignore yet, will create *)
      end in
    let done :=
      "✓ repoctx initialized. Run `repoctx onboarding` to get CLAUDE.md instructions." in
    if negb alreadyIgnored then
      if appendFile
      then Ok (Some gitignoreEntry, ["✓ Added .repoctx to .gitignore"; done])
      else Throw FsError
    else Ok (None, ["✓ .repoctx already in .gitignore"; done]).

(** ** Records that hold no card *)

(** [JSON.parse] gives whatever value the file holds, and the loaders
    return it as a card unchecked: [JSON.parse(raw)] has the type [any].
    A [record] is a card, or a JSON value that has none of the members of
    a card: [null], a boolean, a number, a string, an array, or an
    object such as [{}].  Reading a member of [null] throws; a member of
    any other of these values is [undefined].  (An object with some of
    the members of a card, or with members of other types, is not among
    the values of the model.) *)
Inductive foreign : Type :=
| FNull
| FBool (b : bool)
| FNumber (zero : bool)                   (* a number; [zero] for 0 and -0 *)
| FString (s : string)
| FArray                                  (* an array *)
| FObject.                                (* an object with no member of a card, such as {} *)

(** [if (v)] *)
Definition truthyValue (v : foreign) : bool :=
  match v with
  | FNull => false
  | FBool b => b
  | FNumber zero => negb zero
  | FString s => Str.truthy s
  | FArray | FObject => true
  end.

Inductive record (A : Type) : Type :=
| Card (a : A)
| NoCard (v : foreign).
Arguments Card {A} a.
Arguments NoCard {A} v.

(** A loop whose body may throw. *)
Fixpoint forEach {A B} (body : B -> A -> result B) (l : list A) (acc : B) : result B :=
  match l with
  | [] => Ok acc
  | x :: l' =>
      match body acc x with
      | Ok acc' => forEach body l' acc'
      | Throw e => Throw e
      end
  end.

(** [l.filter(test)] for a test that may throw. *)
Fixpoint filterOrThrow {A} (test : A -> result bool) (l : list A) : result (list A) :=
  match l with
  | [] => Ok []
  | x :: l' =>
      match test x with
      | Ok b =>
          match filterOrThrow test l' with
          | Ok kept => Ok (if b then x :: kept else kept)
          | Throw e => Throw e
          end
      | Throw e => Throw e
      end
  end.

Module Raw.

(** The storage root, with record files that hold any JSON value. *)
Record t : Type := {
  indexFile : option IndexDoc.t;
  filesDir : gmap string (content (record RepoctxFileCache.t));
  symbolsIndexFile : option (list (string * string));
  symbolsDir : gmap string (content (record SymbolCard.t));
  stateFile : option RepoctxState.t
}.

(** The documents of the root, [index.json], [symbols-index.json] and
    [state.json], which are read as before. *)
Definition documents (st : t) : Store :=
  Build_Store (indexFile st) ∅ (symbolsIndexFile st) ∅ (stateFile st).

(** [loadFileCache]; [NoCard FNull] is [null]. *)
Definition loadFileCache (relativePath : string) (st : t) : record RepoctxFileCache.t :=
  let idx := loadIndex (documents st) in
  match JsObj.get relativePath (RepoctxIndex.files idx) with
  | JsObj.Own entry =>
      match filesDir st !! FileEntry.ref entry with
      | Some (Json parsed) => parsed
      | Some Garbage | None => NoCard FNull        (* catch *)
      end
  | JsObj.Inherited => NoCard FNull         (* entry.ref is undefined: path.join throws *)
  | JsObj.Undefined => NoCard FNull
  end.

Definition loadAllSymbols (st : t) : list (record SymbolCard.t) :=
  let idx := loadSymbolsIndex (documents st) in
  List.fold_left
    (fun results fname =>
       match symbolsDir st !! fname with
       | Some (Json parsed) => results ++ [parsed]
       | Some Garbage | None => results     (* skip corrupt entries *)
       end)
    (JsObj.values (SymbolsIndex.symbols idx)) [].

(** One turn of the loop over [pathsToShow].  A value that is no card and
    is truthy has no [symbols]: [cache.symbols.length] throws. *)
Definition moduleStep (env : Env) (st : t) (relFilter : option string)
    (lines : list string) (rel : string) : result (list string) :=
  if filteredOut relFilter rel then Ok lines           (* continue *)
  else match loadFileCache rel st with
       | Card cache => Ok (lines ++ moduleBlock env rel cache)
       | NoCard v => if truthyValue v then Throw TypeError else Ok lines
       end.

(** [keywords.some((k) => s.keywords?.includes(k))]: [s.keywords] throws
    for [null] and is [undefined] for another value that is no card. *)
Definition tagged (keywords : list string) (s : record SymbolCard.t) : result bool :=
  match s with
  | Card card => Ok (symbolTagged keywords card)
  | NoCard FNull => match keywords with [] => Ok false | _ :: _ => Throw TypeError end
  | NoCard _ => Ok false
  end.

(** The lines of a symbol in the listing: the members of a value that is
    no card print as [undefined]. *)
Definition symbolLines (s : record SymbolCard.t) : result (list string) :=
  match s with
  | Card card => Ok (symbolBlock card)
  | NoCard FNull => Throw TypeError
  | NoCard _ => Ok ["[symbol: undefined] (undefined) undefined"; "  undefined"; EmptyString]
  end.

Section QueryEngine.

Variable toLowerCase : string -> string.

(** [allSymbols.find((s) => s.symbol.toLowerCase() === symbol.toLowerCase())]:
    a value that is no card has no [symbol]. *)
Fixpoint findSymbol (symbol : string) (allSymbols : list (record SymbolCard.t))
  : result (option SymbolCard.t) :=
  match allSymbols with
  | [] => Ok None
  | Card s :: rest =>
      if String.eqb (toLowerCase (SymbolCard.symbol s)) (toLowerCase symbol)
      then Ok (Some s) else findSymbol symbol rest
  | NoCard _ :: _ => Throw TypeError
  end.

Definition getContext (env : Env) (q : Query.t) (st : t) : result string :=
  match whenTruthy (Query.symbol q) with
  | Some symbol =>
      (* Symbol lookup *)
      let allSymbols := loadAllSymbols st in
      match findSymbol symbol allSymbols with
      | Throw e => Throw e
      | Ok None => Ok (notFound symbol)
      | Ok (Some m) => Ok (Str.join nl (symbolDetail m))
      end
  | None =>
      (* Determine which paths to show: None = show all *)
      match (match keywordsGiven q with
             | Some keywords =>
                 match lookupByKeywords keywords (documents st) with
                 | Ok paths => Ok (Some paths)
                 | Throw e => Throw e
                 end
             | None => Ok None
             end) with
      | Throw e => Throw e
      | Ok targetPaths =>
          (* Module cards *)
          let idx := loadIndex (documents st) in
          let relFilter :=
            match whenTruthy (Query.filterPath q) with
            | Some filterPath =>
                Some (Str.replaceAll backslash "/" (Path.relative (cwd env) filterPath))
            | None => None
            end in
          let pathsToShow :=
            match targetPaths with
            | Some paths => paths
            | None => JsObj.keys (RepoctxIndex.files idx)
            end in
          match forEach (moduleStep env st relFilter) pathsToShow [] with
          | Throw e => Throw e
          | Ok lines =>
              (* Symbol cards *)
              let allSymbols := loadAllSymbols st in
              match (match keywordsGiven q with
                     | Some keywords => filterOrThrow (tagged keywords) allSymbols
                     | None => Ok allSymbols
                     end) with
              | Throw e => Throw e
              | Ok symbolsToShow =>
                  match (match symbolsToShow with
                         | [] => Ok lines
                         | _ => forEach
                                  (fun lines s =>
                                     match symbolLines s with
                                     | Ok block => Ok (lines ++ block)
                                     | Throw e => Throw e
                                     end)
                                  symbolsToShow (lines ++ [symbolsHeader])
                         end) with
                  | Throw e => Throw e
                  | Ok lines => Ok (Str.join nl lines)
                  end
              end
          end
      end
  end.

End QueryEngine.

(** One turn of the loop of [getStale].  The [hash] of a value that is no
    card is [undefined], which no digest equals. *)
Definition staleStep (env : Env) (st : t) (stale : list StaleEntry.t) (rel : string)
  : list StaleEntry.t :=
  let changed := stale ++ [{| StaleEntry.path := rel;
                              StaleEntry.reason := "file content changed" |}] in
  let missing := stale ++ [{| StaleEntry.path := rel;
                              StaleEntry.reason := "file not found" |}] in
  match loadFileCache rel st with
  | Card cache =>
      if String.eqb (RepoctxFileCache.hash cache) "meta" then stale
      else match fileHash env (Path.resolve (cwd env) rel) with
           | Ok currentHash =>
               if negb (String.eqb currentHash (RepoctxFileCache.hash cache))
               then changed else stale
           | Throw _ => missing
           end
  | NoCard v =>
      if truthyValue v
      then match fileHash env (Path.resolve (cwd env) rel) with
           | Ok _ => changed
           | Throw _ => missing
           end
      else stale                                   (* continue *)
  end.

Definition getStale (env : Env) (st : t) : list StaleEntry.t :=
  let idx := loadIndex (documents st) in
  List.fold_left (staleStep env st) (JsObj.keys (RepoctxIndex.files idx)) [].

(** The root with the file [ref] of [.repoctx/files], or the file [fname]
    of [.repoctx/symbols], holding [c], and without that file. *)
Definition withFile (ref : string) (c : content (record RepoctxFileCache.t)) (st : t) : t :=
  {| indexFile := indexFile st;
     filesDir := <[ref := c]> (filesDir st);
     symbolsIndexFile := symbolsIndexFile st;
     symbolsDir := symbolsDir st;
     stateFile := stateFile st |}.




End Raw.

(** A root whose record files all hold cards. *)
Definition cardsOnly {A} (c : content A) : content (record A) :=
  match c with
  | Json a => Json (Card a)
  | Garbage => Garbage
  end.

Definition untyped (st : Store) : Raw.t :=
  {| Raw.indexFile := indexFile st;
     Raw.filesDir := cardsOnly <$> filesDir st;
     Raw.symbolsIndexFile := symbolsIndexFile st;
     Raw.symbolsDir := cardsOnly <$> symbolsDir st;
     Raw.stateFile := stateFile st |}.

(** * The vocabulary of the specification *)

(** ** Keyword index *)

(** The bucket of [k] once [p] is taken out of it; an emptied bucket is deleted. *)
Definition without (p k : string) (o : JsObj.t (list string)) : option (list string) :=
  match JsObj.getOwn k o with
  | Some l =>
      match List.filter (fun q => negb (String.eqb q p)) l with
      | [] => None
      | l' => Some l'
      end
  | None => None
  end.

(** The index a save that returns writes. *)
Definition savedIndex (p : string) (d : RepoctxFileCache.t) (st : Store)
    (kwi : JsObj.t (list string)) : RepoctxIndex.t :=
  {| RepoctxIndex.metaVersion := RepoctxIndex.metaVersion (loadIndex st);
     RepoctxIndex.files :=
       JsObj.set p
         {| FileEntry.hash := RepoctxFileCache.hash d; FileEntry.ref := refFromPath p |}
         (RepoctxIndex.files (loadIndex st));
     RepoctxIndex.keywordIndex := kwi |}.

(** ** Round trip *)

(** The round trip as the specification words it: the card loaded has the
    field values of the input, and its hash is the hash of the bytes of
    the file saved. *)
Definition loadsVerbatim (env : Env) (a : SaveArgs.t) (st' : Store) (rel : string) : Prop :=
  exists card,
    loadFileCache rel st' = Some card
    /\ RepoctxFileCache.summary card = SaveArgs.summary a
    /\ RepoctxFileCache.symbols card = SaveArgs.symbols a
    /\ RepoctxFileCache.keywords card = Some (SaveArgs.keywords a)
    /\ RepoctxFileCache.exports card = SaveArgs.exports a
    /\ RepoctxFileCache.dependencies card = SaveArgs.dependencies a
    /\ RepoctxFileCache.footguns card = SaveArgs.footguns a
    /\ RepoctxFileCache.delta card = SaveArgs.delta a
    /\ exists bytes,
         readFile env (Path.resolve (cwd env) (SaveArgs.filePath a)) = Some bytes
         /\ RepoctxFileCache.hash card = Sha1.hex bytes.

(** The card [saveSymbol] stores. *)
Definition symbolCardOf (env : Env) (a : SaveSymbolArgs.t) : SymbolCard.t :=
  {| SymbolCard.symbol := SaveSymbolArgs.symbol a;
     SymbolCard.kind := SaveSymbolArgs.kind a;
     SymbolCard.file := SaveSymbolArgs.file a;
     SymbolCard.purpose := SaveSymbolArgs.purpose a;
     SymbolCard.updatedAt := now env;
     SymbolCard.signature := whenTruthy (SaveSymbolArgs.signature a);
     SymbolCard.related := whenNonEmpty (SaveSymbolArgs.related a);
     SymbolCard.keywords := whenNonEmpty (SaveSymbolArgs.keywords a) |}.

(** ** Staleness *)

(** The oracle of the specification: [classify(card) -> Fresh | Stale | Missing]. *)
Inductive Staleness : Type := Fresh | Stale | Missing.

(** A card with stored hash "meta" is always [Fresh].  Otherwise the file
    at the card's path is re-read and re-hashed: equal hash, [Fresh];
    unequal, [Stale]; read failure, [Missing]. *)
Definition classify (env : Env) (rel : string) (card : RepoctxFileCache.t) : Staleness :=
  if String.eqb (RepoctxFileCache.hash card) "meta" then Fresh
  else match readFile env (Path.resolve (cwd env) rel) with
       | None => Missing
       | Some bytes =>
           if String.eqb (Sha1.hex bytes) (RepoctxFileCache.hash card) then Fresh else Stale
       end.

(** What [getStale] lists for a classification. *)
Definition staleReport (rel : string) (s : Staleness) : list StaleEntry.t :=
  match s with
  | Fresh => []
  | Stale => [{| StaleEntry.path := rel; StaleEntry.reason := "file content changed" |}]
  | Missing => [{| StaleEntry.path := rel; StaleEntry.reason := "file not found" |}]
  end.

(** What [getContext] appends to a module block for a classification. *)
Definition annotation (s : Staleness) : list string :=
  match s with
  | Fresh => []
  | Stale => [outdatedLine]
  | Missing => [notFoundLine]
  end.

(** ** Listings *)

(** What one record of [.repoctx/symbols] contributes to [loadAllSymbols]. *)
Definition readableSymbol (st : Store) (fname : string) : list SymbolCard.t :=
  match symbolsDir st !! fname with
  | Some (Json card) => [card]
  | Some Garbage | None => []
  end.

(** The lines one path contributes to the module part of [getContext]. *)
Definition moduleLines (env : Env) (st : Store) (relFilter : option string) (rel : string)
  : list string :=
  if filteredOut relFilter rel then []
  else match loadFileCache rel st with
       | None => []
       | Some cache => moduleBlock env rel cache
       end.

(** The symbol part of [getContext]. *)
Definition symbolSection (symbolsToShow : list SymbolCard.t) : list string :=
  match symbolsToShow with
  | [] => []
  | _ => symbolsHeader :: List.flat_map symbolBlock symbolsToShow
  end.

(** [relFilter] of [getContext]. *)
Definition relFilterOf (env : Env) (q : Query.t) : option string :=
  match whenTruthy (Query.filterPath q) with
  | Some filterPath => Some (Str.replaceAll backslash "/" (Path.relative (cwd env) filterPath))
  | None => None
  end.

(** A path passes the filter [relFilter]: the loop of [getContext] does
    not skip it. *)
Definition passes (relFilter : string) (rel : string) : bool :=
  negb (filteredOut (Some relFilter) rel).

(** Inclusion as the specification words it, on the filter [f] as the
    caller gave it: [f] denotes the working directory, or [p] equals [f],
    or [p] starts with the literal string [f + "/"]. *)
Definition includedAsStated (env : Env) (f p : string) : Prop :=
  (let r := Str.replaceAll backslash "/" (Path.relative (cwd env) f) in
   r = EmptyString \/ r = ".")
  \/ p = f
  \/ Str.startsWith p (f +:+ "/") = true.

(** A path component other than [.] and [..]. *)
Definition plain (s : string) : bool :=
  andb (negb (String.eqb s ".")) (negb (String.eqb s "..")).

(** [sep] does not occur in [s]. *)
Fixpoint lacks (sep : ascii) (s : string) : bool :=
  match s with
  | EmptyString => true
  | String c s' => andb (negb (Ascii.eqb c sep)) (lacks sep s')
  end.

(** A record of [.repoctx/symbols] or [.repoctx/files] overwritten with
    text that is no JSON. *)
Definition corruptSymbolRecord (fname : string) (st : Store) : Store :=
  {| indexFile := indexFile st;
     filesDir := filesDir st;
     symbolsIndexFile := symbolsIndexFile st;
     symbolsDir := <[fname := Garbage]> (symbolsDir st);
     stateFile := stateFile st |}.

Definition corruptFileRecord (ref : string) (st : Store) : Store :=
  {| indexFile := indexFile st;
     filesDir := <[ref := Garbage]> (filesDir st);
     symbolsIndexFile := symbolsIndexFile st;
     symbolsDir := symbolsDir st;
     stateFile := stateFile st |}.

(** ** Environments *)

(** The environment with another file at [file] ([None]: no file). *)
Definition withFile (env : Env) (file : string) (bytes : option string) : Env :=
  {| cwd := cwd env;
     readFile := fun f => if String.eqb f file then bytes else readFile env f;
     gitRevParseHead := gitRevParseHead env;
     gitRevParseAbbrevRefHead := gitRevParseAbbrevRefHead env;
     gitDiffNumstat := gitDiffNumstat env;
     grepFiles := grepFiles env;
     now := now env |}.

(** The environment with another answer to [git rev-parse HEAD]. *)
Definition withHead (env : Env) (head : exec) : Env :=
  {| cwd := cwd env;
     readFile := readFile env;
     gitRevParseHead := head;
     gitRevParseAbbrevRefHead := gitRevParseAbbrevRefHead env;
     gitDiffNumstat := gitDiffNumstat env;
     grepFiles := grepFiles env;
     now := now env |}.

(** ** A working tree and a store for the examples *)

(** [/repo/src/users/dal.js], which [/repo/src/users/service.js]
    mentions; not a git repository. *)
Definition usersEnv : Env :=
  {| cwd := "/repo";
     readFile := fun file =>
       if String.eqb file "/repo/src/users/dal.js" then Some "export const getUser = 1;"
       else if String.eqb file "/repo/src/users/service.js" then Some "import './dal.js';"
       else None;
     gitRevParseHead := Failed "fatal: not a git repository";
     gitRevParseAbbrevRefHead := Failed "fatal: not a git repository";
     gitDiffNumstat := fun _ => Failed "fatal: not a git repository";
     grepFiles := fun basename =>
       if String.eqb basename "dal"
       then Stdout ("./src/users/service.js" +:+ nl +:+ "./src/users/dal.js" +:+ nl)
       else Stdout EmptyString;
     now := "2024-01-01T00:00:00.000Z" |}.

(** The same tree inside a git repository. *)
Definition gitEnv : Env :=
  {| cwd := "/repo";
     readFile := readFile usersEnv;
     gitRevParseHead := Stdout ("3f2a9c1d5e7b8a6c4d2e0f1a3b5c7d9e1f3a5b7c" +:+ nl);
     gitRevParseAbbrevRefHead := Stdout ("main" +:+ nl);
     gitDiffNumstat := fun _ => Stdout EmptyString;
     grepFiles := grepFiles usersEnv;
     now := "2024-01-02T00:00:00.000Z" |}.

(** [repoctx save src/users/dal.js "MongoDB DAL for users."
    --symbols getUser --keywords dal,users] *)
Definition saveDal : SaveArgs.t :=
  {| SaveArgs.filePath := "src/users/dal.js";
     SaveArgs.summary := "MongoDB DAL for users.";
     SaveArgs.symbols := ["getUser"];
     SaveArgs.exports := None;
     SaveArgs.keywords := ["dal"; "users"];
     SaveArgs.dependencies := None;
     SaveArgs.footguns := None;
     SaveArgs.delta := None;
     SaveArgs.meta := false |}.

(** A virtual entry with the given keywords. *)
Definition metaCard (path : string) (keywords : list string) : RepoctxFileCache.t :=
  {| RepoctxFileCache.path := path;
     RepoctxFileCache.hash := "meta";
     RepoctxFileCache.publicSurfaceHash := None;
     RepoctxFileCache.summary := "Session handling";
     RepoctxFileCache.symbols := [];
     RepoctxFileCache.exports := None;
     RepoctxFileCache.keywords := Some keywords;
     RepoctxFileCache.dependencies := None;
     RepoctxFileCache.footguns := None;
     RepoctxFileCache.delta := None;
     RepoctxFileCache.repoHeadAtSave := None;
     RepoctxFileCache.updatedAt := "2024-01-01T00:00:00.000Z" |}.

(** [src/auth.ts] saved with the keywords auth and session, then with auth alone. *)
Definition resaved : Store :=
  fst (saveFileCache "src/auth.ts" (metaCard "src/auth.ts" ["auth"])
         (fst (saveFileCache "src/auth.ts" (metaCard "src/auth.ts" ["auth"; "session"])
                 emptyStore))).

(** [repoctx save-symbol <symbol> "Reads one user" --file src/users/dal.js
    --keywords <keywords>] *)
Definition symbolArgs (symbol : string) (keywords : list string) : SaveSymbolArgs.t :=
  {| SaveSymbolArgs.symbol := symbol;
     SaveSymbolArgs.kind := KFunction;
     SaveSymbolArgs.file := "src/users/dal.js";
     SaveSymbolArgs.signature := None;
     SaveSymbolArgs.purpose := "Reads one user";
     SaveSymbolArgs.related := None;
     SaveSymbolArgs.keywords := Some keywords |}.

(** The symbol cards [FooBar] and [getUser]. *)
Definition twoSymbols : Store :=
  fst (saveSymbol usersEnv (symbolArgs "getUser" ["dal"])
         (fst (saveSymbol usersEnv (symbolArgs "FooBar" ["users"]) emptyStore))).

(** The symbol cards [Widget], tagged constructor, and [login], tagged
    auth and constructor. *)
Definition taggedConstructor : Store :=
  fst (saveSymbol usersEnv (symbolArgs "login" ["auth"; "constructor"])
         (fst (saveSymbol usersEnv (symbolArgs "Widget" ["constructor"]) emptyStore))).

(** The module card of [saveDal], tagged dal and users, and a symbol card
    [login] of the same file, tagged auth. *)
Definition demoStore : Store :=
  fst (saveSymbol usersEnv (symbolArgs "login" ["auth"])
         (fst (saveManual usersEnv saveDal emptyStore))).

(** A save with every option, of a path that is not in normal form, and a
    symbol card with relations. *)
Definition saveDalInFull : SaveArgs.t :=
  {| SaveArgs.filePath := "./src/users/../users/dal.js";
     SaveArgs.summary := "MongoDB DAL for users.";
     SaveArgs.symbols := ["getUser"; "createUser"];
     SaveArgs.exports :=
       Some [{| ExportEntry.name := "getUser"; ExportEntry.kind := KFunction |}];
     SaveArgs.keywords := ["dal"; "users"; "dal"];
     SaveArgs.dependencies := Some ["userSchema"];
     SaveArgs.footguns := Some "deleteUser is soft-delete only";
     SaveArgs.delta := Some "Added deleteUser";
     SaveArgs.meta := false |}.

Definition fullStore : Store :=
  fst (saveSymbol gitEnv
         {| SaveSymbolArgs.symbol := "deleteUser";
            SaveSymbolArgs.kind := KFunction;
            SaveSymbolArgs.file := "src/users/dal.js";
            SaveSymbolArgs.signature := Some "(id) => Promise";
            SaveSymbolArgs.purpose := "Hard delete";
            SaveSymbolArgs.related :=
              Some (parseRelated "softDeleteUser:soft-delete variant,getUser");
            SaveSymbolArgs.keywords := Some ["dal"] |}
         (fst (saveManual gitEnv saveDalInFull emptyStore))).

Definition byKeywords (keywords : list string) : Query.t :=
  {| Query.filterPath := None; Query.keywords := Some keywords; Query.symbol := None |}.

Definition byPath (filterPath : string) : Query.t :=
  {| Query.filterPath := Some filterPath; Query.keywords := None; Query.symbol := None |}.

Definition bySymbol (symbol : string) : Query.t :=
  {| Query.filterPath := None; Query.keywords := None; Query.symbol := Some symbol |}.

(** ** More of the keyword index *)

(** The paths of a bucket other than [p]. *)
Definition others (p : string) (l : list string) : list string :=
  List.filter (fun q => negb (String.eqb q p)) l.

(** An index of one card, written before there was a keyword index. *)
Definition oldStore : Store :=
  {| indexFile :=
       Some {| IndexDoc.metaVersion := Some 1%Z;
               IndexDoc.files :=
                 [("src/db.ts", {| FileEntry.hash := "meta";
                                   FileEntry.ref := refFromPath "src/db.ts" |})];
               IndexDoc.keywordIndex := None |};
     filesDir := {[ refFromPath "src/db.ts" := Json (metaCard "src/db.ts" ["db"]) ]};
     symbolsIndexFile := None;
     symbolsDir := ∅;
     stateFile := None |}.

(** ** The order of enumeration *)

(** [k1] may come before [k2] in an enumeration: when [k2] is an array
    index, [k1] is a smaller one. *)
Definition mayPrecede (k1 k2 : string) : Prop :=
  forall n, JsObj.arrayIndex k2 = Some n ->
            exists m, JsObj.arrayIndex k1 = Some m /\ (m < n)%N.

(** The own keys are distinct and in the order of enumeration: what
    [JSON.parse] builds, and what [JSON.stringify] and [JSON.parse] give
    back as it is. *)
Definition enumerated {V} (o : JsObj.t V) : Prop :=
  NoDup (JsObj.keys o) /\ StronglySorted mayPrecede (JsObj.keys o).

(** The character codes of a key, the test for a digit and the number a
    list of digits denotes, as in [JsObj.arrayIndex]. *)
Definition isDigit (d : nat) : bool := andb (Nat.leb 48 d) (Nat.leb d 57).
Definition codes (k : string) : list nat :=
  List.map nat_of_ascii (list_ascii_of_string k).
Definition decimal (ds : list nat) (a : N) : N :=
  List.fold_left (fun a d => (10 * a + N.of_nat (d - 48))%N) ds a.

(** ** Paths *)

(** A path component: not empty, and without a slash. *)
Definition component (s : string) : bool := andb (Str.truthy s) (lacks "/" s).

(** ** The text of a diff *)

(** What one file adds to the excerpts of [runDiff]. *)
Definition excerptBlock (gitDiffFile : string -> string -> exec) (head file : string)
  : list string :=
  match gitDiffFile head file with
  | Stdout fileDiff =>
      if Str.truthy (Str.trim fileDiff)
      then ("[" +:+ file +:+ "]") :: diffExcerpt fileDiff ++ [EmptyString]
      else []
  | Failed _ => []
  end.

(** The statistics of [runDiff] once sorted. *)
Definition rankedStats {num : Type} (Number : string -> num) (add sub : num -> num -> num)
    (sort : (FileStat.t num -> FileStat.t num -> num) ->
            list (FileStat.t num) -> list (FileStat.t num))
    (numstatOutput : string) : list (FileStat.t num) :=
  sort (fun a b => sub (add (FileStat.additions b) (FileStat.deletions b))
                       (add (FileStat.additions a) (FileStat.deletions a)))
    (parseNumstat Number numstatOutput).

(** The first lines of the text of [runDiff]. *)
Definition diffHeader (checkpoint : Checkpoint.t) (total : Z) : list string :=
  ["# Repoctx Diff (since " +:+ String.substring 0 7 (Checkpoint.head checkpoint) +:+ " — "
     +:+ Checkpoint.at_ checkpoint +:+ ")";
   EmptyString;
   "Files changed (" +:+ showZ total +:+ "):";
   EmptyString].

(** The line after the files listed, with the count as it is printed. *)
Definition moreFilesLine (count : string) : string := "... and " +:+ count +:+ " more files".

Definition moreFiles (k : Z) : string := moreFilesLine (showZ k).

(** The number [top] is the integer [n], as far as a list of [N] files
    shows it: its integer part is [n], and the tests and the difference
    the code computes from it and from the length [N] are those of [n]. *)
Definition isInteger {num : Type} (sub : num -> num -> num) (numToString : num -> string)
    (isTruthy : num -> bool) (gt : num -> num -> bool) (ofLength : nat -> num)
    (toIntegerOrInfinity : num -> integerOrInfinity) (top : num) (n : Z) (N : nat) : Prop :=
  toIntegerOrInfinity top = Finite n
  /\ isTruthy top = negb (n =? 0)%Z
  /\ gt (ofLength N) top = (Z.of_nat N >? n)%Z
  /\ numToString (sub (ofLength N) top) = showZ (Z.of_nat N - n).

(** Numbers for the examples: the decimal digits of a string read as an
    integer, and a stable insertion sort by the sign of the comparator. *)
Definition digitsToZ (s : string) : Z :=
  List.fold_left (fun a c => 10 * a + (Z.of_nat (nat_of_ascii c) - 48))%Z
    (list_ascii_of_string s) 0%Z.

Fixpoint insertBy {A} (cmp : A -> A -> Z) (x : A) (l : list A) : list A :=
  match l with
  | [] => [x]
  | y :: l' => if (cmp x y <=? 0)%Z then x :: l else y :: insertBy cmp x l'
  end.

Definition sortBy {A} (cmp : A -> A -> Z) (l : list A) : list A :=
  List.fold_right (insertBy cmp) [] l.

(** More numbers for the examples: halves, [h] standing for [h / 2]. *)
Definition halfToString (h : Z) : string :=
  (if (h <? 0)%Z then "-" else EmptyString)
  +:+ showZ (Z.abs h / 2) +:+ (if Z.odd h then ".5" else EmptyString).

(** What [git diff --numstat] prints for three files, with a line that
    names no file; the diff of [src/b.ts] cannot be computed and that of
    [src/a.ts] is blank. *)
Definition threeChanges : string :=
  "3" +:+ String tab "1" +:+ String tab "src/a.ts" +:+ nl
  +:+ "10" +:+ String tab "20" +:+ String tab "src/b.ts" +:+ nl
  +:+ "-" +:+ String tab "-" +:+ nl
  +:+ "5" +:+ String tab "0" +:+ String tab "src/c.ts" +:+ nl.

Definition diffsOfThree (head file : string) : exec :=
  if String.eqb file "src/b.ts" then Failed "fatal: bad revision"
  else if String.eqb file "src/c.ts"
  then Stdout ("--- a/src/c.ts" +:+ nl +:+ "+++ b/src/c.ts" +:+ nl +:+ "@@ -1 +1,2 @@" +:+ nl
               +:+ " const a = 1;" +:+ nl +:+ "+const b = 2;" +:+ nl +:+ "+++counter;" +:+ nl)
  else Stdout nl.

(** ** The [init] command *)

(** [.gitignore] after [text] is appended to it. *)
Definition appended (gitignore : option string) (text : option string) : option string :=
  match text with
  | Some text =>
      Some (match gitignore with Some content => content | None => EmptyString end +:+ text)
  | None => gitignore
  end.

(** ** Records that hold no card *)

(** What one record of [.repoctx/symbols] contributes to
    [Raw.loadAllSymbols]. *)
Definition parsedSymbol (st : Raw.t) (fname : string) : list (record SymbolCard.t) :=
  match Raw.symbolsDir st !! fname with
  | Some (Json parsed) => [parsed]
  | Some Garbage | None => []
  end.




(** * Properties *)

(** ** Dictionaries *)

Module JsObjFacts.
Import JsObj.

Section Facts.
Context {V : Type}.
Implicit Types (o : t V) (k x : string) (v : V).

Lemma getOwn_None_iff k o : getOwn k o = None <-> ~ In k (keys o).
Proof.
  induction o as [|[k' v'] o IH]; simpl; [tauto|].
  destruct (String.eqb_spec k k'); [split; [discriminate | intros H; exfalso; auto] |].
  rewrite IH. split; [intros H [E|E]; [congruence | auto] | tauto].
Qed.

Lemma getOwn_Some_value k v o : getOwn k o = Some v -> In v (values o).
Proof.
  induction o as [|[k' v'] o IH]; simpl; [discriminate|].
  destruct (String.eqb_spec k k'); [intros [= ->]; auto | auto].
Qed.

Lemma hasOwn_true_iff k o : hasOwn k o = true <-> In k (keys o).
Proof.
  unfold hasOwn. pose proof (getOwn_None_iff k o) as H.
  destruct (getOwn k o).
  - split; [intros _ | reflexivity].
    destruct (in_dec string_dec k (keys o)) as [i|n]; [exact i|].
    apply H in n. discriminate.
  - split; [discriminate | intros i]. exfalso. apply (proj1 H); auto.
Qed.

Lemma keys_replace k v o : keys (replace k v o) = keys o.
Proof.
  induction o as [|[k' v'] o IH]; simpl; [reflexivity|].
  destruct (String.eqb_spec k k'); simpl; [subst; reflexivity | now rewrite IH].
Qed.

Lemma getOwn_replace_eq k v o : In k (keys o) -> getOwn k (replace k v o) = Some v.
Proof.
  induction o as [|[k' v'] o IH]; simpl; [tauto|].
  destruct (String.eqb_spec k k') as [->|n]; simpl.
  - now rewrite String.eqb_refl.
  - intros [E|E]; [congruence|].
    destruct (String.eqb_spec k k'); [congruence | auto].
Qed.

Lemma getOwn_replace_ne k x v o : x <> k -> getOwn x (replace k v o) = getOwn x o.
Proof.
  intros n. induction o as [|[k' v'] o IH]; simpl; [reflexivity|].
  destruct (String.eqb_spec k k') as [->|n']; simpl.
  - destruct (String.eqb_spec x k'); [congruence | reflexivity].
  - destruct (String.eqb_spec x k'); [reflexivity | exact IH].
Qed.

Lemma In_keys_insertIndex n k v o x :
  In x (keys (insertIndex n k v o)) <-> x = k \/ In x (keys o).
Proof.
  induction o as [|[k' v'] o IH]; simpl; [intuition|].
  destruct (arrayIndex k') as [n'|]; [destruct (N.ltb n' n)|]; simpl; rewrite ?IH; intuition.
Qed.

Lemma getOwn_insertIndex_eq n k v o :
  getOwn k o = None -> getOwn k (insertIndex n k v o) = Some v.
Proof.
  induction o as [|[k' v'] o IH]; simpl.
  - now rewrite String.eqb_refl.
  - destruct (String.eqb_spec k k') as [->|ne]; [discriminate|]. intros H.
    destruct (arrayIndex k') as [n'|]; [destruct (N.ltb n' n)|]; simpl;
      rewrite ?String.eqb_refl; try reflexivity.
    destruct (String.eqb_spec k k'); [congruence | auto].
Qed.

Lemma getOwn_insertIndex_ne n k x v o :
  x <> k -> getOwn x (insertIndex n k v o) = getOwn x o.
Proof.
  intros ne. induction o as [|[k' v'] o IH]; simpl.
  - destruct (String.eqb_spec x k); [congruence | reflexivity].
  - destruct (arrayIndex k') as [n'|]; [destruct (N.ltb n' n)|]; simpl;
      try (destruct (String.eqb_spec x k); [congruence | reflexivity]).
    rewrite IH. reflexivity.
Qed.

Lemma NoDup_insertIndex n k v o :
  ~ In k (keys o) -> NoDup (keys o) -> NoDup (keys (insertIndex n k v o)).
Proof.
  induction o as [|[k' v'] o IH]; simpl; intros nin nd.
  - constructor; [tauto | constructor].
  - inversion nd as [|? ? nin' nd']; subst.
    assert (NoDup (k :: k' :: keys o)) as H
      by (constructor; [simpl; tauto | assumption]).
    destruct (arrayIndex k') as [n'|]; [destruct (N.ltb n' n)|]; simpl; try exact H.
    constructor; [| apply IH; tauto].
    rewrite In_keys_insertIndex. intros [E|E]; [subst; tauto | auto].
Qed.

Lemma getOwn_app_fresh k v o : getOwn k o = None -> getOwn k (o ++ [(k, v)]) = Some v.
Proof.
  induction o as [|[k' v'] o IH]; simpl.
  - now rewrite String.eqb_refl.
  - destruct (String.eqb_spec k k'); [discriminate | auto].
Qed.

Lemma getOwn_app_other k x v o : x <> k -> getOwn x (o ++ [(k, v)]) = getOwn x o.
Proof.
  intros ne. induction o as [|[k' v'] o IH]; simpl.
  - destruct (String.eqb_spec x k); [congruence | reflexivity].
  - destruct (String.eqb_spec x k'); [reflexivity | exact IH].
Qed.

Lemma getOwn_define_eq k v o : getOwn k (define k v o) = Some v.
Proof.
  unfold define. destruct (hasOwn k o) eqn:E.
  - apply getOwn_replace_eq, hasOwn_true_iff, E.
  - assert (getOwn k o = None) as H
      by (unfold hasOwn in E; destruct (getOwn k o); [discriminate | reflexivity]).
    destruct (arrayIndex k); [now apply getOwn_insertIndex_eq | now apply getOwn_app_fresh].
Qed.

Lemma getOwn_define_ne k x v o : x <> k -> getOwn x (define k v o) = getOwn x o.
Proof.
  intros ne. unfold define. destruct (hasOwn k o).
  - now apply getOwn_replace_ne.
  - destruct (arrayIndex k); [now apply getOwn_insertIndex_ne | now apply getOwn_app_other].
Qed.

Lemma NoDup_define k v o : NoDup (keys o) -> NoDup (keys (define k v o)).
Proof.
  intros nd. unfold define. destruct (hasOwn k o) eqn:E.
  - now rewrite keys_replace.
  - assert (~ In k (keys o)) as nin
      by (rewrite <- hasOwn_true_iff, E; discriminate).
    destruct (arrayIndex k); [now apply NoDup_insertIndex |].
    unfold keys. rewrite map_app. simpl.
    apply NoDup_app; [exact nd | constructor; [tauto | constructor] |].
    intros x i [<-|[]]. exact (nin i).
Qed.

Lemma getOwn_set_ne k x v o : x <> k -> getOwn x (set k v o) = getOwn x o.
Proof.
  intros ne. unfold set.
  destruct (andb _ _); [reflexivity | now apply getOwn_define_ne].
Qed.

Lemma getOwn_set_eq k v o :
  k <> "__proto__" \/ hasOwn k o = true -> getOwn k (set k v o) = Some v.
Proof.
  intros H. unfold set.
  destruct (String.eqb_spec k "__proto__") as [e|ne]; simpl.
  - destruct H as [H|H]; [congruence|]. rewrite H. simpl. apply getOwn_define_eq.
  - apply getOwn_define_eq.
Qed.

Lemma NoDup_set k v o : NoDup (keys o) -> NoDup (keys (set k v o)).
Proof.
  intros nd. unfold set. destruct (andb _ _); [exact nd | now apply NoDup_define].
Qed.

Lemma keys_delete k o :
  keys (delete k o) = List.filter (fun x => negb (String.eqb k x)) (keys o).
Proof.
  induction o as [|[k' v'] o IH]; simpl; [reflexivity|].
  destruct (String.eqb k k'); simpl; now rewrite IH.
Qed.

Lemma getOwn_delete_eq k o : getOwn k (delete k o) = None.
Proof.
  apply getOwn_None_iff. rewrite keys_delete, filter_In.
  intros [_ H]. now rewrite String.eqb_refl in H.
Qed.

Lemma getOwn_delete_ne k x o : x <> k -> getOwn x (delete k o) = getOwn x o.
Proof.
  intros ne. induction o as [|[k' v'] o IH]; simpl; [reflexivity|].
  destruct (String.eqb_spec k k') as [->|n]; simpl.
  - destruct (String.eqb_spec x k'); [congruence | exact IH].
  - destruct (String.eqb_spec x k'); [reflexivity | exact IH].
Qed.

Lemma NoDup_delete k o : NoDup (keys o) -> NoDup (keys (delete k o)).
Proof. intros nd. rewrite keys_delete. now apply NoDup_filter. Qed.

Lemma NoDup_fold_define (ms : list (string * V)) o :
  NoDup (keys o) ->
  NoDup (keys (List.fold_left (fun o kv => define (fst kv) (snd kv) o) ms o)).
Proof.
  revert o. induction ms as [|[k v] ms IH]; simpl; intros o nd; [exact nd|].
  apply IH. now apply NoDup_define.
Qed.

(** An object read back by [JSON.parse] has no key twice. *)
Lemma NoDup_parse (ms : list (string * V)) : NoDup (keys (parse ms)).
Proof. apply NoDup_fold_define. constructor. Qed.

Lemma getOwn_fold_define k (ms : list (string * V)) o :
  NoDup (keys ms) ->
  getOwn k (List.fold_left (fun o kv => define (fst kv) (snd kv) o) ms o)
  = match getOwn k ms with Some v => Some v | None => getOwn k o end.
Proof.
  revert o. induction ms as [|[k1 v1] ms IH]; simpl; intros o nd; [reflexivity|].
  inversion nd as [|? ? nin nd']; subst.
  rewrite (IH _ nd').
  destruct (String.eqb_spec k k1) as [->|ne].
  - apply getOwn_None_iff in nin. rewrite nin. apply getOwn_define_eq.
  - destruct (getOwn k ms); [reflexivity | now apply getOwn_define_ne].
Qed.

(** What [JSON.stringify] wrote, [JSON.parse] reads back, key by key. *)
Lemma getOwn_parse_stringify k o :
  NoDup (keys o) -> getOwn k (parse (stringify o)) = getOwn k o.
Proof.
  intros nd. unfold parse, stringify. rewrite (getOwn_fold_define k o empty nd).
  destruct (getOwn k o); reflexivity.
Qed.

Lemma get_parse_stringify k o :
  NoDup (keys o) -> get k (parse (stringify o)) = get k o.
Proof. intros nd. unfold get. now rewrite getOwn_parse_stringify. Qed.

End Facts.
End JsObjFacts.

(** ** The keyword index *)

Section KeywordIndex.
Import JsObj JsObjFacts.
Implicit Types (o kwi : JsObj.t (list string)) (k kw p : string).

Lemma filter_filter_same {A} (f : A -> bool) (l : list A) :
  List.filter f (List.filter f l) = List.filter f l.
Proof.
  induction l as [|a l IH]; simpl; [reflexivity|].
  destruct (f a) eqn:E; simpl; rewrite ?E, IH; reflexivity.
Qed.

Lemma getOwn_removeStep p o kw k :
  getOwn k (removeStep p o kw) = if String.eqb k kw then without p k o else getOwn k o.
Proof.
  unfold removeStep.
  set (l' := List.filter _ (bucket kw o)).
  destruct (String.eqb_spec k kw) as [->|ne].
  - unfold without. destruct (getOwn kw o) as [l|] eqn:E.
    + assert (getOwn kw (set kw l' o) = Some l') as H
        by (apply getOwn_set_eq; right; unfold hasOwn; now rewrite E).
      unfold bucket at 1. rewrite H.
      assert (l' = List.filter (fun q => negb (String.eqb q p)) l) as El
        by (unfold l', bucket; now rewrite E).
      rewrite <- El. destruct l'; simpl; [apply getOwn_delete_eq | exact H].
    + assert (l' = []) as -> by (unfold l', bucket; now rewrite E).
      destruct (getOwn kw (set kw [] o)) as [l|] eqn:E1.
      * assert (l = []) as ->.
        { destruct (String.eqb_spec kw "__proto__") as [e|n].
          - unfold set in E1. rewrite e in E1. simpl in E1.
            unfold hasOwn in E1. rewrite e in E. rewrite E in E1. simpl in E1. congruence.
          - rewrite getOwn_set_eq in E1 by (now left). congruence. }
        unfold bucket. rewrite E1. simpl. apply getOwn_delete_eq.
      * unfold bucket. rewrite E1. simpl. apply getOwn_delete_eq.
  - destruct (Nat.eqb _ 0).
    + rewrite getOwn_delete_ne by exact ne. now apply getOwn_set_ne.
    + now apply getOwn_set_ne.
Qed.

Lemma without_removeStep p o kw k : without p k (removeStep p o kw) = without p k o.
Proof.
  unfold without at 1. rewrite getOwn_removeStep.
  destruct (String.eqb k kw); [| reflexivity].
  unfold without. destruct (getOwn k o) as [l|]; [| reflexivity].
  destruct (List.filter _ l) as [|a l'] eqn:E; [reflexivity|].
  rewrite <- E, filter_filter_same, E. reflexivity.
Qed.

Lemma getOwn_fold_removeStep p ks o k :
  getOwn k (List.fold_left (removeStep p) ks o)
  = if Str.mem k ks then without p k o else getOwn k o.
Proof.
  revert o. induction ks as [|kw ks IH]; simpl; intros o; [reflexivity|].
  rewrite IH, without_removeStep, getOwn_removeStep.
  destruct (String.eqb k kw); simpl; [| reflexivity].
  destruct (Str.mem k ks); reflexivity.
Qed.

Lemma mem_In k (l : list string) : Str.mem k l = true <-> In k l.
Proof.
  unfold Str.mem. rewrite existsb_exists. split.
  - intros [x [i e]]. apply String.eqb_eq in e. now subst.
  - intros i. exists k. split; [exact i | apply String.eqb_refl].
Qed.

(** After the removal loop, the own bucket of every keyword is what it was
    without [p], and emptied buckets are gone. *)
Lemma getOwn_removePath p kwi k : getOwn k (removePath p kwi) = without p k kwi.
Proof.
  unfold removePath. rewrite getOwn_fold_removeStep.
  destruct (Str.mem k (keys kwi)) eqn:E; [reflexivity|].
  unfold without. destruct (getOwn k kwi) eqn:G; [| reflexivity].
  assert (In k (keys kwi)) as i.
  { destruct (in_dec string_dec k (keys kwi)) as [i|n]; [exact i|].
    apply getOwn_None_iff in n. congruence. }
  apply mem_In in i. congruence.
Qed.

Lemma without_not_In p k o l : without p k o = Some l -> ~ In p l.
Proof.
  unfold without. destruct (getOwn k o) as [l0|]; [| discriminate].
  destruct (List.filter _ l0) as [|a l'] eqn:E; [discriminate|].
  intros [= <-]. rewrite <- E. rewrite filter_In. intros [_ H].
  now rewrite String.eqb_refl in H.
Qed.

Lemma NoDup_removeStep p o kw : NoDup (keys o) -> NoDup (keys (removeStep p o kw)).
Proof.
  intros nd. unfold removeStep.
  destruct (Nat.eqb _ 0); [apply NoDup_delete|]; now apply NoDup_set.
Qed.

Lemma NoDup_removePath p kwi : NoDup (keys kwi) -> NoDup (keys (removePath p kwi)).
Proof.
  unfold removePath. generalize (keys kwi) at 2 as ks. intros ks. revert kwi.
  induction ks as [|kw ks IH]; simpl; intros kwi nd; [exact nd|].
  apply IH. now apply NoDup_removeStep.
Qed.

(** The loop that adds [p] touches the buckets of the new keywords only. *)
Lemma getOwn_addPath_other p ks o o' k :
  addPath p ks o = Ok o' -> ~ In k ks -> getOwn k o' = getOwn k o.
Proof.
  revert o. induction ks as [|kw ks IH]; simpl; intros o H nin; [congruence|].
  assert (k <> kw) as ne by (intros ->; apply nin; now left). assert (~ In k ks) as nin' by tauto.
  set (o1 := match get kw o with Undefined => set kw [] o | _ => o end) in H.
  assert (getOwn k o1 = getOwn k o) as E1
    by (unfold o1; destruct (get kw o); try reflexivity; now apply getOwn_set_ne).
  destruct (get kw o1) as [l| |]; try discriminate.
  destruct (Str.mem p l).
  - rewrite (IH _ H nin'). exact E1.
  - rewrite (IH _ H nin'), getOwn_set_ne by exact ne. exact E1.
Qed.

Lemma NoDup_addPath p ks o o' :
  addPath p ks o = Ok o' -> NoDup (keys o) -> NoDup (keys o').
Proof.
  revert o. induction ks as [|kw ks IH]; simpl; intros o H nd; [congruence|].
  set (o1 := match get kw o with Undefined => set kw [] o | _ => o end) in H.
  assert (NoDup (keys o1)) as nd1
    by (unfold o1; destruct (get kw o); try exact nd; now apply NoDup_set).
  destruct (get kw o1) as [l| |]; try discriminate.
  destruct (Str.mem p l); [now apply (IH o1) | apply (IH _ H); now apply NoDup_set].
Qed.

Lemma In_fold_setAdd x (l acc : list string) :
  In x (List.fold_left setAdd l acc) <-> In x acc \/ In x l.
Proof.
  revert acc. induction l as [|a l IH]; simpl; intros acc; [tauto|].
  rewrite IH. unfold setAdd. destruct (Str.mem a acc) eqn:E.
  - apply mem_In in E. split; [tauto | intros [H|[<-|H]]; auto].
  - rewrite in_app_iff. simpl. tauto.
Qed.

Lemma NoDup_fold_setAdd (l acc : list string) :
  NoDup acc -> NoDup (List.fold_left setAdd l acc).
Proof.
  revert acc. induction l as [|a l IH]; simpl; intros acc nd; [exact nd|].
  apply IH. unfold setAdd. destruct (Str.mem a acc) eqn:E; [exact nd|].
  apply NoDup_app; [exact nd | constructor; [tauto | constructor] |].
  intros x i [<-|[]]. apply mem_In in i. congruence.
Qed.

Lemma In_newSet x (l : list string) : In x (newSet l) <-> In x l.
Proof. unfold newSet. rewrite In_fold_setAdd. simpl. tauto. Qed.

End KeywordIndex.

(** ** Saving and loading module cards *)

Section CardStore.
Import JsObj JsObjFacts.

Lemma NoDup_files_loadIndex st : NoDup (keys (RepoctxIndex.files (loadIndex st))).
Proof.
  unfold loadIndex. destruct (indexFile st); simpl; [apply NoDup_parse | constructor].
Qed.

Lemma NoDup_keywordIndex_loadIndex st :
  NoDup (keys (RepoctxIndex.keywordIndex (loadIndex st))).
Proof.
  unfold loadIndex. destruct (indexFile st) as [d|]; simpl; [| constructor].
  destruct (IndexDoc.keywordIndex d); [apply NoDup_parse | constructor].
Qed.

Lemma saveFileCache_eq p d st :
  saveFileCache p d st
  = match addPath p (keywordsOf d) (removePath p (RepoctxIndex.keywordIndex (loadIndex st))) with
    | Ok kwi => (saveIndex (savedIndex p d st kwi) (writeFileCard (refFromPath p) d st), Ok tt)
    | Throw e => (writeFileCard (refFromPath p) d st, Throw e)
    end.
Proof.
  unfold saveFileCache, bind, read, write, lift. simpl.
  destruct (addPath _ _ _); reflexivity.
Qed.

Lemma saveFileCache_Ok p d st :
  snd (saveFileCache p d st) = Ok tt ->
  exists kwi,
    addPath p (keywordsOf d) (removePath p (RepoctxIndex.keywordIndex (loadIndex st))) = Ok kwi
    /\ fst (saveFileCache p d st)
       = saveIndex (savedIndex p d st kwi) (writeFileCard (refFromPath p) d st).
Proof.
  rewrite saveFileCache_eq. destruct (addPath _ _ _) as [kwi|e]; simpl; [| discriminate].
  intros _. exists kwi. split; reflexivity.
Qed.

(** After a save of [p] that returns, [p] is in no bucket outside its new keywords. *)
Lemma bucket_after_save p d st k l :
  snd (saveFileCache p d st) = Ok tt ->
  getOwn k (RepoctxIndex.keywordIndex (loadIndex (fst (saveFileCache p d st)))) = Some l ->
  In p l -> In k (keywordsOf d).
Proof.
  intros H G i. destruct (saveFileCache_Ok _ _ _ H) as [kwi [A E]].
  rewrite E in G. simpl in G.
  pose proof (NoDup_removePath p _ (NoDup_keywordIndex_loadIndex st)) as nd.
  rewrite getOwn_parse_stringify in G by exact (NoDup_addPath _ _ _ _ A nd).
  destruct (in_dec string_dec k (keywordsOf d)) as [yes|no]; [exact yes|].
  rewrite (getOwn_addPath_other _ _ _ _ _ A no), getOwn_removePath in G.
  exfalso. exact (without_not_In _ _ _ _ G i).
Qed.

(** [lookupByKeywords] of one keyword gives members of its own bucket. *)
Lemma lookup_one k st l p :
  lookupByKeywords [k] st = Ok l -> In p l ->
  exists b, getOwn k (RepoctxIndex.keywordIndex (loadIndex st)) = Some b /\ In p b.
Proof.
  unfold lookupByKeywords. simpl. unfold get.
  destruct (getOwn k _) as [b|].
  - intros [= <-]. simpl. rewrite In_fold_setAdd, In_newSet. simpl.
    intros [[]|i]. now exists b.
  - destruct (inherited k); [discriminate|]. intros [= <-]. simpl. tauto.
Qed.

Lemma lookup_one_returns k st :
  inherited k = false -> exists l, lookupByKeywords [k] st = Ok l.
Proof.
  intros H. unfold lookupByKeywords. simpl. unfold get. rewrite H.
  destruct (getOwn k _); eexists; reflexivity.
Qed.

(** A save returns when no keyword names a member of [Object.prototype]. *)
Lemma addPath_returns p ks o :
  (forall kw, In kw ks -> inherited kw = false) -> exists o', addPath p ks o = Ok o'.
Proof.
  revert o. induction ks as [|kw ks IH]; simpl; intros o H; [now eexists|].
  assert (inherited kw = false) as Hk by (apply H; now left).
  assert (forall o, exists o', addPath p ks o = Ok o') as IH'
    by (intros o0; apply IH; intros kw' i; apply H; now right).
  unfold get. destruct (getOwn kw o) as [l|] eqn:G.
  - rewrite G. destruct (Str.mem p l); apply IH'.
  - rewrite Hk.
    rewrite getOwn_set_eq by (left; intros ->; discriminate Hk).
    simpl. apply IH'.
Qed.

Lemma saveFileCache_returns p d st :
  (forall kw, In kw (keywordsOf d) -> inherited kw = false) ->
  snd (saveFileCache p d st) = Ok tt.
Proof.
  intros H. rewrite saveFileCache_eq.
  destruct (addPath_returns p _ (removePath p (RepoctxIndex.keywordIndex (loadIndex st))) H)
    as [o' ->].
  reflexivity.
Qed.

End CardStore.

(** Two saves that both return leave no stale keyword-index membership:
    when [saveFileCache] for a path [p] returns, and returns again for
    [p] with a new keyword set, then for every keyword [k] of the old set
    that is not in the new one, [lookupByKeywords [k]] does not contain
    [p]; that lookup returns for every keyword that is no member name of
    [Object.prototype]. *)
Theorem resave_leaves_no_stale_keyword
    (st : Store) (p : string) (d1 d2 : RepoctxFileCache.t) (k : string) :
  let st1 := fst (saveFileCache p d1 st) in
  let st2 := fst (saveFileCache p d2 st1) in
  snd (saveFileCache p d1 st) = Ok tt ->
  snd (saveFileCache p d2 st1) = Ok tt ->
  In k (keywordsOf d1) ->
  ~ In k (keywordsOf d2) ->
  (forall l, lookupByKeywords [k] st2 = Ok l -> ~ In p l)
  /\ (JsObj.inherited k = false -> exists l, lookupByKeywords [k] st2 = Ok l).
Proof.
  intros st1 st2 _ H2 _ new. split.
  - intros l L i. destruct (lookup_one _ _ _ _ L i) as [b [G ib]].
    apply new. exact (bucket_after_save _ _ _ _ _ H2 G ib).
  - apply lookup_one_returns.
Qed.

Example resaved_lookup :
  lookupByKeywords ["session"] resaved = Ok []
  /\ lookupByKeywords ["auth"] resaved = Ok ["src/auth.ts"]
  /\ lookupByKeywords ["session"]
       (fst (saveFileCache "src/auth.ts" (metaCard "src/auth.ts" ["auth"; "session"])
               emptyStore)) = Ok ["src/auth.ts"].
Proof. vm_compute. repeat split; reflexivity. Qed.

Lemma resave_leaves_no_stale_keyword_witness :
  (forall l, lookupByKeywords ["session"] resaved = Ok l -> ~ In "src/auth.ts" l)
  /\ (JsObj.inherited "session" = false ->
      exists l, lookupByKeywords ["session"] resaved = Ok l).
Proof.
  apply (resave_leaves_no_stale_keyword emptyStore "src/auth.ts"
           (metaCard "src/auth.ts" ["auth"; "session"])
           (metaCard "src/auth.ts" ["auth"]) "session").
  - vm_compute. reflexivity.
  - vm_compute. reflexivity.
  - simpl. auto.
  - simpl. intros [H|[]]. discriminate H.
Defined.

(** A keyword that names a member of [Object.prototype] makes the save throw
    after the card is written and before the index is. *)
Example save_inherited_keyword_throws :
  snd (saveFileCache "src/auth.ts" (metaCard "src/auth.ts" ["constructor"]) emptyStore)
  = Throw TypeError
  /\ lookupByKeywords ["toString"] emptyStore = Throw TypeError.
Proof. vm_compute. split; reflexivity. Qed.

(** C1.  A second save does not always clear the old keywords.
    [src/auth.ts] is saved with the keywords auth and session, and saved
    again with auth and constructor.  The keyword index is a plain
    object, so [idx.keywordIndex["constructor"]] reads the constructor
    every object inherits: the second call writes the new card, removes
    the path from the buckets in memory and throws [TypeError] in the
    loop that adds the new keywords, before [saveIndex].  The index on
    disk is the one of the first save: the card stored lists no keyword
    session, and [lookupByKeywords ["session"]] still contains the
    path. *)
Theorem failed_resave_leaves_a_stale_keyword :
  let p := "src/auth.ts" in
  let st1 := fst (saveFileCache p (metaCard p ["auth"; "session"]) emptyStore) in
  let second := saveFileCache p (metaCard p ["auth"; "constructor"]) st1 in
  snd (saveFileCache p (metaCard p ["auth"; "session"]) emptyStore) = Ok tt
  /\ snd second = Throw TypeError
  /\ loadFileCache p (fst second) = Some (metaCard p ["auth"; "constructor"])
  /\ indexFile (fst second) = indexFile st1
  /\ lookupByKeywords ["session"] (fst second) = Ok [p].
Proof. vm_compute. repeat split; reflexivity. Qed.

Section RoundTrip.
Import JsObj JsObjFacts.

(** The card store gives back the card it was given: [loadFileCache]
    right after a [saveFileCache] that returns.  The key [__proto__] is
    the exception: the assignment [idx.files["__proto__"] = ...] creates
    no property, so the path is not indexed. *)
Lemma load_after_save p d st :
  snd (saveFileCache p d st) = Ok tt ->
  p <> "__proto__" ->
  loadFileCache p (fst (saveFileCache p d st)) = Some d.
Proof.
  intros H ne. destruct (saveFileCache_Ok _ _ _ H) as [kwi [_ E]]. rewrite E.
  unfold loadFileCache. simpl. unfold get.
  rewrite getOwn_parse_stringify by (apply NoDup_set, NoDup_files_loadIndex).
  rewrite getOwn_set_eq by (now left). simpl.
  now rewrite lookup_insert_eq.
Qed.

Lemma saveManual_cases env a st :
  let rel := relOf env (SaveArgs.meta a) (SaveArgs.filePath a) in
  snd (saveManual env a st) = Ok rel ->
  exists hash card,
    (if SaveArgs.meta a then Ok "meta"
     else fileHash env (Path.resolve (cwd env) (SaveArgs.filePath a))) = Ok hash
    /\ RepoctxFileCache.hash card = hash
    /\ snd (saveFileCache rel card st) = Ok tt
    /\ fst (saveManual env a st) = fst (saveFileCache rel card st)
    /\ RepoctxFileCache.path card = rel
    /\ RepoctxFileCache.symbols card = SaveArgs.symbols a
    /\ RepoctxFileCache.keywords card = Some (SaveArgs.keywords a)
    /\ RepoctxFileCache.exports card = whenNonEmpty (SaveArgs.exports a)
    /\ RepoctxFileCache.dependencies card = whenNonEmpty (SaveArgs.dependencies a)
    /\ RepoctxFileCache.footguns card = whenTruthy (SaveArgs.footguns a)
    /\ RepoctxFileCache.delta card = whenTruthy (SaveArgs.delta a)
    /\ RepoctxFileCache.summary card
       = (let whereUsed := if SaveArgs.meta a then [] else findWhereUsed env rel in
          match whereUsed with
          | [] => SaveArgs.summary a
          | _ => SaveArgs.summary a +:+ nl +:+ "Used in: " +:+ Str.join ", " whereUsed
          end)
    /\ RepoctxFileCache.updatedAt card = now env
    /\ RepoctxFileCache.repoHeadAtSave card = whenTruthy (getGitHead env).
Proof.
  intros rel. unfold saveManual, bind, lift, ret. fold rel.
  destruct (if SaveArgs.meta a then _ else _) as [hash|e]; [| discriminate].
  match goal with |- context [saveFileCache rel ?c st] => set (card := c) end.
  destruct (saveFileCache rel card st) as [st' [[]|e]] eqn:E; [| discriminate].
  intros _. exists hash, card. rewrite E. repeat split; reflexivity.
Qed.

End RoundTrip.

(** The same at the command's level: after [saveManual] returns, the path
    saved is in the bucket of no keyword outside the keywords given,
    whatever the index held before. *)
Lemma saveManual_leaves_no_stale_keyword env a st k l :
  let rel := relOf env (SaveArgs.meta a) (SaveArgs.filePath a) in
  snd (saveManual env a st) = Ok rel ->
  ~ In k (SaveArgs.keywords a) ->
  lookupByKeywords [k] (fst (saveManual env a st)) = Ok l ->
  ~ In rel l.
Proof.
  intros rel H new L i.
  destruct (saveManual_cases env a st H)
    as (hash & card & _ & _ & S & F & _ & _ & K & _).
  fold rel in S, F. rewrite F in L.
  destruct (lookup_one _ _ _ _ L i) as [b [G ib]].
  apply new. pose proof (bucket_after_save _ _ _ _ _ S G ib) as M.
  unfold keywordsOf in M. now rewrite K in M.
Qed.

Example saveDal_loaded :
  snd (saveManual usersEnv saveDal emptyStore) = Ok "src/users/dal.js"
  /\ option_map RepoctxFileCache.summary
       (loadFileCache "src/users/dal.js" (fst (saveManual usersEnv saveDal emptyStore)))
     = Some ("MongoDB DAL for users." +:+ nl +:+ "Used in: ./src/users/service.js")
  /\ option_map RepoctxFileCache.hash
       (loadFileCache "src/users/dal.js" (fst (saveManual usersEnv saveDal emptyStore)))
     = Some "9b30651a59d5e15d1e8db2d87a9eaca13253a78e".
Proof. vm_compute. repeat split; reflexivity. Qed.

(** C2, as stated, fails: the card loaded right after [saveManual] does not
    have the summary of the input when the where-used scan found a file
    that mentions the module. *)
Lemma saveManual_load_not_verbatim :
  snd (saveManual usersEnv saveDal emptyStore) = Ok "src/users/dal.js"
  /\ ~ loadsVerbatim usersEnv saveDal
         (fst (saveManual usersEnv saveDal emptyStore)) "src/users/dal.js".
Proof.
  split; [vm_compute; reflexivity|].
  intros [card [L [S _]]].
  vm_compute in L. injection L as <-. vm_compute in S. discriminate S.
Qed.

(** C2, amended.  For every module card saved via [saveManual] (a call
    that returns, for a path other than [__proto__]), [loadFileCache] of
    the returned path right after it returns a card with the symbols and
    keywords of the input; with the exports, dependencies, footguns and
    delta of the input when these are non-empty, and without them
    otherwise; with the summary of the input, followed by a line
    "Used in: ..." when the where-used scan found files; and with
    save-time fields that are consistent: the path is the canonical path,
    [updatedAt] is the time of the save, and the hash is "meta" for a
    virtual entry and otherwise the SHA-1 of the bytes read from the file. *)
Theorem saveManual_then_load (env : Env) (a : SaveArgs.t) (st : Store) :
  let rel := relOf env (SaveArgs.meta a) (SaveArgs.filePath a) in
  snd (saveManual env a st) = Ok rel ->
  rel <> "__proto__" ->
  exists card,
    loadFileCache rel (fst (saveManual env a st)) = Some card
    /\ RepoctxFileCache.path card = rel
    /\ RepoctxFileCache.symbols card = SaveArgs.symbols a
    /\ RepoctxFileCache.keywords card = Some (SaveArgs.keywords a)
    /\ RepoctxFileCache.exports card = whenNonEmpty (SaveArgs.exports a)
    /\ RepoctxFileCache.dependencies card = whenNonEmpty (SaveArgs.dependencies a)
    /\ RepoctxFileCache.footguns card = whenTruthy (SaveArgs.footguns a)
    /\ RepoctxFileCache.delta card = whenTruthy (SaveArgs.delta a)
    /\ RepoctxFileCache.summary card
       = (let whereUsed := if SaveArgs.meta a then [] else findWhereUsed env rel in
          match whereUsed with
          | [] => SaveArgs.summary a
          | _ => SaveArgs.summary a +:+ nl +:+ "Used in: " +:+ Str.join ", " whereUsed
          end)
    /\ RepoctxFileCache.updatedAt card = now env
    /\ (if SaveArgs.meta a then RepoctxFileCache.hash card = "meta"
        else exists bytes,
            readFile env (Path.resolve (cwd env) (SaveArgs.filePath a)) = Some bytes
            /\ RepoctxFileCache.hash card = Sha1.hex bytes).
Proof.
  intros rel H ne.
  destruct (saveManual_cases env a st H)
    as (hash & card & Hh & Eh & S & F & P & Sy & K & Ex & D & Fg & Dl & Su & U & _).
  fold rel in S, F, P, Su. exists card. rewrite F.
  split; [now apply load_after_save|].
  repeat (split; [assumption|]).
  destruct (SaveArgs.meta a).
  - injection Hh as <-. exact Eh.
  - unfold fileHash in Hh.
    destruct (readFile env _) as [bytes|]; [| discriminate].
    injection Hh as <-. exists bytes. split; [reflexivity | exact Eh].
Qed.

Lemma saveManual_then_load_witness :
  exists card,
    loadFileCache "src/users/dal.js" (fst (saveManual usersEnv saveDal emptyStore)) = Some card
    /\ RepoctxFileCache.summary card
       = "MongoDB DAL for users." +:+ nl +:+ "Used in: ./src/users/service.js"
    /\ RepoctxFileCache.hash card = Sha1.hex "export const getUser = 1;".
Proof.
  destruct (saveManual_then_load usersEnv saveDal emptyStore)
    as (card & L & _ & _ & _ & _ & _ & _ & _ & S & _ & Hh).
  - vm_compute. reflexivity.
  - vm_compute. discriminate.
  - exists card. split; [exact L|]. split; [exact S|].
    destruct Hh as [bytes [R E]]. vm_compute in R. injection R as <-. exact E.
Defined.

(** ** Staleness *)

Lemma fold_left_push {A B} (f : A -> list B) (l : list A) (init : list B) :
  List.fold_left (fun acc x => acc ++ f x) l init = init ++ List.flat_map f l.
Proof.
  revert init. induction l as [|a l IH]; simpl; intros init.
  - now rewrite app_nil_r.
  - now rewrite IH, app_assoc.
Qed.

Lemma fold_left_ext {A B} (f g : B -> A -> B) (l : list A) (init : B) :
  (forall acc x, f acc x = g acc x) -> List.fold_left f l init = List.fold_left g l init.
Proof.
  intros E. revert init. induction l as [|a l IH]; simpl; intros init; [reflexivity|].
  now rewrite E, IH.
Qed.

Lemma stalenessLines_classify env rel card :
  stalenessLines env rel card = annotation (classify env rel card).
Proof.
  unfold stalenessLines, classify, fileHash.
  destruct (String.eqb (RepoctxFileCache.hash card) "meta"); simpl; [reflexivity|].
  destruct (readFile env _) as [bytes|]; [| reflexivity].
  destruct (String.eqb (Sha1.hex bytes) _); reflexivity.
Qed.

Lemma staleStep_classify env st stale rel :
  staleStep env st stale rel
  = stale ++ match loadFileCache rel st with
             | None => []
             | Some card => staleReport rel (classify env rel card)
             end.
Proof.
  unfold staleStep, classify, fileHash.
  destruct (loadFileCache rel st) as [card|]; [| now rewrite app_nil_r].
  destruct (String.eqb (RepoctxFileCache.hash card) "meta"); [now rewrite app_nil_r|].
  destruct (readFile env _) as [bytes|]; [| reflexivity].
  destruct (String.eqb (Sha1.hex bytes) _); simpl; [now rewrite app_nil_r | reflexivity].
Qed.

(** C3.  Staleness classification is a total three-way function.  A card
    whose stored hash is the sentinel "meta" is [Fresh] whatever the
    file system holds.  Otherwise the file at the card's path is re-read
    and re-hashed: an equal hash is [Fresh], an unequal hash is [Stale]
    ("file content changed") and a failed read is [Missing] ("file not
    found").  [getStale] lists, path by path of the index, what the
    classification of that path's card reports, and [getContext]
    annotates each module block with it: the classification of one card
    never aborts the rest of a listing.  The path of a card is the key it
    is stored under, which is the [path] field of a card [saveManual]
    saved. *)
Theorem staleness_is_three_way (env : Env) (st : Store) :
  (forall env' rel card,
      RepoctxFileCache.hash card = "meta" -> classify env' rel card = Fresh)
  /\ (forall rel card,
         RepoctxFileCache.hash card <> "meta" ->
         readFile env (Path.resolve (cwd env) rel) = None ->
         classify env rel card = Missing)
  /\ (forall rel card bytes,
         RepoctxFileCache.hash card <> "meta" ->
         readFile env (Path.resolve (cwd env) rel) = Some bytes ->
         classify env rel card
         = if String.eqb (Sha1.hex bytes) (RepoctxFileCache.hash card) then Fresh else Stale)
  /\ getStale env st
     = List.flat_map
         (fun rel => match loadFileCache rel st with
                     | None => []
                     | Some card => staleReport rel (classify env rel card)
                     end)
         (JsObj.keys (RepoctxIndex.files (loadIndex st)))
  /\ (forall rel card, stalenessLines env rel card = annotation (classify env rel card))
  /\ (forall a,
         let rel := relOf env (SaveArgs.meta a) (SaveArgs.filePath a) in
         snd (saveManual env a st) = Ok rel ->
         rel <> "__proto__" ->
         option_map RepoctxFileCache.path (loadFileCache rel (fst (saveManual env a st)))
         = Some rel).
Proof.
  repeat split.
  - intros env' rel card H. unfold classify. now rewrite H.
  - intros rel card H R. unfold classify. rewrite R.
    destruct (String.eqb_spec (RepoctxFileCache.hash card) "meta"); [contradiction | reflexivity].
  - intros rel card bytes H R. unfold classify. rewrite R.
    destruct (String.eqb_spec (RepoctxFileCache.hash card) "meta"); [contradiction | reflexivity].
  - unfold getStale.
    rewrite (fold_left_ext _ _ _ _ (staleStep_classify env st)).
    now rewrite fold_left_push.
  - apply stalenessLines_classify.
  - intros a rel H ne.
    destruct (saveManual_cases env a st H) as (hash & card & _ & _ & S & F & P & _).
    fold rel in S, F, P. rewrite F, (load_after_save _ _ _ S ne). simpl. now rewrite P.
Qed.

Example staleness_round_trip :
  let st := fst (saveManual usersEnv saveDal emptyStore) in
  getStale usersEnv st = []
  /\ getStale (withFile usersEnv "/repo/src/users/dal.js" (Some "export const getUser = 2;")) st
     = [{| StaleEntry.path := "src/users/dal.js"; StaleEntry.reason := "file content changed" |}]
  /\ getStale (withFile usersEnv "/repo/src/users/dal.js" None) st
     = [{| StaleEntry.path := "src/users/dal.js"; StaleEntry.reason := "file not found" |}].
Proof. vm_compute. repeat split; reflexivity. Qed.

(** ** Listings *)

Lemma loadAllSymbols_flat_map st :
  loadAllSymbols st
  = List.flat_map (readableSymbol st)
      (JsObj.values (SymbolsIndex.symbols (loadSymbolsIndex st))).
Proof.
  unfold loadAllSymbols.
  rewrite (fold_left_ext _ (fun acc fname => acc ++ readableSymbol st fname)).
  - now rewrite fold_left_push.
  - intros acc fname. unfold readableSymbol.
    destruct (symbolsDir st !! fname) as [[card|]|]; now rewrite ?app_nil_r.
Qed.

Lemma moduleStep_moduleLines env st relFilter lines rel :
  moduleStep env st relFilter lines rel = lines ++ moduleLines env st relFilter rel.
Proof.
  unfold moduleStep, moduleLines.
  destruct (filteredOut relFilter rel); [now rewrite app_nil_r|].
  destruct (loadFileCache rel st); [reflexivity | now rewrite app_nil_r].
Qed.

Lemma symbol_lines (symbolsToShow : list SymbolCard.t) (lines : list string) :
  match symbolsToShow with
  | [] => lines
  | _ => List.fold_left (fun lines s => lines ++ symbolBlock s) symbolsToShow
           (lines ++ [symbolsHeader])
  end = lines ++ symbolSection symbolsToShow.
Proof.
  destruct symbolsToShow as [|s l]; [now rewrite app_nil_r|].
  rewrite fold_left_push. unfold symbolSection. now rewrite <- app_assoc.
Qed.

Section Listing.
Variable toLowerCase : string -> string.

(** The text [getContext] returns when it is not asked for one symbol. *)
Lemma getContext_listing env q st :
  whenTruthy (Query.symbol q) = None ->
  getContext toLowerCase env q st
  = match keywordsGiven q with
    | Some keywords =>
        match lookupByKeywords keywords st with
        | Ok paths =>
            Ok (Str.join nl
                  (List.flat_map (moduleLines env st (relFilterOf env q)) paths
                   ++ symbolSection
                        (List.filter (symbolTagged keywords) (loadAllSymbols st))))
        | Throw e => Throw e
        end
    | None =>
        Ok (Str.join nl
              (List.flat_map (moduleLines env st (relFilterOf env q))
                 (JsObj.keys (RepoctxIndex.files (loadIndex st)))
               ++ symbolSection (loadAllSymbols st)))
    end.
Proof.
  intros H. unfold getContext. rewrite H. fold (relFilterOf env q).
  destruct (keywordsGiven q) as [keywords|].
  - destruct (lookupByKeywords keywords st) as [paths|e]; [| reflexivity].
    rewrite symbol_lines.
    rewrite (fold_left_ext _ _ _ _ (moduleStep_moduleLines env st (relFilterOf env q))).
    now rewrite fold_left_push.
  - rewrite symbol_lines.
    rewrite (fold_left_ext _ _ _ _ (moduleStep_moduleLines env st (relFilterOf env q))).
    now rewrite fold_left_push.
Qed.

End Listing.

Lemma readableSymbol_corrupt fname st f :
  readableSymbol (corruptSymbolRecord fname st) f
  = if String.eqb f fname then [] else readableSymbol st f.
Proof.
  unfold readableSymbol, corruptSymbolRecord. simpl.
  destruct (String.eqb_spec f fname) as [->|ne].
  - now rewrite lookup_insert_eq.
  - rewrite lookup_insert_ne by congruence. reflexivity.
Qed.

Lemma loadFileCache_corrupt ref rel st :
  loadFileCache rel (corruptFileRecord ref st)
  = match JsObj.getOwn rel (RepoctxIndex.files (loadIndex st)) with
    | Some entry =>
        if String.eqb (FileEntry.ref entry) ref then None else loadFileCache rel st
    | None => None
    end.
Proof.
  unfold loadFileCache, JsObj.get.
  change (loadIndex (corruptFileRecord ref st)) with (loadIndex st).
  destruct (JsObj.getOwn rel _) as [entry|].
  - simpl. destruct (String.eqb_spec (FileEntry.ref entry) ref) as [->|ne].
    + now rewrite lookup_insert_eq.
    + rewrite lookup_insert_ne by congruence. reflexivity.
  - destruct (JsObj.inherited rel); reflexivity.
Qed.

(** On a root whose record files hold cards when they parse, a record
    that cannot be read or does not parse is omitted from every listing
    and load: [loadFileCache] gives null for it; [loadAllSymbols],
    [getStale] and the listing of [getContext] are the concatenation,
    entry by entry of the index, of what each readable record
    contributes; overwriting one record with garbage removes that
    record's contribution and nothing else; and the listing of
    [getContext] returns a text whenever the keyword lookup, if there is
    one, returns. *)
Theorem unreadable_records_are_omitted
    (toLowerCase : string -> string) (env : Env) (st : Store) :
  (forall rel entry,
      JsObj.getOwn rel (RepoctxIndex.files (loadIndex st)) = Some entry ->
      (forall card, filesDir st !! FileEntry.ref entry <> Some (Json card)) ->
      loadFileCache rel st = None)
  /\ (forall ref rel,
         loadFileCache rel (corruptFileRecord ref st)
         = match JsObj.getOwn rel (RepoctxIndex.files (loadIndex st)) with
           | Some entry =>
               if String.eqb (FileEntry.ref entry) ref then None else loadFileCache rel st
           | None => None
           end)
  /\ loadAllSymbols st
     = List.flat_map (readableSymbol st)
         (JsObj.values (SymbolsIndex.symbols (loadSymbolsIndex st)))
  /\ (forall fname,
         loadAllSymbols (corruptSymbolRecord fname st)
         = List.flat_map (fun f => if String.eqb f fname then [] else readableSymbol st f)
             (JsObj.values (SymbolsIndex.symbols (loadSymbolsIndex st))))
  /\ getStale env st
     = List.flat_map
         (fun rel => match loadFileCache rel st with
                     | None => []
                     | Some card => staleReport rel (classify env rel card)
                     end)
         (JsObj.keys (RepoctxIndex.files (loadIndex st)))
  /\ (forall q,
         whenTruthy (Query.symbol q) = None ->
         keywordsGiven q = None ->
         getContext toLowerCase env q st
         = Ok (Str.join nl
                 (List.flat_map (moduleLines env st (relFilterOf env q))
                    (JsObj.keys (RepoctxIndex.files (loadIndex st)))
                  ++ symbolSection (loadAllSymbols st))))
  /\ (forall q keywords paths,
         whenTruthy (Query.symbol q) = None ->
         keywordsGiven q = Some keywords ->
         lookupByKeywords keywords st = Ok paths ->
         getContext toLowerCase env q st
         = Ok (Str.join nl
                 (List.flat_map (moduleLines env st (relFilterOf env q)) paths
                  ++ symbolSection
                       (List.filter (symbolTagged keywords) (loadAllSymbols st))))).
Proof.
  repeat split.
  - intros rel entry G H. unfold loadFileCache, JsObj.get. rewrite G.
    destruct (filesDir st !! FileEntry.ref entry) as [[card|]|] eqn:E; try reflexivity.
    exfalso. exact (H card eq_refl).
  - intros ref rel. apply loadFileCache_corrupt.
  - apply loadAllSymbols_flat_map.
  - intros fname. rewrite loadAllSymbols_flat_map.
    change (loadSymbolsIndex (corruptSymbolRecord fname st)) with (loadSymbolsIndex st).
    apply flat_map_ext. intros f. apply readableSymbol_corrupt.
  - unfold getStale.
    rewrite (fold_left_ext _ _ _ _ (staleStep_classify env st)).
    now rewrite fold_left_push.
  - intros q S K. rewrite getContext_listing by exact S. now rewrite K.
  - intros q keywords paths S K L. rewrite getContext_listing by exact S.
    now rewrite K, L.
Qed.

Example corrupt_symbol_is_skipped :
  List.map SymbolCard.symbol (loadAllSymbols twoSymbols) = ["FooBar"; "getUser"]
  /\ List.map SymbolCard.symbol
       (loadAllSymbols (corruptSymbolRecord (refFromPath "symbol:FooBar") twoSymbols))
     = ["getUser"].
Proof. vm_compute. split; reflexivity. Qed.

(** ** Records that hold no card *)

Section RawRecords.




(** What one record of [.repoctx/symbols] contributes to [loadAllSymbols]. *)
Lemma raw_loadAllSymbols_flat_map st :
  Raw.loadAllSymbols st
  = List.flat_map (parsedSymbol st)
      (JsObj.values (SymbolsIndex.symbols (loadSymbolsIndex (Raw.documents st)))).
Proof.
  unfold Raw.loadAllSymbols.
  rewrite (fold_left_ext _ (fun acc fname => acc ++ parsedSymbol st fname)).
  - now rewrite fold_left_push.
  - intros acc fname. unfold parsedSymbol.
    destruct (Raw.symbolsDir st !! fname) as [[r|]|]; now rewrite ?app_nil_r.
Qed.






Variable toLowerCase : string -> string.






End RawRecords.

(** ** Roots whose records are cards *)

Section Untyped.

Lemma forEach_Ok {A B} (f : B -> A -> result B) (g : B -> A -> B) (l : list A) (acc : B) :
  (forall acc x, f acc x = Ok (g acc x)) -> forEach f l acc = Ok (List.fold_left g l acc).
Proof.
  intros H. revert acc. induction l as [|x l IH]; intros acc; simpl; [reflexivity|].
  rewrite H. apply IH.
Qed.

Lemma loadFileCache_untyped rel st :
  Raw.loadFileCache rel (untyped st)
  = match loadFileCache rel st with
    | Some card => Card card
    | None => NoCard FNull
    end.
Proof.
  unfold Raw.loadFileCache, loadFileCache.
  change (loadIndex (Raw.documents (untyped st))) with (loadIndex st).
  destruct (JsObj.get rel _) as [entry| |]; try reflexivity. simpl.
  rewrite lookup_fmap.
  destruct (filesDir st !! FileEntry.ref entry) as [[card|]|]; reflexivity.
Qed.

Lemma loadAllSymbols_untyped st :
  Raw.loadAllSymbols (untyped st) = List.map Card (loadAllSymbols st).
Proof.
  rewrite raw_loadAllSymbols_flat_map, loadAllSymbols_flat_map.
  change (loadSymbolsIndex (Raw.documents (untyped st))) with (loadSymbolsIndex st).
  induction (JsObj.values _) as [|fname l IH]; simpl; [reflexivity|].
  rewrite map_app, IH. f_equal.
  unfold parsedSymbol, readableSymbol. simpl. rewrite lookup_fmap.
  destruct (symbolsDir st !! fname) as [[card|]|]; reflexivity.
Qed.

Lemma getStale_untyped env st : Raw.getStale env (untyped st) = getStale env st.
Proof.
  unfold Raw.getStale, getStale.
  change (loadIndex (Raw.documents (untyped st))) with (loadIndex st).
  apply fold_left_ext. intros stale rel. unfold Raw.staleStep, staleStep.
  rewrite loadFileCache_untyped. destruct (loadFileCache rel st); reflexivity.
Qed.

Variable toLowerCase : string -> string.

Lemma findSymbol_cards symbol (l : list SymbolCard.t) :
  Raw.findSymbol toLowerCase symbol (List.map Card l) = Ok (findSymbol toLowerCase symbol l).
Proof.
  unfold findSymbol. induction l as [|s l IH]; simpl; [reflexivity|].
  destruct (String.eqb _ _); [reflexivity | exact IH].
Qed.

Lemma filterOrThrow_cards keywords (l : list SymbolCard.t) :
  filterOrThrow (Raw.tagged keywords) (List.map Card l)
  = Ok (List.map Card (List.filter (symbolTagged keywords) l)).
Proof.
  induction l as [|s l IH]; simpl; [reflexivity|].
  rewrite IH. destruct (symbolTagged keywords s); reflexivity.
Qed.

Lemma symbolLines_cards (l : list SymbolCard.t) (lines : list string) :
  match List.map Card l with
  | [] => Ok lines
  | _ => forEach (fun lines s => match Raw.symbolLines s with
                                 | Ok block => Ok (lines ++ block)
                                 | Throw e => Throw e
                                 end)
           (List.map Card l) (lines ++ [symbolsHeader])
  end
  = Ok match l with
       | [] => lines
       | _ => List.fold_left (fun lines s => lines ++ symbolBlock s) l
                (lines ++ [symbolsHeader])
       end.
Proof.
  assert (forall (l : list SymbolCard.t) acc,
            forEach (fun lines s => match Raw.symbolLines s with
                                    | Ok block => Ok (lines ++ block)
                                    | Throw e => Throw e
                                    end) (List.map Card l) acc
            = Ok (List.fold_left (fun lines s => lines ++ symbolBlock s) l acc)) as H.
  { clear. induction l as [|s l IH]; intros acc; simpl; [reflexivity | apply IH]. }
  destruct l as [|s0 l]; [reflexivity|]. apply (H (s0 :: l)).
Qed.

(** On a root whose records are cards the two readings of [getContext]
    and of [getStale] agree. *)
Lemma getContext_untyped env q st :
  Raw.getContext toLowerCase env q (untyped st) = getContext toLowerCase env q st.
Proof.
  unfold Raw.getContext, getContext. rewrite loadAllSymbols_untyped.
  change (loadIndex (Raw.documents (untyped st))) with (loadIndex st).
  destruct (whenTruthy (Query.symbol q)) as [symbol|].
  - rewrite findSymbol_cards. destruct (findSymbol _ _ _); reflexivity.
  - assert (forall relFilter paths,
              forEach (Raw.moduleStep env (untyped st) relFilter) paths []
              = Ok (List.fold_left (moduleStep env st relFilter) paths [])) as M.
    { intros relFilter paths. apply forEach_Ok. intros lines rel.
      unfold Raw.moduleStep, moduleStep.
      destruct (filteredOut relFilter rel); [reflexivity|].
      rewrite loadFileCache_untyped. destruct (loadFileCache rel st); reflexivity. }
    destruct (keywordsGiven q) as [keywords|].
    + change (lookupByKeywords keywords (Raw.documents (untyped st)))
        with (lookupByKeywords keywords st).
      destruct (lookupByKeywords keywords st) as [paths|e]; [| reflexivity].
      rewrite M, filterOrThrow_cards, symbolLines_cards. reflexivity.
    + rewrite M, symbolLines_cards. reflexivity.
Qed.

End Untyped.



(** ** Queries by keyword *)

Section KeywordQuery.
Import JsObj JsObjFacts.

Lemma In_union p (sets : list (list string)) (acc : list string) :
  In p (List.fold_left (fun union s => List.fold_left setAdd s union) sets acc)
  <-> In p acc \/ exists s, In s sets /\ In p s.
Proof.
  revert acc. induction sets as [|s sets IH]; simpl; intros acc.
  - split; [tauto | intros [H|[s [[] _]]]; exact H].
  - rewrite IH, In_fold_setAdd. split.
    + intros [[H|H]|[s' [i j]]]; [tauto | right; exists s; tauto | right; exists s'; tauto].
    + intros [H|[s' [[<-|i] j]]]; [tauto | tauto | right; exists s'; tauto].
Qed.

Lemma NoDup_union (sets : list (list string)) (acc : list string) :
  NoDup acc ->
  NoDup (List.fold_left (fun union s => List.fold_left setAdd s union) sets acc).
Proof.
  revert acc. induction sets as [|s sets IH]; simpl; intros acc nd; [exact nd|].
  apply IH. now apply NoDup_fold_setAdd.
Qed.

Lemma keywordSets_Ok kwi ks sets :
  keywordSets kwi ks = Ok sets ->
  forall s, In s sets <->
            exists k, In k ks /\ s = newSet (match getOwn k kwi with Some l => l | None => [] end).
Proof.
  revert sets. induction ks as [|k ks IH]; simpl; intros sets H s.
  - injection H as <-. simpl. split; [tauto | intros [k [[] _]]].
  - unfold get in H. destruct (getOwn k kwi) as [l|] eqn:G.
    + destruct (keywordSets kwi ks) as [sets'|]; [| discriminate].
      injection H as <-. simpl. rewrite (IH sets' eq_refl). split.
      * intros [<-|[k' [i e]]]; [exists k; rewrite G; tauto | exists k'; tauto].
      * intros [k' [[<-|i] e]]; [left; rewrite G in e; now symmetry | right; exists k'; tauto].
    + destruct (inherited k); [discriminate|].
      destruct (keywordSets kwi ks) as [sets'|]; [| discriminate].
      injection H as <-. simpl. rewrite (IH sets' eq_refl). split.
      * intros [<-|[k' [i e]]]; [exists k; rewrite G; tauto | exists k'; tauto].
      * intros [k' [[<-|i] e]]; [left; rewrite G in e; now symmetry | right; exists k'; tauto].
Qed.

Lemma keywordSets_returns kwi ks :
  (forall k, In k ks -> get k kwi <> Inherited) -> exists sets, keywordSets kwi ks = Ok sets.
Proof.
  induction ks as [|k ks IH]; simpl; intros H; [eexists; reflexivity|].
  destruct IH as [sets E]; [intros k' i; apply H; now right|].
  rewrite E. pose proof (H k (or_introl eq_refl)) as ne.
  destruct (get k kwi); [eexists; reflexivity | contradiction | eexists; reflexivity].
Qed.

(** OR semantics: the union of the buckets of the keywords, each path once. *)
Lemma lookupByKeywords_union ks st paths :
  lookupByKeywords ks st = Ok paths ->
  NoDup paths
  /\ forall p, In p paths <->
               exists k b, In k ks
                           /\ getOwn k (RepoctxIndex.keywordIndex (loadIndex st)) = Some b
                           /\ In p b.
Proof.
  unfold lookupByKeywords.
  destruct (keywordSets _ ks) as [sets|] eqn:E; [| discriminate].
  intros [= <-]. split; [apply NoDup_union; constructor|].
  intros p. rewrite In_union. simpl. split.
  - intros [[]|[s [i j]]]. apply (keywordSets_Ok _ _ _ E) in i.
    destruct i as [k [ik ->]]. rewrite In_newSet in j.
    destruct (getOwn k _) as [b|] eqn:G; [| destruct j].
    exists k, b. repeat split; auto.
  - intros [k [b [ik [G ib]]]]. right.
    exists (newSet b). split; [| now apply In_newSet].
    apply (keywordSets_Ok _ _ _ E). exists k. now rewrite G.
Qed.

Lemma lookupByKeywords_returns ks st :
  (forall k, In k ks -> get k (RepoctxIndex.keywordIndex (loadIndex st)) <> Inherited) ->
  exists paths, lookupByKeywords ks st = Ok paths.
Proof.
  intros H. unfold lookupByKeywords.
  destruct (keywordSets_returns _ _ H) as [sets ->]. eexists; reflexivity.
Qed.

Lemma symbolTagged_iff keywords s :
  symbolTagged keywords s = true
  <-> exists k ks, In k keywords /\ SymbolCard.keywords s = Some ks /\ In k ks.
Proof.
  unfold symbolTagged. rewrite existsb_exists. split.
  - intros [k [i H]]. destruct (SymbolCard.keywords s) as [ks|]; [| discriminate].
    exists k, ks. rewrite mem_In in H. tauto.
  - intros [k [ks [i [E j]]]]. exists k. rewrite E, mem_In. tauto.
Qed.

End KeywordQuery.

(** A query by keyword set (a non-empty keyword list and no symbol
    name) whose keyword lookup returns: the candidate module paths are
    resolved through the keyword index with OR semantics
    ([lookupByKeywords]: the union of the buckets, each path once), and
    the symbol cards listed are those whose own keywords and the
    requested ones have a keyword in common, whatever the keywords of the
    module that owns them.  When the lookup throws, so does the query. *)
Theorem keyword_query_filters_symbols_independently
    (toLowerCase : string -> string) (env : Env) (st : Store) (q : Query.t)
    (keywords : list string) :
  whenTruthy (Query.symbol q) = None ->
  keywordsGiven q = Some keywords ->
  getContext toLowerCase env q st
  = match lookupByKeywords keywords st with
    | Ok paths =>
        Ok (Str.join nl
              (List.flat_map (moduleLines env st (relFilterOf env q)) paths
               ++ symbolSection (List.filter (symbolTagged keywords) (loadAllSymbols st))))
    | Throw e => Throw e
    end
  /\ (forall paths,
         lookupByKeywords keywords st = Ok paths ->
         NoDup paths
         /\ forall p, In p paths <->
                      exists k b, In k keywords
                        /\ JsObj.getOwn k (RepoctxIndex.keywordIndex (loadIndex st)) = Some b
                        /\ In p b)
  /\ ((forall k, In k keywords ->
                 JsObj.get k (RepoctxIndex.keywordIndex (loadIndex st)) <> JsObj.Inherited) ->
      exists paths, lookupByKeywords keywords st = Ok paths)
  /\ (forall s,
         In s (List.filter (symbolTagged keywords) (loadAllSymbols st))
         <-> In s (loadAllSymbols st)
             /\ exists k ks, In k keywords /\ SymbolCard.keywords s = Some ks /\ In k ks)
  /\ (forall st',
         symbolsIndexFile st' = symbolsIndexFile st ->
         symbolsDir st' = symbolsDir st ->
         List.filter (symbolTagged keywords) (loadAllSymbols st')
         = List.filter (symbolTagged keywords) (loadAllSymbols st)).
Proof.
  intros S K. repeat split.
  - rewrite getContext_listing by exact S. now rewrite K.
  - now apply (lookupByKeywords_union keywords st).
  - now apply (lookupByKeywords_union keywords st).
  - now apply (lookupByKeywords_union keywords st).
  - apply lookupByKeywords_returns.
  - rewrite filter_In in H. tauto.
  - rewrite filter_In, symbolTagged_iff in H. tauto.
  - intros [i H]. rewrite filter_In, symbolTagged_iff. tauto.
  - intros st' E1 E2. unfold loadAllSymbols, loadSymbolsIndex. now rewrite E1, E2.
Qed.

(** The module is tagged [dal] and [users], its symbol [login] is tagged
    [auth]: a query for [auth] shows the symbol and not the module, a
    query for [users] the module and not the symbol. *)
Lemma keyword_query_filters_symbols_independently_witness :
  getContext Str.asciiLower usersEnv (byKeywords ["auth"]) demoStore
  = Ok (Str.join nl
          [symbolsHeader; "[symbol: login] (function) src/users/dal.js";
           "  Reads one user"; EmptyString]).
Proof.
  destruct (keyword_query_filters_symbols_independently Str.asciiLower usersEnv demoStore
              (byKeywords ["auth"]) ["auth"]) as [E _].
  - reflexivity.
  - reflexivity.
  - rewrite E. vm_compute. reflexivity.
Defined.

(** C4.  Not every query by keyword set lists the symbol cards that share
    a keyword with it.  Two symbol cards are tagged constructor.  The
    query for the keyword constructor resolves the module paths first:
    [lookupByKeywords] reads [idx.keywordIndex["constructor"]], which on
    a plain object is the constructor every object inherits, and
    [new Set] of it throws [TypeError].  [getContext] ends there, also
    when the query names a second keyword: neither card is in a result,
    though the keywords of both intersect the keywords requested. *)
Theorem inherited_keyword_query_lists_no_symbol :
  List.map SymbolCard.symbol
    (List.filter (symbolTagged ["constructor"]) (loadAllSymbols taggedConstructor))
  = ["Widget"; "login"]
  /\ lookupByKeywords ["constructor"] taggedConstructor = Throw TypeError
  /\ getContext Str.asciiLower usersEnv (byKeywords ["constructor"]) taggedConstructor
     = Throw TypeError
  /\ getContext Str.asciiLower usersEnv (byKeywords ["auth"; "constructor"]) taggedConstructor
     = Throw TypeError
  /\ getContext Str.asciiLower usersEnv (byKeywords ["auth"]) taggedConstructor
     = Ok (Str.join nl
             [symbolsHeader; "[symbol: login] (function) src/users/dal.js";
              "  Reads one user"; EmptyString]).
Proof. vm_compute. repeat split; reflexivity. Qed.

Example keyword_query_users :
  getContext Str.asciiLower usersEnv (byKeywords ["users"; "billing"]) demoStore
  = Ok (Str.join nl
          ["[src/users/dal.js]";
           "MongoDB DAL for users." +:+ nl +:+ "Used in: ./src/users/service.js";
           "Symbols: getUser"; "Keywords: dal, users"; EmptyString]).
Proof. vm_compute. reflexivity. Qed.

(** ** Queries by path *)

Section PathFacts.

Lemma normalize_plain (m acc : list string) :
  List.forallb plain m = true -> Path.normalize m acc = List.rev acc ++ m.
Proof.
  revert acc. induction m as [|s m IH]; simpl; intros acc H.
  - now rewrite app_nil_r.
  - apply andb_true_iff in H as [Hs Hm]. unfold plain in Hs.
    apply andb_true_iff in Hs as [H1 H2].
    apply negb_true_iff in H1, H2. rewrite H1, H2.
    rewrite (IH _ Hm). simpl. now rewrite <- app_assoc.
Qed.

Lemma normalize_app_plain (l m acc : list string) :
  List.forallb plain m = true ->
  Path.normalize (l ++ m) acc = Path.normalize l acc ++ m.
Proof.
  intros H. revert acc. induction l as [|s l IH]; simpl; intros acc.
  - now apply normalize_plain.
  - destruct (String.eqb s "."); [apply IH|].
    destruct (String.eqb s ".."); apply IH.
Qed.

Lemma dropCommon_app (l m : list string) : Path.dropCommon l (l ++ m) = ([], m).
Proof.
  induction l as [|s l IH]; simpl; [now destruct m|].
  now rewrite String.eqb_refl.
Qed.

(** A relative path in normal form is its own canonical form, in every
    working directory. *)
Lemma relative_plain (cwd f : string) :
  Path.isAbsolute f = false ->
  List.forallb plain (Path.segments f) = true ->
  Str.join "/" (Path.segments f) = f ->
  Path.relative cwd f = f.
Proof.
  intros A P J. unfold Path.relative, Path.resolveSegs. rewrite A. simpl.
  rewrite app_nil_r, (normalize_app_plain _ _ _ P), dropCommon_app. simpl. exact J.
Qed.

End PathFacts.

Lemma passes_iff relFilter rel :
  passes relFilter rel = true
  <-> relFilter = EmptyString \/ relFilter = "." \/ rel = relFilter
      \/ Str.startsWith rel (relFilter +:+ "/") = true.
Proof.
  unfold passes, filteredOut, whenTruthy, Str.truthy.
  destruct (String.eqb_spec relFilter EmptyString) as [->|ne]; simpl.
  { split; [intros _; left; reflexivity | reflexivity]. }
  rewrite (proj2 (String.eqb_neq _ _) ne). simpl.
  destruct (String.eqb_spec relFilter ".") as [->|nd]; simpl.
  { split; [intros _; right; left; reflexivity | reflexivity]. }
  destruct (String.eqb_spec rel relFilter) as [->|nx]; simpl.
  { split; [intros _; right; right; left; reflexivity | reflexivity]. }
  destruct (Str.startsWith rel _); simpl.
  - split; [intros _; right; right; right; reflexivity | reflexivity].
  - split; [discriminate | intros [H|[H|[H|H]]]; congruence].
Qed.

Lemma flat_map_moduleLines env st relFilter (paths : list string) :
  List.flat_map (moduleLines env st (Some relFilter)) paths
  = List.flat_map
      (fun rel => match loadFileCache rel st with
                  | Some cache => moduleBlock env rel cache
                  | None => []
                  end)
      (List.filter (passes relFilter) paths).
Proof.
  induction paths as [|rel paths IH]; simpl; [reflexivity|].
  unfold moduleLines at 1, passes at 1.
  destruct (filteredOut (Some relFilter) rel); simpl; [exact IH|].
  now rewrite IH.
Qed.

(** C5, as stated, fails on a filter that is not in normal form: with
    [src/users/dal.js] stored, the filter [src/users/] shows it, though
    the filter does not denote the working directory, the path is not the
    filter, and the path does not start with [src/users//]. *)
Lemma path_filter_is_not_literal :
  getContext Str.asciiLower usersEnv (byPath "src/users/")
    (fst (saveManual usersEnv saveDal emptyStore))
  = Ok (Str.join nl
          ["[src/users/dal.js]";
           "MongoDB DAL for users." +:+ nl +:+ "Used in: ./src/users/service.js";
           "Symbols: getUser"; "Keywords: dal, users"; EmptyString])
  /\ ~ includedAsStated usersEnv "src/users/" "src/users/dal.js".
Proof.
  split; [vm_compute; reflexivity|].
  unfold includedAsStated. vm_compute.
  intros [[H|H]|[H|H]]; discriminate H.
Qed.

(** C5, amended.  For every non-empty path filter [f], with [relFilter]
    the filter made relative to the working directory, in normal form and
    with slashes ([path.relative(cwd, path.resolve(f))]), a candidate
    path [p] is shown if and only if [relFilter] denotes the working
    directory (it is empty or "."), or [p] equals [relFilter], or [p]
    starts with the literal string [relFilter + "/"]: the blocks in the
    text returned are those of the stored candidates that pass.  A filter
    that is a relative path in normal form, such as "foo" and
    "src/users", is its own [relFilter] in every working directory:
    "foo" never matches a path under "foo2", and "src/users" matches
    "src/users/dal.js" and not "src/users2/x.js". *)
Theorem path_filter_is_slash_delimited
    (toLowerCase : string -> string) (env : Env) (st : Store) (q : Query.t)
    (f : string) (paths : list string) :
  let relFilter := Str.replaceAll backslash "/" (Path.relative (cwd env) f) in
  whenTruthy (Query.symbol q) = None ->
  Query.filterPath q = Some f ->
  f <> EmptyString ->
  match keywordsGiven q with
  | Some keywords => lookupByKeywords keywords st
  | None => Ok (JsObj.keys (RepoctxIndex.files (loadIndex st)))
  end = Ok paths ->
  getContext toLowerCase env q st
  = Ok (Str.join nl
          (List.flat_map
             (fun rel => match loadFileCache rel st with
                         | Some cache => moduleBlock env rel cache
                         | None => []
                         end)
             (List.filter (passes relFilter) paths)
           ++ symbolSection
                match keywordsGiven q with
                | Some keywords => List.filter (symbolTagged keywords) (loadAllSymbols st)
                | None => loadAllSymbols st
                end))
  /\ (forall p,
         In p (List.filter (passes relFilter) paths)
         <-> In p paths
             /\ (relFilter = EmptyString \/ relFilter = "." \/ p = relFilter
                 \/ Str.startsWith p (relFilter +:+ "/") = true))
  /\ (forall cwd, Str.replaceAll backslash "/" (Path.relative cwd "foo") = "foo")
  /\ (forall rest, passes "foo" ("foo2" +:+ rest) = false)
  /\ (forall cwd, Str.replaceAll backslash "/" (Path.relative cwd "src/users") = "src/users")
  /\ passes "src/users" "src/users/dal.js" = true
  /\ passes "src/users" "src/users2/x.js" = false.
Proof.
  intros relFilter S F ne C.
  assert (relFilterOf env q = Some relFilter) as R.
  { unfold relFilterOf, whenTruthy, Str.truthy. rewrite F.
    destruct (String.eqb_spec f EmptyString); [contradiction | reflexivity]. }
  split.
  { rewrite getContext_listing by exact S. rewrite R.
    destruct (keywordsGiven q) as [keywords|].
    - rewrite C. now rewrite flat_map_moduleLines.
    - injection C as <-. now rewrite flat_map_moduleLines. }
  split.
  { intros p. rewrite filter_In, passes_iff. reflexivity. }
  split.
  { intros cwd. now rewrite relative_plain. }
  split.
  { intros rest. reflexivity. }
  split.
  { intros cwd. now rewrite relative_plain. }
  split; reflexivity.
Qed.

(** [src/users/dal.js] is stored: the filters [src/users], [src/users/]
    and [.] show it, the filter [src/user] does not. *)
Lemma path_filter_is_slash_delimited_witness :
  getContext Str.asciiLower usersEnv (byPath "src/user")
    (fst (saveManual usersEnv saveDal emptyStore))
  = Ok EmptyString.
Proof.
  destruct (path_filter_is_slash_delimited Str.asciiLower usersEnv
              (fst (saveManual usersEnv saveDal emptyStore)) (byPath "src/user")
              "src/user" ["src/users/dal.js"]) as [E _].
  - reflexivity.
  - reflexivity.
  - discriminate.
  - vm_compute. reflexivity.
  - rewrite E. vm_compute. reflexivity.
Defined.

Example path_filter_examples :
  let st := fst (saveManual usersEnv saveDal emptyStore) in
  let shown := Ok (Str.join nl
                     ["[src/users/dal.js]";
                      "MongoDB DAL for users." +:+ nl +:+ "Used in: ./src/users/service.js";
                      "Symbols: getUser"; "Keywords: dal, users"; EmptyString]) in
  getContext Str.asciiLower usersEnv (byPath "src/users") st = shown
  /\ getContext Str.asciiLower usersEnv (byPath "src/users/") st = shown
  /\ getContext Str.asciiLower usersEnv (byPath "./src/users/dal.js") st = shown
  /\ getContext Str.asciiLower usersEnv (byPath ".") st = shown
  /\ getContext Str.asciiLower usersEnv (byPath "src/users/dal") st = Ok EmptyString.
Proof. vm_compute. repeat split; reflexivity. Qed.

(** ** Queries by symbol name *)

Section SymbolQuery.
Import JsObj JsObjFacts.
Variable toLowerCase : string -> string.

Lemma getContext_symbol env q st s :
  Query.symbol q = Some s ->
  s <> EmptyString ->
  getContext toLowerCase env q st
  = Ok match findSymbol toLowerCase s (loadAllSymbols st) with
       | Some m => Str.join nl (symbolDetail m)
       | None => notFound s
       end.
Proof.
  intros E ne. unfold getContext, whenTruthy, Str.truthy. rewrite E.
  destruct (String.eqb_spec s EmptyString); [contradiction|]. simpl.
  destruct (findSymbol toLowerCase s (loadAllSymbols st)); reflexivity.
Qed.

Lemma findSymbol_Some s l m :
  findSymbol toLowerCase s l = Some m ->
  In m l /\ toLowerCase (SymbolCard.symbol m) = toLowerCase s.
Proof.
  intros H. apply find_some in H as [i e]. now apply String.eqb_eq in e.
Qed.

Lemma findSymbol_None s l :
  findSymbol toLowerCase s l = None
  <-> forall c, In c l -> toLowerCase (SymbolCard.symbol c) <> toLowerCase s.
Proof.
  split.
  - intros H c i. apply (find_none _ _ H) in i. now apply String.eqb_neq in i.
  - intros H. destruct (findSymbol toLowerCase s l) as [m|] eqn:E; [| reflexivity].
    apply findSymbol_Some in E as [i e]. exfalso. exact (H m i e).
Qed.

Lemma NoDup_symbols_loadSymbolsIndex st :
  NoDup (keys (SymbolsIndex.symbols (loadSymbolsIndex st))).
Proof.
  unfold loadSymbolsIndex. destruct (symbolsIndexFile st); simpl;
    [apply NoDup_parse | constructor].
Qed.

(** A symbol card just saved is in the listing ([__proto__] is no key an
    assignment can create). *)
Lemma saved_symbol_is_listed env a st :
  SaveSymbolArgs.symbol a <> "__proto__" ->
  snd (saveSymbol env a st) = Ok (SaveSymbolArgs.symbol a)
  /\ In (symbolCardOf env a) (loadAllSymbols (fst (saveSymbol env a st))).
Proof.
  intros ne. split; [reflexivity|].
  rewrite loadAllSymbols_flat_map. apply in_flat_map.
  exists (refFromPath ("symbol:" +:+ SaveSymbolArgs.symbol a)). split.
  - apply (getOwn_Some_value (SaveSymbolArgs.symbol a)).
    unfold saveSymbol, saveSymbolCard, bind, read, write, ret, loadSymbolsIndex at 1. simpl.
    rewrite getOwn_parse_stringify by (apply NoDup_set, NoDup_symbols_loadSymbolsIndex).
    apply getOwn_set_eq. now left.
  - unfold readableSymbol, saveSymbol, saveSymbolCard, bind, read, write, ret. simpl.
    rewrite lookup_insert_eq. now left.
Qed.

End SymbolQuery.

(** C6.  Symbol lookup matches by case-insensitive exact equality of the
    symbol name: [getContext] with a (non-empty) symbol name returns the
    first stored card whose name, lower-cased, equals the lower-cased
    query, and no card whose lower-cased name differs is ever returned.
    Saving "FooBar" and querying "foobar" finds it.  A miss returns the
    text [No symbol found: "<name>"] as a normal result, not an error. *)
Theorem symbol_lookup_is_case_insensitive
    (toLowerCase : string -> string) (env : Env) (st : Store) (q : Query.t) (s : string) :
  Query.symbol q = Some s ->
  s <> EmptyString ->
  getContext toLowerCase env q st
  = Ok match findSymbol toLowerCase s (loadAllSymbols st) with
       | Some m => Str.join nl (symbolDetail m)
       | None => notFound s
       end
  /\ (forall m, findSymbol toLowerCase s (loadAllSymbols st) = Some m ->
                In m (loadAllSymbols st)
                /\ toLowerCase (SymbolCard.symbol m) = toLowerCase s)
  /\ (findSymbol toLowerCase s (loadAllSymbols st) = None
      <-> forall c, In c (loadAllSymbols st) ->
                    toLowerCase (SymbolCard.symbol c) <> toLowerCase s)
  /\ (forall env' a st',
         SaveSymbolArgs.symbol a <> "__proto__" ->
         toLowerCase (SaveSymbolArgs.symbol a) = toLowerCase s ->
         exists m,
           getContext toLowerCase env q (fst (saveSymbol env' a st'))
           = Ok (Str.join nl (symbolDetail m))
           /\ toLowerCase (SymbolCard.symbol m) = toLowerCase s).
Proof.
  intros E ne. split; [now apply getContext_symbol|].
  split; [intros m; apply findSymbol_Some|].
  split; [apply findSymbol_None|].
  intros env' a st' np lower.
  rewrite (getContext_symbol toLowerCase env q _ s E ne).
  destruct (findSymbol toLowerCase s _) as [m|] eqn:F.
  - exists m. split; [reflexivity|]. now apply (findSymbol_Some toLowerCase) in F.
  - exfalso. rewrite findSymbol_None in F.
    destruct (saved_symbol_is_listed env' a st' np) as [_ i].
    exact (F _ i lower).
Qed.

Lemma symbol_lookup_is_case_insensitive_witness :
  getContext Str.asciiLower usersEnv (bySymbol "foobar") twoSymbols
  = Ok (Str.join nl
          ["[symbol: FooBar]"; "Kind: function"; "File: src/users/dal.js";
           "Purpose: Reads one user"; "Keywords: users";
           "Updated: 2024-01-01T00:00:00.000Z"])
  /\ getContext Str.asciiLower usersEnv (bySymbol "foo") twoSymbols
     = Ok ("No symbol found: " +:+ Str.quote +:+ "foo" +:+ Str.quote).
Proof.
  split.
  - destruct (symbol_lookup_is_case_insensitive Str.asciiLower usersEnv twoSymbols
                (bySymbol "foobar") "foobar") as [E _];
      [reflexivity | discriminate | rewrite E; vm_compute; reflexivity].
  - vm_compute. reflexivity.
Defined.

(** C10.  When a query supplies a (non-empty) symbol name, the
    symbol-name mode takes full precedence: the result is the detail of
    one matching symbol card or the not-found text, and a path filter or
    keyword list supplied with it, like the working tree, has no effect
    on the output. *)
Theorem symbol_mode_takes_precedence
    (toLowerCase : string -> string) (env env' : Env) (st : Store)
    (s : string) (filterPath : option string) (keywords : option (list string)) :
  s <> EmptyString ->
  getContext toLowerCase env
    {| Query.filterPath := filterPath; Query.keywords := keywords; Query.symbol := Some s |} st
  = getContext toLowerCase env' (bySymbol s) st
  /\ (getContext toLowerCase env
        {| Query.filterPath := filterPath; Query.keywords := keywords;
           Query.symbol := Some s |} st
      = Ok (notFound s)
      \/ exists m,
          In m (loadAllSymbols st)
          /\ toLowerCase (SymbolCard.symbol m) = toLowerCase s
          /\ getContext toLowerCase env
               {| Query.filterPath := filterPath; Query.keywords := keywords;
                  Query.symbol := Some s |} st
             = Ok (Str.join nl (symbolDetail m))).
Proof.
  intros ne.
  set (q := {| Query.filterPath := filterPath; Query.keywords := keywords;
               Query.symbol := Some s |}).
  rewrite (getContext_symbol toLowerCase env q st s eq_refl ne).
  rewrite (getContext_symbol toLowerCase env' (bySymbol s) st s eq_refl ne).
  split; [reflexivity|].
  destruct (findSymbol toLowerCase s (loadAllSymbols st)) as [m|] eqn:F.
  - right. exists m. apply (findSymbol_Some toLowerCase) in F. tauto.
  - now left.
Qed.

Lemma symbol_mode_takes_precedence_witness :
  getContext Str.asciiLower usersEnv
    {| Query.filterPath := Some "src/billing"; Query.keywords := Some ["constructor"];
       Query.symbol := Some "LOGIN" |} demoStore
  = getContext Str.asciiLower usersEnv (bySymbol "LOGIN") demoStore.
Proof.
  apply (symbol_mode_takes_precedence Str.asciiLower usersEnv usersEnv demoStore "LOGIN"
           (Some "src/billing") (Some ["constructor"])).
  discriminate.
Defined.

(** ** Relation pairs *)

Section Relations.
Local Arguments String.append : simpl nomatch.

Lemma append_assoc (a b c : string) : (a +:+ b) +:+ c = a +:+ (b +:+ c).
Proof. induction a as [|x a IH]; simpl; [reflexivity | now rewrite IH]. Qed.

Lemma append_empty_r (a : string) : a +:+ EmptyString = a.
Proof. induction a as [|x a IH]; simpl; [reflexivity | now rewrite IH]. Qed.

Lemma splitAux_lacks sep s cur :
  lacks sep s = true -> Str.splitAux sep s cur = [cur +:+ s].
Proof.
  revert cur. induction s as [|c s IH]; simpl; intros cur H.
  - now rewrite append_empty_r.
  - apply andb_true_iff in H as [H1 H2]. apply negb_true_iff in H1. rewrite H1.
    rewrite (IH _ H2), append_assoc. reflexivity.
Qed.

Lemma splitAux_first sep a b cur :
  lacks sep a = true ->
  Str.splitAux sep (a +:+ String sep b) cur = (cur +:+ a) :: Str.splitAux sep b EmptyString.
Proof.
  revert cur. induction a as [|c a IH]; simpl; intros cur H.
  - now rewrite Ascii.eqb_refl, append_empty_r.
  - apply andb_true_iff in H as [H1 H2]. apply negb_true_iff in H1. rewrite H1.
    rewrite (IH _ H2), append_assoc. reflexivity.
Qed.

Lemma splitAux_cons sep s cur : exists x l, Str.splitAux sep s cur = x :: l.
Proof.
  revert cur. induction s as [|c s IH]; simpl; intros cur; [now eexists; eexists|].
  destruct (Ascii.eqb c sep); [now eexists; eexists | apply IH].
Qed.

Lemma join_splitAux sep s cur :
  Str.join (String sep EmptyString) (Str.splitAux sep s cur) = cur +:+ s.
Proof.
  revert cur. induction s as [|c s IH]; simpl; intros cur.
  - now rewrite append_empty_r.
  - destruct (Ascii.eqb_spec c sep) as [->|ne].
    + specialize (IH EmptyString).
      destruct (splitAux_cons sep s EmptyString) as [x [l E]].
      rewrite E in *. unfold Str.join in *. simpl in *. now rewrite IH.
    + rewrite IH, append_assoc. reflexivity.
Qed.

(** Joining what a split gave restores the text. *)
Lemma join_split sep s : Str.join (String sep EmptyString) (Str.split sep s) = s.
Proof. unfold Str.split. now rewrite join_splitAux. Qed.

Lemma parseRelation_unlabelled s :
  lacks ":" s = true ->
  parseRelation s
  = {| SymbolRelation.symbol := Str.trim s; SymbolRelation.relation := "related" |}.
Proof.
  intros H. unfold parseRelation, Str.split. now rewrite (splitAux_lacks _ _ _ H).
Qed.

Lemma parseRelation_labelled symbol label :
  lacks ":" symbol = true ->
  parseRelation (symbol +:+ ":" +:+ label)
  = {| SymbolRelation.symbol := Str.trim symbol;
       SymbolRelation.relation :=
         if Str.truthy (Str.trim label) then Str.trim label else "related" |}.
Proof.
  intros H. unfold parseRelation, Str.split.
  change (symbol +:+ ":" +:+ label) with (symbol +:+ String ":" label).
  rewrite (splitAux_first _ _ _ _ H). simpl List.tl. simpl List.hd.
  change (Str.splitAux ":" label EmptyString) with (Str.split ":" label).
  now rewrite (join_split ":" label).
Qed.

Lemma parseRelation_relation_truthy s :
  SymbolRelation.relation (parseRelation s) <> EmptyString.
Proof.
  unfold parseRelation. simpl.
  destruct (Str.truthy _) eqn:E; [| discriminate].
  unfold Str.truthy in E. apply negb_true_iff, String.eqb_neq in E. exact E.
Qed.

End Relations.

(** C9.  [parseRelated] on "a:x,b" yields exactly two entries,
    [{symbol: "a", relation: "x"}] and [{symbol: "b", relation: "related"}].
    In general there is one entry for every comma-separated segment that
    is not blank; a segment with no colon, and a segment whose text after
    the first colon is empty or blank, gets the label "related"; no entry
    has an empty label, and no text makes the parse fail. *)
Theorem parseRelated_defaults_the_label :
  parseRelated "a:x,b"
  = [{| SymbolRelation.symbol := "a"; SymbolRelation.relation := "x" |};
     {| SymbolRelation.symbol := "b"; SymbolRelation.relation := "related" |}]
  /\ (forall raw,
         parseRelated raw
         = List.map parseRelation
             (List.filter Str.truthy (List.map Str.trim (Str.split "," raw))))
  /\ (forall s,
         lacks ":" s = true ->
         parseRelation s
         = {| SymbolRelation.symbol := Str.trim s; SymbolRelation.relation := "related" |})
  /\ (forall symbol label,
         lacks ":" symbol = true ->
         parseRelation (symbol +:+ ":" +:+ label)
         = {| SymbolRelation.symbol := Str.trim symbol;
              SymbolRelation.relation :=
                if Str.truthy (Str.trim label) then Str.trim label else "related" |})
  /\ (forall raw r, In r (parseRelated raw) -> SymbolRelation.relation r <> EmptyString).
Proof.
  split; [vm_compute; reflexivity|].
  split; [reflexivity|].
  split; [exact parseRelation_unlabelled|].
  split; [exact parseRelation_labelled|].
  intros raw r i. unfold parseRelated in i. apply in_map_iff in i as [s [<- _]].
  apply parseRelation_relation_truthy.
Qed.

Example parseRelated_examples :
  parseRelated " a : x:y , ,b: ,c"
  = [{| SymbolRelation.symbol := "a"; SymbolRelation.relation := "x:y" |};
     {| SymbolRelation.symbol := "b"; SymbolRelation.relation := "related" |};
     {| SymbolRelation.symbol := "c"; SymbolRelation.relation := "related" |}]
  /\ parseRelated EmptyString = []
  /\ parseRelated "softDeleteUser:soft-delete variant"
     = [{| SymbolRelation.symbol := "softDeleteUser";
           SymbolRelation.relation := "soft-delete variant" |}].
Proof. vm_compute. repeat split; reflexivity. Qed.

(** ** Checkpoints *)

Section Failures.

Lemma addPath_Throw p ks o e : addPath p ks o = Throw e -> e = TypeError.
Proof.
  revert o. induction ks as [|kw ks IH]; simpl; intros o H; [discriminate|].
  destruct (JsObj.get kw _) as [l| |]; try (now injection H as <-).
  destruct (Str.mem p l); now apply IH in H.
Qed.

Lemma keywordSets_Throw kwi ks e : keywordSets kwi ks = Throw e -> e = TypeError.
Proof.
  induction ks as [|k ks IH]; simpl; intros H; [discriminate|].
  destruct (JsObj.get k kwi); try (now injection H as <-);
    destruct (keywordSets kwi ks); try discriminate; apply IH; congruence.
Qed.

Lemma saveManual_Throw env a st e :
  snd (saveManual env a st) = Throw e -> e = FsError \/ e = TypeError.
Proof.
  unfold saveManual, bind, lift, ret.
  destruct (SaveArgs.meta a).
  - rewrite saveFileCache_eq. destruct (addPath _ _ _) eqn:A; simpl; [discriminate|].
    intros [= <-]. right. now apply addPath_Throw in A.
  - unfold fileHash. destruct (readFile env _); simpl; [| intros [= <-]; now left].
    rewrite saveFileCache_eq. destruct (addPath _ _ _) eqn:A; simpl; [discriminate|].
    intros [= <-]. right. now apply addPath_Throw in A.
Qed.

Lemma getContext_Throw toLowerCase env q st e :
  getContext toLowerCase env q st = Throw e -> e = TypeError.
Proof.
  unfold getContext.
  destruct (whenTruthy (Query.symbol q)).
  - destruct (findSymbol _ _ _); discriminate.
  - destruct (keywordsGiven q) as [ks|]; [| discriminate].
    unfold lookupByKeywords. destruct (keywordSets _ ks) eqn:K; [discriminate|].
    intros [= <-]. now apply keywordSets_Throw in K.
Qed.

End Failures.

Lemma saveManual_whatever_git env a st head :
  snd (saveManual (withHead env head) a st) = snd (saveManual env a st).
Proof.
  unfold saveManual, bind, lift, ret. simpl.
  change (fileHash (withHead env head)) with (fileHash env).
  change (relOf (withHead env head)) with (relOf env).
  destruct (if SaveArgs.meta a then _ else _) as [hash|e]; [| reflexivity].
  rewrite !saveFileCache_eq. unfold keywordsOf. simpl.
  destruct (addPath _ _ _); reflexivity.
Qed.

(** C7.  Saving a checkpoint fails with a hard, surfaced error whenever
    no version-control context supplies a revision identifier: when
    [git rev-parse HEAD] fails, [saveCheckpoint] throws the error of the
    command and writes nothing, and the [checkpoint] command prints
    "Error: <message>" and exits with status 1.  It is the only
    operation that propagates such a failure: [saveManual] returns or
    throws as it does with git at hand (what it throws is a failed file
    read or a [TypeError]), [saveSymbol] returns, [getContext] throws
    nothing but a [TypeError], and [runDiff] returns a text. *)
Theorem saveCheckpoint_fails_hard_without_git (env : Env) (st : Store) (message : string) :
  gitRevParseHead env = Failed message ->
  saveCheckpoint env st = (st, Throw (ExecError message))
  /\ checkpointCommand env st
     = (st, {| stdout := [];
               stderr := ["Error: " +:+ message;
                          "Make sure you are inside a git repository."];
               exitCode := 1 |})
  /\ (forall a e, snd (saveManual env a st) = Throw e -> e = FsError \/ e = TypeError)
  /\ (forall a out,
         snd (saveManual env a st) = snd (saveManual (withHead env (Stdout out)) a st))
  /\ (forall a, snd (saveSymbol env a st) = Ok (SaveSymbolArgs.symbol a))
  /\ (forall toLowerCase q e, getContext toLowerCase env q st = Throw e -> e = TypeError)
  /\ (forall formatChanges,
         runDiff formatChanges env st
         = match loadCheckpoint st with
           | None => "No checkpoint found. Run `repoctx checkpoint` first."
           | Some _ => "Not in a git repository."
           end).
Proof.
  intros G.
  assert (saveCheckpoint env st = (st, Throw (ExecError message))) as E
    by (unfold saveCheckpoint, bind, lift; now rewrite G).
  split; [exact E|].
  split; [unfold checkpointCommand; now rewrite E|].
  split; [intros a e; apply saveManual_Throw|].
  split; [intros a out; symmetry; apply saveManual_whatever_git|].
  split; [reflexivity|].
  split; [intros toLowerCase q e; apply getContext_Throw|].
  intros formatChanges. unfold runDiff. rewrite G.
  destruct (loadCheckpoint st); reflexivity.
Qed.

Lemma saveCheckpoint_fails_hard_without_git_witness :
  checkpointCommand usersEnv emptyStore
  = (emptyStore,
     {| stdout := [];
        stderr := ["Error: fatal: not a git repository";
                   "Make sure you are inside a git repository."];
        exitCode := 1 |}).
Proof.
  apply (saveCheckpoint_fails_hard_without_git usersEnv emptyStore
           "fatal: not a git repository").
  reflexivity.
Defined.

Example checkpoint_saved :
  let cp := {| Checkpoint.head := "3f2a9c1d5e7b8a6c4d2e0f1a3b5c7d9e1f3a5b7c";
               Checkpoint.branch := "main";
               Checkpoint.at_ := "2024-01-02T00:00:00.000Z" |} in
  snd (saveCheckpoint gitEnv emptyStore) = Ok cp
  /\ loadCheckpoint (fst (saveCheckpoint gitEnv emptyStore)) = Some cp
  /\ loadCheckpoint emptyStore = None
  /\ (forall formatChanges,
         runDiff formatChanges gitEnv (fst (saveCheckpoint gitEnv emptyStore))
         = "No changes since checkpoint (3f2a9c1).")
  /\ snd (checkpointCommand gitEnv emptyStore)
     = {| stdout := ["✓ Checkpoint saved: main @ 3f2a9c1 (2024-01-02T00:00:00.000Z)"];
          stderr := []; exitCode := 0 |}.
Proof. vm_compute. repeat split; reflexivity. Qed.

(** ** A save and a listing in full *)

Example index_after_save :
  indexFile fullStore
  = Some {| IndexDoc.metaVersion := None;
            IndexDoc.files :=
              [("src/users/dal.js",
                {| FileEntry.hash := "9b30651a59d5e15d1e8db2d87a9eaca13253a78e";
                   FileEntry.ref := "2efd8c6f8c11.json" |})];
            IndexDoc.keywordIndex :=
              Some [("dal", ["src/users/dal.js"]); ("users", ["src/users/dal.js"])] |}
  /\ symbolsIndexFile fullStore = Some [("deleteUser", "64a1fdd45a14.json")]
  /\ option_map RepoctxFileCache.publicSurfaceHash (loadFileCache "src/users/dal.js" fullStore)
     = Some (Some "95ba25495d7d").
Proof. vm_compute. repeat split; reflexivity. Qed.

Example listing_in_full :
  getContext Str.asciiLower
    (withFile gitEnv "/repo/src/users/dal.js" (Some "export const getUser = 2;"))
    {| Query.filterPath := None; Query.keywords := None; Query.symbol := None |} fullStore
  = Ok (Str.join nl
          ["[src/users/dal.js]";
           "MongoDB DAL for users.";
           "Used in: ./src/users/service.js";
           "Symbols: getUser, createUser";
           "Exports: getUser(function)";
           "Keywords: dal, users, dal";
           "Deps: userSchema";
           "⚠ Footguns: deleteUser is soft-delete only";
           "Δ Last change: Added deleteUser";
           "⚠ Context outdated (file changed since last save)";
           EmptyString;
           "── Symbols ──────────────────────────────────────────────";
           "[symbol: deleteUser] (function) src/users/dal.js";
           "  Hard delete";
           "  Sig: (id) => Promise";
           "  Related: softDeleteUser (soft-delete variant), getUser (related)";
           EmptyString])
  /\ getContext Str.asciiLower gitEnv (bySymbol "DELETEUSER") fullStore
     = Ok (Str.join nl
             ["[symbol: deleteUser]"; "Kind: function"; "File: src/users/dal.js";
              "Purpose: Hard delete"; "Signature: (id) => Promise"; "Related:";
              "  - softDeleteUser (soft-delete variant)"; "  - getUser (related)";
              "Keywords: dal"; "Updated: 2024-01-02T00:00:00.000Z"]).
Proof. vm_compute. split; reflexivity. Qed.

(** * Further properties *)

(** ** The keyword index after a save *)

Section IndexAfterSave.
Import JsObj JsObjFacts.
Implicit Types (o kwi : JsObj.t (list string)) (k kw p : string).

Lemma mem_others p l : Str.mem p (others p l) = false.
Proof.
  destruct (Str.mem p (others p l)) eqn:E; [| reflexivity].
  apply mem_In in E. unfold others in E. apply filter_In in E.
  destruct E as [_ E]. now rewrite String.eqb_refl in E.
Qed.

Lemma mem_app_last p (l : list string) : Str.mem p (l ++ [p]) = true.
Proof. apply mem_In. rewrite in_app_iff. right. now left. Qed.

Lemma setAdd_setAdd (l : list string) p : setAdd (setAdd l p) p = setAdd l p.
Proof.
  unfold setAdd. destruct (Str.mem p l) eqn:E; rewrite ?E, ?mem_app_last; reflexivity.
Qed.

Lemma bucket_removePath p kwi k : bucket k (removePath p kwi) = others p (bucket k kwi).
Proof.
  unfold bucket. rewrite getOwn_removePath. unfold without.
  destruct (getOwn k kwi) as [l|]; [| reflexivity].
  fold (others p l). destruct (others p l); reflexivity.
Qed.

(** One turn of the loop that adds [p]. *)
Lemma addPath_cons p kw ks o o' :
  addPath p (kw :: ks) o = Ok o' ->
  exists o2,
    addPath p ks o2 = Ok o'
    /\ get kw o <> Inherited
    /\ getOwn kw o2 = Some (setAdd (bucket kw o) p)
    /\ (forall k, k <> kw -> getOwn k o2 = getOwn k o).
Proof.
  simpl. unfold get, bucket. destruct (getOwn kw o) as [l|] eqn:G.
  - rewrite G. unfold setAdd. destruct (Str.mem p l) eqn:E; intros H.
    + exists o. split; [exact H|]. split; [discriminate|]. split; [exact G | reflexivity].
    + eexists. split; [exact H|]. split; [discriminate|]. split.
      * apply getOwn_set_eq. right. unfold hasOwn. now rewrite G.
      * intros k ne. now apply getOwn_set_ne.
  - destruct (inherited kw) eqn:I.
    + rewrite G. discriminate.
    + assert (kw <> "__proto__") as ne by (intros ->; discriminate I).
      rewrite getOwn_set_eq by (now left). simpl. intros H.
      eexists. split; [exact H|]. split; [discriminate|]. split.
      * apply getOwn_set_eq. now left.
      * intros k nk. rewrite !getOwn_set_ne by exact nk. reflexivity.
Qed.

(** What the loop that adds [p] leaves, when it returns. *)
Lemma getOwn_addPath p ks o o' k :
  addPath p ks o = Ok o' ->
  getOwn k o' = if Str.mem k ks then Some (setAdd (bucket k o) p) else getOwn k o.
Proof.
  revert o. induction ks as [|kw ks IH]; intros o H; [simpl in *; congruence|].
  destruct (addPath_cons _ _ _ _ _ H) as [o2 [H2 [_ [Gk Go]]]].
  rewrite (IH _ H2). change (Str.mem k (kw :: ks)) with (orb (String.eqb k kw) (Str.mem k ks)).
  destruct (String.eqb_spec k kw) as [->|ne]; simpl.
  - unfold bucket at 1. rewrite Gk. rewrite setAdd_setAdd.
    destruct (Str.mem kw ks); reflexivity.
  - unfold bucket. rewrite (Go _ ne). reflexivity.
Qed.

Lemma get_ext {V} k (o o2 : JsObj.t V) :
  getOwn k o2 = getOwn k o -> get k o2 = get k o.
Proof. unfold get. now intros ->. Qed.

(** The loop returns unless a keyword reads as a member of [Object.prototype]. *)
Lemma addPath_Ok_iff p ks o :
  (exists o', addPath p ks o = Ok o') <-> (forall kw, In kw ks -> get kw o <> Inherited).
Proof.
  revert o. induction ks as [|kw ks IH]; intros o.
  - simpl. split; [tauto | intros _; now eexists].
  - split.
    + intros [o' H] kw' i.
      destruct (addPath_cons _ _ _ _ _ H) as [o2 [H2 [N [Gk Go]]]].
      destruct (String.eqb_spec kw' kw) as [->|ne]; [exact N|].
      destruct i as [e|i]; [congruence|].
      rewrite <- (get_ext kw' o o2 (Go _ ne)).
      apply (proj1 (IH o2)); [now exists o' | exact i].
    + intros H.
      assert (get kw o <> Inherited) as N by (apply H; now left).
      assert (forall o2, getOwn kw o2 <> None ->
                (forall k, k <> kw -> getOwn k o2 = getOwn k o) ->
                exists o', addPath p ks o2 = Ok o') as step.
      { intros o2 Gk Go. apply IH. intros kw' i.
        destruct (String.eqb_spec kw' kw) as [->|ne].
        - unfold get. destruct (getOwn kw o2); [discriminate | congruence].
        - rewrite (get_ext kw' o o2 (Go _ ne)). apply H. now right. }
      simpl. unfold get in *. destruct (getOwn kw o) as [l|] eqn:G.
      * rewrite G. destruct (Str.mem p l).
        -- apply step; [congruence | reflexivity].
        -- apply step.
           ++ rewrite getOwn_set_eq; [discriminate | right; unfold hasOwn; now rewrite G].
           ++ intros k ne. now apply getOwn_set_ne.
      * destruct (inherited kw) eqn:I; [congruence|].
        assert (kw <> "__proto__") as ne by (intros ->; discriminate I).
        rewrite getOwn_set_eq by (now left). simpl. apply step.
        -- rewrite getOwn_set_eq; [discriminate | now left].
        -- intros k nk. rewrite !getOwn_set_ne by exact nk. reflexivity.
Qed.

(** The keyword index a save that returns leaves: the bucket of each
    keyword of the card is its other paths followed by [p]; every other
    bucket is what it was without [p]. *)
Lemma keywordIndex_after_save p d st k :
  snd (saveFileCache p d st) = Ok tt ->
  getOwn k (RepoctxIndex.keywordIndex (loadIndex (fst (saveFileCache p d st))))
  = if Str.mem k (keywordsOf d)
    then Some (others p (bucket k (RepoctxIndex.keywordIndex (loadIndex st))) ++ [p])
    else without p k (RepoctxIndex.keywordIndex (loadIndex st)).
Proof.
  intros H. destruct (saveFileCache_Ok _ _ _ H) as [kwi [A E]].
  rewrite E. simpl.
  pose proof (NoDup_removePath p _ (NoDup_keywordIndex_loadIndex st)) as nd.
  rewrite getOwn_parse_stringify by exact (NoDup_addPath _ _ _ _ A nd).
  rewrite (getOwn_addPath _ _ _ _ k A), bucket_removePath, getOwn_removePath.
  unfold setAdd. rewrite mem_others. reflexivity.
Qed.

End IndexAfterSave.

Section SaveAgain.
Import JsObj JsObjFacts.
Implicit Types (o kwi : JsObj.t (list string)) (k kw p : string).

Lemma getOwn_set {V} x k (v : V) (o : JsObj.t V) :
  getOwn x (set k v o)
  = if String.eqb x k
    then (if andb (String.eqb k "__proto__") (negb (hasOwn k o)) then None else Some v)
    else getOwn x o.
Proof.
  destruct (String.eqb_spec x k) as [->|ne]; [| now apply getOwn_set_ne].
  destruct (andb _ _) eqn:E.
  - unfold set. rewrite E. apply andb_true_iff in E. destruct E as [_ E].
    unfold hasOwn in E. destruct (getOwn k o); [discriminate | reflexivity].
  - apply getOwn_set_eq. apply andb_false_iff in E. destruct E as [E|E].
    + left. now apply String.eqb_neq.
    + right. now destruct (hasOwn k o).
Qed.

Lemma others_others p (l : list string) : others p (others p l) = others p l.
Proof. apply filter_filter_same. Qed.

Lemma others_app_last p (l : list string) : others p (l ++ [p]) = others p l.
Proof.
  unfold others. rewrite filter_app. simpl. rewrite String.eqb_refl. simpl.
  apply app_nil_r.
Qed.

Lemma without_bucket p k kwi :
  without p k kwi = match others p (bucket k kwi) with [] => None | l => Some l end.
Proof. unfold without, bucket. destruct (getOwn k kwi); reflexivity. Qed.

Lemma loadIndex_writeFileCard r d st : loadIndex (writeFileCard r d st) = loadIndex st.
Proof. reflexivity. Qed.

(** A second removal of [p] meets what the first one met. *)
Lemma removePath_after_save p d st k :
  getOwn k (removePath p (RepoctxIndex.keywordIndex (loadIndex (fst (saveFileCache p d st)))))
  = getOwn k (removePath p (RepoctxIndex.keywordIndex (loadIndex st))).
Proof.
  destruct (snd (saveFileCache p d st)) as [[]|e] eqn:H.
  - rewrite !getOwn_removePath, (without_bucket p k (RepoctxIndex.keywordIndex (loadIndex (fst _)))).
    unfold bucket at 1. rewrite keywordIndex_after_save by exact H.
    destruct (Str.mem k (keywordsOf d)).
    + rewrite others_app_last, others_others. symmetry. apply without_bucket.
    + rewrite without_bucket.
      destruct (others p (bucket k _)) as [|a l] eqn:E; [reflexivity|].
      assert (others p (a :: l) = a :: l) as -> by (rewrite <- E; apply others_others).
      reflexivity.
  - rewrite saveFileCache_eq in *.
    destruct (addPath _ _ _); [discriminate | reflexivity].
Qed.

Lemma addPath_ext p ks o o2 a :
  (forall k, getOwn k o2 = getOwn k o) ->
  addPath p ks o = Ok a ->
  exists b, addPath p ks o2 = Ok b /\ forall k, getOwn k b = getOwn k a.
Proof.
  intros E A.
  assert (exists b, addPath p ks o2 = Ok b) as [b B].
  { apply addPath_Ok_iff. intros kw i. rewrite (get_ext kw o o2 (E kw)).
    apply (proj1 (addPath_Ok_iff p ks o)); [now exists a | exact i]. }
  exists b. split; [exact B|]. intros k.
  rewrite (getOwn_addPath _ _ _ _ k A), (getOwn_addPath _ _ _ _ k B).
  unfold bucket. rewrite (E k). reflexivity.
Qed.

Lemma keywordSets_ext o o2 ks :
  (forall k, getOwn k o2 = getOwn k o) -> keywordSets o2 ks = keywordSets o ks.
Proof.
  intros E. induction ks as [|k ks IH]; simpl; [reflexivity|].
  rewrite IH, (get_ext k o o2 (E k)). reflexivity.
Qed.

Lemma filesDir_after_save p d st :
  filesDir (fst (saveFileCache p d st)) = <[refFromPath p := Json d]> (filesDir st).
Proof. rewrite saveFileCache_eq. destruct (addPath _ _ _); reflexivity. Qed.

(** The file entries after a save, whether it returned or not, up to the
    entry of [p]. *)
Lemma files_after_save p d st x :
  x <> p ->
  getOwn x (RepoctxIndex.files (loadIndex (fst (saveFileCache p d st))))
  = getOwn x (RepoctxIndex.files (loadIndex st)).
Proof.
  intros ne. rewrite saveFileCache_eq. destruct (addPath _ _ _); [| reflexivity].
  simpl. rewrite getOwn_parse_stringify by (apply NoDup_set, NoDup_files_loadIndex).
  now apply getOwn_set_ne.
Qed.

Lemma files_saved p d st :
  snd (saveFileCache p d st) = Ok tt ->
  getOwn p (RepoctxIndex.files (loadIndex (fst (saveFileCache p d st))))
  = if andb (String.eqb p "__proto__") (negb (hasOwn p (RepoctxIndex.files (loadIndex st))))
    then None
    else Some {| FileEntry.hash := RepoctxFileCache.hash d; FileEntry.ref := refFromPath p |}.
Proof.
  intros H. destruct (saveFileCache_Ok _ _ _ H) as [kwi [_ E]]. rewrite E. simpl.
  rewrite getOwn_parse_stringify by (apply NoDup_set, NoDup_files_loadIndex).
  rewrite getOwn_set, String.eqb_refl. reflexivity.
Qed.

Lemma hasOwn_files_after_save p d st :
  hasOwn p (RepoctxIndex.files (loadIndex (fst (saveFileCache p d st))))
  = orb (hasOwn p (RepoctxIndex.files (loadIndex st)))
        (match snd (saveFileCache p d st) with
         | Ok _ => negb (String.eqb p "__proto__")
         | Throw _ => false
         end).
Proof.
  destruct (snd (saveFileCache p d st)) as [[]|e] eqn:H.
  - unfold hasOwn at 1. rewrite files_saved by exact H.
    destruct (String.eqb p "__proto__"), (hasOwn p _); reflexivity.
  - rewrite saveFileCache_eq in *. destruct (addPath _ _ _); [discriminate|].
    simpl. now rewrite orb_false_r.
Qed.

(** What loads under [p] after a save of [p] that returns. *)
Lemma loadFileCache_saved p d st :
  snd (saveFileCache p d st) = Ok tt ->
  loadFileCache p (fst (saveFileCache p d st))
  = if andb (String.eqb p "__proto__") (negb (hasOwn p (RepoctxIndex.files (loadIndex st))))
    then None else Some d.
Proof.
  intros H. unfold loadFileCache, get. rewrite files_saved by exact H.
  destruct (andb _ _) eqn:U.
  - apply andb_true_iff in U. destruct U as [U _]. apply String.eqb_eq in U. now rewrite U.
  - simpl. now rewrite filesDir_after_save, lookup_insert_eq.
Qed.

End SaveAgain.

Section SavedCards.
Import JsObj JsObjFacts.

(** X1.  A saved path is found under its keywords, and under those only:
    after a [saveFileCache] of [p] that returns, a keyword query that
    returns lists [p] if and only if one of the keywords asked is a
    keyword of the card; and a query for keywords of the card returns. *)
Theorem saved_path_is_found_by_its_keywords
    (st : Store) (p : string) (d : RepoctxFileCache.t) (ks : list string) :
  let st' := fst (saveFileCache p d st) in
  snd (saveFileCache p d st) = Ok tt ->
  (forall paths, lookupByKeywords ks st' = Ok paths ->
     (In p paths <-> exists k, In k ks /\ In k (keywordsOf d)))
  /\ ((forall k, In k ks -> In k (keywordsOf d)) ->
      exists paths, lookupByKeywords ks st' = Ok paths).
Proof.
  intros st' H. split.
  - intros paths L. destruct (lookupByKeywords_union _ _ _ L) as [_ U]. rewrite U. split.
    + intros [k [b [ik [G ib]]]]. exists k. split; [exact ik|].
      exact (bucket_after_save _ _ _ _ _ H G ib).
    + intros [k [ik id]]. exists k. eexists. split; [exact ik|]. split.
      * unfold st'. rewrite keywordIndex_after_save by exact H.
        apply mem_In in id. rewrite id. reflexivity.
      * rewrite in_app_iff. right. now left.
  - intros sub. apply lookupByKeywords_returns. intros k i.
    unfold get, st'. rewrite keywordIndex_after_save by exact H.
    apply sub, mem_In in i. rewrite i. discriminate.
Qed.

Lemma saved_path_is_found_by_its_keywords_witness :
  let st' := fst (saveFileCache "src/auth.ts" (metaCard "src/auth.ts" ["auth"; "session"])
                    emptyStore) in
  (forall paths, lookupByKeywords ["session"; "billing"] st' = Ok paths ->
     (In "src/auth.ts" paths
      <-> exists k, In k ["session"; "billing"]
                    /\ In k (keywordsOf (metaCard "src/auth.ts" ["auth"; "session"]))))
  /\ ((forall k, In k ["session"; "billing"] ->
                 In k (keywordsOf (metaCard "src/auth.ts" ["auth"; "session"]))) ->
      exists paths, lookupByKeywords ["session"; "billing"] st' = Ok paths).
Proof.
  apply (saved_path_is_found_by_its_keywords emptyStore "src/auth.ts"
           (metaCard "src/auth.ts" ["auth"; "session"]) ["session"; "billing"]).
  vm_compute. reflexivity.
Defined.

(** X2.  The buckets a save leaves: after a [saveFileCache] of [p] that
    returns, no keyword of the index has an empty bucket, the bucket of
    each keyword of the card lists [p] exactly once, and no other bucket
    lists it. *)
Theorem buckets_after_save
    (st : Store) (p : string) (d : RepoctxFileCache.t) (k : string) (l : list string) :
  snd (saveFileCache p d st) = Ok tt ->
  getOwn k (RepoctxIndex.keywordIndex (loadIndex (fst (saveFileCache p d st)))) = Some l ->
  l <> []
  /\ count_occ string_dec l p = (if Str.mem k (keywordsOf d) then 1 else 0).
Proof.
  intros H. rewrite keywordIndex_after_save by exact H.
  destruct (Str.mem k (keywordsOf d)).
  - intros [= <-]. split; [intros E; now apply app_eq_nil in E|].
    rewrite count_occ_app. simpl. destruct (string_dec p p) as [_|n]; [| now elim n].
    assert (count_occ string_dec (others p (bucket k (RepoctxIndex.keywordIndex (loadIndex st)))) p
            = 0) as ->; [| reflexivity].
    apply count_occ_not_In. intros i. apply mem_In in i. now rewrite mem_others in i.
  - intros W. split.
    + unfold without in W. destruct (getOwn k _); [| discriminate].
      destruct (List.filter _ _); [discriminate|]. injection W as <-. discriminate.
    + apply count_occ_not_In. exact (without_not_In _ _ _ _ W).
Qed.

Lemma buckets_after_save_witness :
  ["src/auth.ts"] <> []
  /\ count_occ string_dec ["src/auth.ts"] "src/auth.ts"
     = (if Str.mem "auth" (keywordsOf (metaCard "src/auth.ts" ["auth"; "auth"])) then 1 else 0).
Proof.
  apply (buckets_after_save
           (fst (saveFileCache "src/auth.ts" (metaCard "src/auth.ts" ["auth"; "session"])
                   emptyStore))
           "src/auth.ts" (metaCard "src/auth.ts" ["auth"; "auth"]) "auth").
  - vm_compute. reflexivity.
  - vm_compute. reflexivity.
Defined.

(** X3.  A save of [p] leaves the other paths alone, whether it returns
    or throws: a path [q] other than [p] is in the bucket of a keyword
    after the save if and only if it was before, and the card of [q]
    loads as before unless its record is the file the card of [p] is
    written to. *)
Theorem save_leaves_other_paths
    (st : Store) (p : string) (d : RepoctxFileCache.t) (q : string) :
  let st' := fst (saveFileCache p d st) in
  q <> p ->
  (forall k, In q (bucket k (RepoctxIndex.keywordIndex (loadIndex st')))
             <-> In q (bucket k (RepoctxIndex.keywordIndex (loadIndex st))))
  /\ ((forall e, getOwn q (RepoctxIndex.files (loadIndex st)) = Some e ->
                 FileEntry.ref e <> refFromPath p) ->
      loadFileCache q st' = loadFileCache q st).
Proof.
  intros st' ne. split.
  - intros k. unfold st'.
    destruct (snd (saveFileCache p d st)) as [[]|e] eqn:H.
    + unfold bucket at 1. rewrite keywordIndex_after_save by exact H.
      assert (forall l, In q (others p l) <-> In q l) as O.
      { intros l. unfold others. rewrite filter_In. split; [tauto|]. intros i. split; [exact i|].
        apply negb_true_iff, String.eqb_neq. exact ne. }
      destruct (Str.mem k (keywordsOf d)).
      * rewrite in_app_iff, O. simpl. split; [| tauto].
        intros [i|[e|[]]]; [exact i | congruence].
      * rewrite without_bucket, <- (O (bucket k _)).
        destruct (others p (bucket k _)); reflexivity.
    + rewrite saveFileCache_eq in *. destruct (addPath _ _ _); [discriminate | reflexivity].
  - intros R. unfold loadFileCache, get, st'.
    rewrite files_after_save by exact ne.
    destruct (getOwn q _) as [e|] eqn:G; [| destruct (inherited q); reflexivity].
    rewrite filesDir_after_save, lookup_insert_ne; [reflexivity|].
    intros E. exact (R e eq_refl (eq_sym E)).
Qed.

Lemma save_leaves_other_paths_witness :
  let st := fst (saveFileCache "src/db.ts" (metaCard "src/db.ts" ["auth"; "db"]) emptyStore) in
  let st' := fst (saveFileCache "src/auth.ts" (metaCard "src/auth.ts" ["auth"]) st) in
  (forall k, In "src/db.ts" (bucket k (RepoctxIndex.keywordIndex (loadIndex st')))
             <-> In "src/db.ts" (bucket k (RepoctxIndex.keywordIndex (loadIndex st))))
  /\ ((forall e, getOwn "src/db.ts" (RepoctxIndex.files (loadIndex st)) = Some e ->
                 FileEntry.ref e <> refFromPath "src/auth.ts") ->
      loadFileCache "src/db.ts" st' = loadFileCache "src/db.ts" st).
Proof.
  apply (save_leaves_other_paths
           (fst (saveFileCache "src/db.ts" (metaCard "src/db.ts" ["auth"; "db"]) emptyStore))
           "src/auth.ts" (metaCard "src/auth.ts" ["auth"]) "src/db.ts").
  discriminate.
Defined.

(** X4.  The last save wins: a [saveFileCache] of [p] leaves what it
    would have left without the save of [p] before it.  It returns or
    throws as it would have, and when it returns, every keyword query
    and every load of a card give what they would have given.  In
    particular a save repeated changes nothing that can be read. *)
Theorem last_save_wins
    (st : Store) (p : string) (d1 d2 : RepoctxFileCache.t) :
  let st1 := fst (saveFileCache p d1 st) in
  snd (saveFileCache p d2 st1) = snd (saveFileCache p d2 st)
  /\ (snd (saveFileCache p d2 st) = Ok tt ->
      (forall ks, lookupByKeywords ks (fst (saveFileCache p d2 st1))
                  = lookupByKeywords ks (fst (saveFileCache p d2 st)))
      /\ (forall q, loadFileCache q (fst (saveFileCache p d2 st1))
                    = loadFileCache q (fst (saveFileCache p d2 st)))).
Proof.
  intros st1.
  pose proof (removePath_after_save p d1 st) as R. fold st1 in R.
  assert (snd (saveFileCache p d2 st1) = snd (saveFileCache p d2 st)) as S.
  { rewrite !saveFileCache_eq.
    destruct (addPath p (keywordsOf d2) (removePath p (RepoctxIndex.keywordIndex (loadIndex st))))
      as [b|e] eqn:B.
    - destruct (addPath_ext _ _ _ _ _ R B) as [a [-> _]]. reflexivity.
    - destruct (addPath p (keywordsOf d2) (removePath p (RepoctxIndex.keywordIndex (loadIndex st1))))
        as [a|e'] eqn:A.
      + destruct (addPath_ext _ _ _ _ _ (fun k => eq_sym (R k)) A) as [b [B' _]]. congruence.
      + simpl. rewrite (addPath_Throw _ _ _ _ A), (addPath_Throw _ _ _ _ B). reflexivity. }
  split; [exact S|]. intros H. pose proof H as H1. rewrite <- S in H1.
  destruct (saveFileCache_Ok _ _ _ H) as [b [B EB]].
  destruct (saveFileCache_Ok _ _ _ H1) as [a [A EA]].
  destruct (addPath_ext _ _ _ _ _ R B) as [a' [A' E]].
  assert (a' = a) as -> by congruence.
  pose proof (NoDup_addPath _ _ _ _ A
                (NoDup_removePath p _ (NoDup_keywordIndex_loadIndex st1))) as nda.
  pose proof (NoDup_addPath _ _ _ _ B
                (NoDup_removePath p _ (NoDup_keywordIndex_loadIndex st))) as ndb.
  split.
  - intros ks. unfold lookupByKeywords. rewrite EA, EB. simpl.
    rewrite (keywordSets_ext (parse (stringify b)) (parse (stringify a))); [reflexivity|].
    intros k. rewrite !getOwn_parse_stringify by assumption. apply E.
  - intros q. unfold loadFileCache, get.
    assert (getOwn q (RepoctxIndex.files (loadIndex (fst (saveFileCache p d2 st1))))
            = getOwn q (RepoctxIndex.files (loadIndex (fst (saveFileCache p d2 st))))) as ->.
    { destruct (String.eqb_spec q p) as [->|ne].
      - rewrite !files_saved by assumption. unfold st1.
        rewrite hasOwn_files_after_save.
        destruct (String.eqb p "__proto__"), (hasOwn p _),
          (snd (saveFileCache p d1 st)) as [[]|?]; reflexivity.
      - rewrite !files_after_save by exact ne. unfold st1.
        now rewrite files_after_save by exact ne. }
    rewrite !filesDir_after_save. unfold st1. rewrite filesDir_after_save, insert_insert_eq.
    reflexivity.
Qed.

(** X5.  When a save throws.  [saveFileCache] returns if and only if every
    keyword of the card that names a member of [Object.prototype] is
    already the keyword of another path; otherwise it throws a
    [TypeError], after the card is written and before the index is: the
    index is left as it was. *)
Theorem save_returns_or_leaves_the_index
    (st : Store) (p : string) (d : RepoctxFileCache.t) :
  let st' := fst (saveFileCache p d st) in
  (snd (saveFileCache p d st) = Ok tt
   <-> forall kw, In kw (keywordsOf d) -> inherited kw = true ->
         exists q, q <> p /\ In q (bucket kw (RepoctxIndex.keywordIndex (loadIndex st))))
  /\ (snd (saveFileCache p d st) = Ok tt
      \/ (snd (saveFileCache p d st) = Throw TypeError
          /\ loadIndex st' = loadIndex st
          /\ filesDir st' !! refFromPath p = Some (Json d))).
Proof.
  intros st'.
  assert (forall kw, get kw (removePath p (RepoctxIndex.keywordIndex (loadIndex st))) <> Inherited
                     <-> (inherited kw = true ->
                          exists q, q <> p
                                    /\ In q (bucket kw (RepoctxIndex.keywordIndex (loadIndex st)))))
    as G.
  { intros kw. unfold get. rewrite getOwn_removePath, without_bucket.
    destruct (others p (bucket kw _)) as [|q l] eqn:E.
    - destruct (inherited kw); split; try discriminate; try tauto.
      intros H. destruct (H eq_refl) as [q [ne i]].
      assert (In q (others p (bucket kw (RepoctxIndex.keywordIndex (loadIndex st))))) as j.
      { unfold others. apply filter_In. split; [exact i|].
        now apply negb_true_iff, String.eqb_neq. }
      rewrite E in j. destruct j.
    - split; [| discriminate]. intros _ _. exists q.
      assert (In q (others p (bucket kw (RepoctxIndex.keywordIndex (loadIndex st))))) as j
        by (rewrite E; now left).
      unfold others in j. apply filter_In in j. destruct j as [i j]. split; [| exact i].
      now apply String.eqb_neq, negb_true_iff. }
  split.
  - rewrite saveFileCache_eq.
    pose proof (addPath_Ok_iff p (keywordsOf d)
                  (removePath p (RepoctxIndex.keywordIndex (loadIndex st)))) as I.
    destruct (addPath _ _ _) as [o'|e]; simpl.
    + split; [| reflexivity]. intros _ kw i. apply G.
      apply (proj1 I); [now exists o' | exact i].
    + split; [discriminate|]. intros H. destruct (proj2 I) as [o' A]; [| discriminate A].
      intros kw i. apply G. now apply H.
  - unfold st'. rewrite saveFileCache_eq.
    destruct (addPath _ _ _) as [o'|e] eqn:A; simpl; [now left | right].
    rewrite (addPath_Throw _ _ _ _ A). repeat split. apply lookup_insert_eq.
Qed.

(** X6.  The card store gives back the card it was given: after a
    [saveFileCache] of [p] that returns, [loadFileCache p] is the card
    saved, read through the index entry [{hash, ref}] with the hash of
    the card and the file name derived from [p].  One path is the
    exception: [__proto__], unless the index file already has an entry
    of that name, gets no entry (the assignment creates no property),
    and its card does not load. *)
Theorem card_store_round_trip
    (st : Store) (p : string) (d : RepoctxFileCache.t) :
  let st' := fst (saveFileCache p d st) in
  let unindexed :=
    andb (String.eqb p "__proto__") (negb (hasOwn p (RepoctxIndex.files (loadIndex st)))) in
  snd (saveFileCache p d st) = Ok tt ->
  loadFileCache p st' = (if unindexed then None else Some d)
  /\ getOwn p (RepoctxIndex.files (loadIndex st'))
     = (if unindexed then None
        else Some {| FileEntry.hash := RepoctxFileCache.hash d;
                     FileEntry.ref := refFromPath p |}).
Proof.
  intros st' unindexed H. split.
  - apply loadFileCache_saved. exact H.
  - apply files_saved. exact H.
Qed.

Lemma card_store_round_trip_witness :
  let st' := fst (saveFileCache "__proto__" (metaCard "__proto__" ["auth"]) emptyStore) in
  let unindexed :=
    andb (String.eqb "__proto__" "__proto__")
         (negb (hasOwn "__proto__" (RepoctxIndex.files (loadIndex emptyStore)))) in
  loadFileCache "__proto__" st'
  = (if unindexed then None else Some (metaCard "__proto__" ["auth"]))
  /\ getOwn "__proto__" (RepoctxIndex.files (loadIndex st'))
     = (if unindexed then None
        else Some {| FileEntry.hash := RepoctxFileCache.hash (metaCard "__proto__" ["auth"]);
                     FileEntry.ref := refFromPath "__proto__" |}).
Proof.
  apply (card_store_round_trip emptyStore "__proto__" (metaCard "__proto__" ["auth"])).
  vm_compute. reflexivity.
Defined.
End SavedCards.

Section OldIndex.
Import JsObj JsObjFacts.

(** X7.  An index written before there was a keyword index.  When
    [index.json] has no [keywordIndex] (or there is no [index.json]),
    every keyword query that returns is empty, whatever cards the index
    lists; and after the first save, of a path [p], a keyword query
    finds [p] and nothing else: the other cards stay in the index and
    are found by keyword only once they are saved again. *)
Theorem old_index_has_no_keywords
    (st : Store) (p : string) (d : RepoctxFileCache.t) :
  let st' := fst (saveFileCache p d st) in
  (forall doc, indexFile st = Some doc -> IndexDoc.keywordIndex doc = None) ->
  (forall ks paths, lookupByKeywords ks st = Ok paths -> paths = [])
  /\ (snd (saveFileCache p d st) = Ok tt ->
      (forall ks paths, lookupByKeywords ks st' = Ok paths -> forall q, In q paths -> q = p)
      /\ forall q, q <> p ->
           getOwn q (RepoctxIndex.files (loadIndex st'))
           = getOwn q (RepoctxIndex.files (loadIndex st))).
Proof.
  intros st' old.
  assert (RepoctxIndex.keywordIndex (loadIndex st) = empty) as E.
  { unfold loadIndex. destruct (indexFile st) as [doc|]; [| reflexivity].
    simpl. now rewrite (old doc eq_refl). }
  split.
  - intros ks paths L. destruct (lookupByKeywords_union _ _ _ L) as [_ U].
    destruct paths as [|q paths]; [reflexivity|].
    destruct (proj1 (U q) (or_introl eq_refl)) as [k [b [_ [G _]]]].
    rewrite E in G. discriminate G.
  - intros H. split.
    + intros ks paths L q i. destruct (lookupByKeywords_union _ _ _ L) as [_ U].
      destruct (proj1 (U q) i) as [k [b [_ [G j]]]].
      unfold st' in G. rewrite keywordIndex_after_save in G by exact H.
      rewrite E in G. unfold bucket, without in G. simpl in G.
      destruct (Str.mem k (keywordsOf d)); [| discriminate].
      injection G as <-. destruct j as [<-|[]]. reflexivity.
    + intros q ne. now apply files_after_save.
Qed.

Lemma old_index_has_no_keywords_witness :
  let st' := fst (saveFileCache "src/auth.ts" (metaCard "src/auth.ts" ["db"]) oldStore) in
  (forall ks paths, lookupByKeywords ks oldStore = Ok paths -> paths = [])
  /\ (snd (saveFileCache "src/auth.ts" (metaCard "src/auth.ts" ["db"]) oldStore) = Ok tt ->
      (forall ks paths, lookupByKeywords ks st' = Ok paths ->
                        forall q, In q paths -> q = "src/auth.ts")
      /\ forall q, q <> "src/auth.ts" ->
           getOwn q (RepoctxIndex.files (loadIndex st'))
           = getOwn q (RepoctxIndex.files (loadIndex oldStore))).
Proof.
  apply (old_index_has_no_keywords oldStore "src/auth.ts" (metaCard "src/auth.ts" ["db"])).
  intros doc [= <-]. reflexivity.
Defined.

Example old_index_lookup :
  loadFileCache "src/db.ts" oldStore = Some (metaCard "src/db.ts" ["db"])
  /\ lookupByKeywords ["db"] oldStore = Ok []
  /\ lookupByKeywords ["db"]
       (fst (saveFileCache "src/auth.ts" (metaCard "src/auth.ts" ["db"]) oldStore))
     = Ok ["src/auth.ts"].
Proof. vm_compute. repeat split; reflexivity. Qed.
End OldIndex.

(** ** Keyword lookup *)

Section Union.
Import JsObj JsObjFacts.

Lemma setAdd_mem (l : list string) x : Str.mem x l = true -> setAdd l x = l.
Proof. unfold setAdd. now intros ->. Qed.

Lemma fold_setAdd_setAdd (d acc : list string) x :
  List.fold_left setAdd (setAdd d x) acc = setAdd (List.fold_left setAdd d acc) x.
Proof.
  destruct (Str.mem x d) eqn:E.
  - rewrite (setAdd_mem d x E). symmetry.
    apply setAdd_mem, mem_In, In_fold_setAdd. right. now apply mem_In.
  - assert (setAdd d x = d ++ [x]) as -> by (unfold setAdd; now rewrite E).
    now rewrite fold_left_app.
Qed.

Lemma fold_setAdd_fold (s d acc : list string) :
  List.fold_left setAdd (List.fold_left setAdd s d) acc
  = List.fold_left setAdd s (List.fold_left setAdd d acc).
Proof.
  revert d. induction s as [|x s IH]; simpl; intros d; [reflexivity|].
  now rewrite IH, fold_setAdd_setAdd.
Qed.

Lemma fold_setAdd_union (sets : list (list string)) (d acc : list string) :
  List.fold_left setAdd
    (List.fold_left (fun union s => List.fold_left setAdd s union) sets d) acc
  = List.fold_left (fun union s => List.fold_left setAdd s union) sets
      (List.fold_left setAdd d acc).
Proof.
  revert d. induction sets as [|s sets IH]; simpl; intros d; [reflexivity|].
  now rewrite IH, fold_setAdd_fold.
Qed.

Lemma keywordSets_app kwi ks1 ks2 :
  keywordSets kwi (ks1 ++ ks2)
  = match keywordSets kwi ks1, keywordSets kwi ks2 with
    | Ok s1, Ok s2 => Ok (s1 ++ s2)
    | Throw e, _ => Throw e
    | Ok _, Throw e => Throw e
    end.
Proof.
  induction ks1 as [|k ks1 IH]; simpl.
  - destruct (keywordSets kwi ks2); reflexivity.
  - rewrite IH. destruct (get k kwi); try reflexivity;
      destruct (keywordSets kwi ks1); try reflexivity;
      destruct (keywordSets kwi ks2); reflexivity.
Qed.


(** X8.  Keyword lookup is a union: when the queries for [ks1] and for
    [ks2] return [l1] and [l2], the query for the keywords of both
    returns [l1] followed by the paths of [l2] that are not in [l1]; it
    lists a path if and only if one of the two does, and lists it once.
    It throws as soon as one of the two does. *)
Theorem lookup_is_a_union (st : Store) (ks1 ks2 : list string) :
  match lookupByKeywords ks1 st, lookupByKeywords ks2 st with
  | Ok l1, Ok l2 =>
      lookupByKeywords (ks1 ++ ks2) st = Ok (List.fold_left setAdd l2 l1)
      /\ NoDup (List.fold_left setAdd l2 l1)
      /\ forall p, In p (List.fold_left setAdd l2 l1) <-> In p l1 \/ In p l2
  | _, _ => lookupByKeywords (ks1 ++ ks2) st = Throw TypeError
  end.
Proof.
  destruct (lookupByKeywords ks1 st) as [l1|e1] eqn:L1.
  - destruct (lookupByKeywords ks2 st) as [l2|e2] eqn:L2.
    + split; [| split].
      * unfold lookupByKeywords in *. rewrite keywordSets_app.
        destruct (keywordSets _ ks1) as [s1|]; [| discriminate].
        destruct (keywordSets _ ks2) as [s2|]; [| discriminate].
        injection L1 as <-. injection L2 as <-.
        rewrite fold_left_app, fold_setAdd_union. reflexivity.
      * apply NoDup_fold_setAdd. exact (proj1 (lookupByKeywords_union _ _ _ L1)).
      * intros p. apply In_fold_setAdd.
    + unfold lookupByKeywords in *. rewrite keywordSets_app.
      destruct (keywordSets _ ks1) as [s1|]; [| discriminate].
      destruct (keywordSets _ ks2) as [s2|] eqn:K2; [discriminate|].
      now rewrite (keywordSets_Throw _ _ _ K2).
  - unfold lookupByKeywords in *. rewrite keywordSets_app.
    destruct (keywordSets _ ks1) as [s1|] eqn:K1; [discriminate|].
    now rewrite (keywordSets_Throw _ _ _ K1).
Qed.

End Union.

(** ** The order of the index *)

Section Decimal.

Lemma decimal_shift ds a :
  decimal ds a = (a * 10 ^ N.of_nat (List.length ds) + decimal ds 0)%N.
Proof.
  revert a. induction ds as [|d ds IH]; intros a.
  - simpl. lia.
  - change (decimal (d :: ds) a) with (decimal ds (10 * a + N.of_nat (d - 48))).
    change (decimal (d :: ds) 0) with (decimal ds (10 * 0 + N.of_nat (d - 48))).
    rewrite (IH (10 * a + _)%N), (IH (10 * 0 + _)%N).
    replace (N.of_nat (List.length (d :: ds))) with (N.succ (N.of_nat (List.length ds)))
      by (simpl; lia).
    rewrite N.pow_succ_r'. lia.
Qed.

Lemma decimal_bound ds :
  List.forallb isDigit ds = true -> (decimal ds 0 < 10 ^ N.of_nat (List.length ds))%N.
Proof.
  induction ds as [|d ds IH]; intros H.
  - simpl. lia.
  - simpl in H. apply andb_true_iff in H. destruct H as [D H]. specialize (IH H).
    change (decimal (d :: ds) 0) with (decimal ds (10 * 0 + N.of_nat (d - 48))).
    rewrite decimal_shift.
    replace (N.of_nat (List.length (d :: ds))) with (N.succ (N.of_nat (List.length ds)))
      by (simpl; lia).
    rewrite N.pow_succ_r'.
    unfold isDigit in D. apply andb_true_iff in D. destruct D as [D1 D2].
    apply Nat.leb_le in D1, D2.
    assert (N.of_nat (d - 48) <= 9)%N by lia.
    nia.
Qed.

Lemma decimal_same_length ds1 ds2 :
  List.forallb isDigit ds1 = true -> List.forallb isDigit ds2 = true ->
  List.length ds1 = List.length ds2 ->
  decimal ds1 0 = decimal ds2 0 -> ds1 = ds2.
Proof.
  revert ds2. induction ds1 as [|d1 ds1 IH]; intros [|d2 ds2] H1 H2 L E; try discriminate.
  - reflexivity.
  - simpl in H1, H2, L. apply andb_true_iff in H1, H2.
    destruct H1 as [D1 H1], H2 as [D2 H2]. injection L as L.
    change (decimal (d1 :: ds1) 0) with (decimal ds1 (10 * 0 + N.of_nat (d1 - 48))) in E.
    change (decimal (d2 :: ds2) 0) with (decimal ds2 (10 * 0 + N.of_nat (d2 - 48))) in E.
    rewrite (decimal_shift ds1), (decimal_shift ds2), L in E.
    pose proof (decimal_bound _ H1) as B1. pose proof (decimal_bound _ H2) as B2.
    rewrite L in B1.
    unfold isDigit in D1, D2. apply andb_true_iff in D1, D2.
    destruct D1 as [A1 A2], D2 as [A3 A4]. apply Nat.leb_le in A1, A2, A3, A4.
    set (P := (10 ^ N.of_nat (List.length ds2))%N) in *.
    set (e1 := N.of_nat (d1 - 48)) in *. set (e2 := N.of_nat (d2 - 48)) in *.
    assert (e1 = e2) as Ed.
    { destruct (N.lt_trichotomy e1 e2) as [lt|[eq|gt]]; [exfalso | exact eq | exfalso].
      - assert ((e1 + 1) * P <= e2 * P)%N by (apply N.mul_le_mono_r; lia). lia.
      - assert ((e2 + 1) * P <= e1 * P)%N by (apply N.mul_le_mono_r; lia). lia. }
    assert (decimal ds1 0 = decimal ds2 0) as Ev by (rewrite Ed in E; lia).
    f_equal; [unfold e1, e2 in Ed; lia | now apply IH].
Qed.

Lemma decimal_lower d ds :
  List.forallb isDigit (d :: ds) = true -> d <> 48 ->
  (10 ^ N.of_nat (List.length ds) <= decimal (d :: ds) 0)%N.
Proof.
  intros H ne. simpl in H. apply andb_true_iff in H. destruct H as [D _].
  unfold isDigit in D. apply andb_true_iff in D. destruct D as [A1 A2].
  apply Nat.leb_le in A1, A2.
  change (decimal (d :: ds) 0) with (decimal ds (10 * 0 + N.of_nat (d - 48))).
  rewrite decimal_shift.
  assert (1 <= N.of_nat (d - 48))%N by lia. nia.
Qed.

Lemma arrayIndex_Some k n :
  JsObj.arrayIndex k = Some n ->
  List.forallb isDigit (codes k) = true
  /\ (List.length (codes k) = 1 \/ exists d ds', codes k = d :: ds' /\ d <> 48)
  /\ n = decimal (codes k) 0.
Proof.
  unfold JsObj.arrayIndex. fold (codes k). cbv zeta. fold isDigit.
  generalize (codes k) as ds. intros ds H.
  destruct (List.forallb isDigit ds) eqn:F; cbn [andb] in H; [| discriminate].
  destruct (andb (Nat.leb 1 _) _) eqn:L; [| discriminate].
  fold (decimal ds 0) in H.
  destruct (andb (orb _ _) _) eqn:C; [| discriminate].
  injection H as <-. split; [reflexivity|]. split; [| reflexivity].
  apply andb_true_iff in C. destruct C as [C _]. apply orb_true_iff in C.
  destruct C as [C|C]; [left; now apply Nat.eqb_eq|].
  destruct ds as [|d ds'].
  - simpl in L. discriminate.
  - right. exists d, ds'. split; [reflexivity|]. simpl in C.
    apply negb_true_iff, Nat.eqb_neq in C. exact C.
Qed.

Lemma codes_inj k1 k2 : codes k1 = codes k2 -> k1 = k2.
Proof.
  unfold codes. intros E.
  rewrite <- (string_of_list_ascii_of_string k1), <- (string_of_list_ascii_of_string k2).
  f_equal. revert E. generalize (list_ascii_of_string k2). generalize (list_ascii_of_string k1).
  induction l as [|a l IH]; intros [|b m] E; try discriminate; [reflexivity|].
  simpl in E. injection E as E1 E2. f_equal; [| now apply IH].
  rewrite <- (ascii_nat_embedding a), <- (ascii_nat_embedding b). now rewrite E1.
Qed.

(** An array index has one spelling. *)
Lemma arrayIndex_inj k1 k2 n :
  JsObj.arrayIndex k1 = Some n -> JsObj.arrayIndex k2 = Some n -> k1 = k2.
Proof.
  intros H1 H2. apply arrayIndex_Some in H1, H2.
  destruct H1 as [F1 [S1 E1]], H2 as [F2 [S2 E2]].
  apply codes_inj.
  apply decimal_same_length; [exact F1 | exact F2 | | congruence].
  assert (forall a b, List.forallb isDigit a = true -> List.forallb isDigit b = true ->
            (List.length a = 1 \/ exists d ds', a = d :: ds' /\ d <> 48) ->
            (List.length b = 1 \/ exists d ds', b = d :: ds' /\ d <> 48) ->
            decimal a 0 = decimal b 0 -> ~ List.length a < List.length b) as no.
  { intros a b Fa Fb Sa Sb E lt.
    pose proof (decimal_bound a Fa) as Ba.
    destruct Sb as [Sb|[d [b' [-> nz]]]].
    - destruct a; simpl in *; [| lia].
      destruct Sa as [Sa|[d [a' [Sa _]]]]; discriminate.
    - pose proof (decimal_lower d b' Fb nz) as Lb. simpl in lt.
      assert (10 ^ N.of_nat (List.length a) <= 10 ^ N.of_nat (List.length b'))%N
        by (apply N.pow_le_mono_r; lia).
      lia. }
  destruct (Nat.lt_trichotomy (List.length (codes k1)) (List.length (codes k2)))
    as [lt|[e|gt]]; [| exact e |].
  - exfalso. apply (no (codes k1) (codes k2)); auto. congruence.
  - exfalso. apply (no (codes k2) (codes k1)); auto. congruence.
Qed.

End Decimal.

Section Enumeration.
Import JsObj JsObjFacts.
Context {V : Type}.
Implicit Types (o : JsObj.t V) (k : string) (v : V).

Lemma replace_same k v o : getOwn k o = Some v -> replace k v o = o.
Proof.
  induction o as [|[k' v'] o IH]; simpl; [reflexivity|].
  destruct (String.eqb_spec k k') as [->|ne].
  - now intros [= ->].
  - intros H. now rewrite IH.
Qed.

Lemma keys_app o o2 : keys (o ++ o2) = keys o ++ keys o2.
Proof. apply map_app. Qed.

(** A new index larger than every key goes last. *)
Lemma insertIndex_last n k v o :
  Forall (fun x => exists m, arrayIndex x = Some m /\ (m < n)%N) (keys o) ->
  insertIndex n k v o = o ++ [(k, v)].
Proof.
  induction o as [|[k' v'] o IH]; simpl; intros H; [reflexivity|].
  inversion H as [|? ? [m [E lt]] H']; subst. rewrite E.
  apply N.ltb_lt in lt. rewrite lt. now rewrite IH.
Qed.

Lemma mayPrecede_before (l1 l2 : list string) k x :
  StronglySorted mayPrecede (l1 ++ k :: l2) -> In x l1 -> mayPrecede x k.
Proof.
  induction l1 as [|a l1 IH]; simpl; intros S i; [destruct i|].
  apply StronglySorted_inv in S. destruct S as [S F].
  destruct i as [<-|i]; [| now apply IH].
  rewrite Forall_forall in F. apply F. rewrite in_app_iff. right. now left.
Qed.

Lemma fold_define_enumerated (rest acc : JsObj.t V) :
  NoDup (keys (acc ++ rest)) -> StronglySorted mayPrecede (keys (acc ++ rest)) ->
  List.fold_left (fun o kv => define (fst kv) (snd kv) o) rest acc = acc ++ rest.
Proof.
  revert acc. induction rest as [|[k v] rest IH]; intros acc nd S.
  - simpl. now rewrite app_nil_r.
  - simpl.
    assert (define k v acc = acc ++ [(k, v)]) as ->.
    { rewrite keys_app in nd, S. simpl in nd, S.
      assert (~ In k (keys acc)) as nin.
      { intros i. apply NoDup_remove_2 in nd. apply nd. rewrite in_app_iff. now left. }
      unfold define. apply getOwn_None_iff in nin. unfold hasOwn. rewrite nin.
      destruct (arrayIndex k) as [n|] eqn:A; [| reflexivity].
      apply insertIndex_last. rewrite Forall_forall. intros x i.
      exact (mayPrecede_before _ _ _ _ S i n A). }
    rewrite IH; rewrite <- app_assoc; [reflexivity | exact nd | exact S].
Qed.

(** [JSON.parse] of the [JSON.stringify] of an object a parse built is
    that object. *)
Lemma parse_stringify o : enumerated o -> parse (stringify o) = o.
Proof. intros [nd S]. unfold parse, stringify. now apply fold_define_enumerated. Qed.

Lemma enumerated_replace k v o : enumerated o -> enumerated (replace k v o).
Proof. unfold enumerated. now rewrite keys_replace. Qed.

Lemma sorted_insertIndex n k v o :
  arrayIndex k = Some n -> ~ In k (keys o) ->
  StronglySorted mayPrecede (keys o) ->
  StronglySorted mayPrecede (keys (insertIndex n k v o)).
Proof.
  intros A. induction o as [|[k' v'] o IH]; simpl; intros nin S.
  - repeat constructor.
  - apply StronglySorted_inv in S. destruct S as [S F].
    assert (k' <> k) as ne by tauto. assert (~ In k (keys o)) as nin' by tauto.
    assert ((forall x, In x (k' :: keys o) -> mayPrecede k x) ->
            StronglySorted mayPrecede (k :: k' :: keys o)) as front.
    { intros least. constructor; [now constructor|].
      rewrite Forall_forall. exact least. }
    destruct (arrayIndex k') as [n'|] eqn:A'.
    + destruct (N.ltb_spec n' n) as [lt|ge].
      * simpl. constructor; [now apply IH|].
        rewrite Forall_forall. intros x i. apply In_keys_insertIndex in i.
        destruct i as [->|i].
        -- intros m Am. exists n'. split; [exact A'|]. congruence.
        -- rewrite Forall_forall in F. now apply F.
      * apply front. intros x [<-|i] nx Ax.
        -- exists n. split; [exact A|].
           assert (n <> nx) as d.
           { intros ->. apply ne. now apply (arrayIndex_inj _ _ nx). }
           assert (nx = n') by congruence. lia.
        -- rewrite Forall_forall in F. destruct (F x i nx Ax) as [m [Em lt]].
           exists n. split; [exact A|]. assert (m = n') by congruence. lia.
    + apply front. intros x [<-|i] nx Ax; [congruence|].
      rewrite Forall_forall in F. destruct (F x i nx Ax) as [m [Em _]]. congruence.
Qed.

Lemma sorted_app_last (l : list string) k :
  arrayIndex k = None -> StronglySorted mayPrecede l -> StronglySorted mayPrecede (l ++ [k]).
Proof.
  intros A. induction l as [|a l IH]; simpl; intros S.
  - repeat constructor.
  - apply StronglySorted_inv in S. destruct S as [S F]. constructor; [now apply IH|].
    apply Forall_app. split; [exact F|]. constructor; [| constructor].
    intros n An. congruence.
Qed.

Lemma enumerated_define k v o : enumerated o -> enumerated (define k v o).
Proof.
  intros [nd S]. split; [now apply NoDup_define|].
  unfold define. destruct (hasOwn k o) eqn:H; [now rewrite keys_replace|].
  assert (~ In k (keys o)) as nin
    by (intros i; apply hasOwn_true_iff in i; congruence).
  destruct (arrayIndex k) as [n|] eqn:A.
  - now apply sorted_insertIndex.
  - rewrite keys_app. now apply sorted_app_last.
Qed.

Lemma enumerated_set k v o : enumerated o -> enumerated (set k v o).
Proof.
  intros E. unfold set. destruct (andb _ _); [exact E | now apply enumerated_define].
Qed.

Lemma enumerated_empty : enumerated (@empty V).
Proof. split; constructor. Qed.

Lemma enumerated_parse (ms : list (string * V)) : enumerated (parse ms).
Proof.
  unfold parse. generalize enumerated_empty. generalize (@empty V).
  induction ms as [|[k v] ms IH]; simpl; intros o E; [exact E|].
  apply IH. now apply enumerated_define.
Qed.

(** Writing a value that is there already changes nothing. *)
Lemma set_same k v o : getOwn k o = Some v -> set k v o = o.
Proof.
  intros G. unfold set, define, hasOwn. rewrite G. simpl.
  rewrite andb_false_r. now apply replace_same.
Qed.

Lemma set_set k v v' o : set k v (set k v' o) = set k v o.
Proof.
  destruct (andb (String.eqb k "__proto__") (negb (hasOwn k o))) eqn:P.
  { assert (forall w, set k w o = o) as E by (intros w; unfold set; now rewrite P).
    now rewrite !E. }
  assert (forall w, set k w o = define k w o) as E by (intros w; unfold set; now rewrite P).
  rewrite !E.
  assert (hasOwn k (define k v' o) = true) as H
    by (unfold hasOwn; now rewrite getOwn_define_eq).
  unfold set. rewrite H, andb_false_r. unfold define at 1. rewrite H.
  unfold define. destruct (hasOwn k o) eqn:O.
  - clear. induction o as [|[k' w] o IH]; simpl; [reflexivity|].
    destruct (String.eqb_spec k k') as [->|ne]; simpl.
    + now rewrite String.eqb_refl.
    + rewrite (proj2 (String.eqb_neq _ _) ne). now rewrite IH.
  - assert (~ In k (keys o)) as nin
      by (intros i; apply hasOwn_true_iff in i; congruence).
    destruct (arrayIndex k) as [n|].
    + clear - nin. induction o as [|[k' w] o IH]; simpl in *.
      * now rewrite String.eqb_refl.
      * assert (k <> k') as ne by (intros ->; tauto).
        destruct (arrayIndex k') as [n'|]; [destruct (N.ltb n' n)|]; simpl;
          rewrite ?String.eqb_refl, ?(proj2 (String.eqb_neq _ _) ne); try reflexivity.
        rewrite IH by tauto. reflexivity.
    + clear - nin. induction o as [|[k' w] o IH]; simpl in *.
      * now rewrite String.eqb_refl.
      * assert (k <> k') as ne by (intros ->; tauto).
        rewrite (proj2 (String.eqb_neq _ _) ne). rewrite IH by tauto. reflexivity.
Qed.

End Enumeration.

Section IndexOrder.
Import JsObj JsObjFacts.

Lemma enumerated_files_loadIndex st : enumerated (RepoctxIndex.files (loadIndex st)).
Proof.
  unfold loadIndex. destruct (indexFile st); simpl;
    [apply enumerated_parse | apply enumerated_empty].
Qed.

Lemma enumerated_symbols_loadSymbolsIndex st :
  enumerated (SymbolsIndex.symbols (loadSymbolsIndex st)).
Proof.
  unfold loadSymbolsIndex. destruct (symbolsIndexFile st); simpl;
    [apply enumerated_parse | apply enumerated_empty].
Qed.

(** X9.  A save keeps the order of the index, which is the order of the
    listings: after a [saveFileCache] of [p] that returns, the paths of
    the index are enumerated as before when [p] had an entry, and a new
    path (one that is no canonical array index, and not [__proto__])
    comes last. *)
Theorem save_keeps_the_order_of_the_index
    (st : Store) (p : string) (d : RepoctxFileCache.t) :
  let files := RepoctxIndex.files (loadIndex st) in
  let files' := RepoctxIndex.files (loadIndex (fst (saveFileCache p d st))) in
  snd (saveFileCache p d st) = Ok tt ->
  (hasOwn p files = true -> keys files' = keys files)
  /\ (hasOwn p files = false -> arrayIndex p = None -> p <> "__proto__" ->
      keys files' = keys files ++ [p]).
Proof.
  intros files files' H.
  destruct (saveFileCache_Ok _ _ _ H) as [kwi [_ E]].
  assert (files' = set p {| FileEntry.hash := RepoctxFileCache.hash d;
                            FileEntry.ref := refFromPath p |} files) as ->.
  { unfold files'. rewrite E. simpl.
    apply parse_stringify, enumerated_set, enumerated_files_loadIndex. }
  unfold set, define. split.
  - intros O. rewrite O. simpl. rewrite andb_false_r. apply keys_replace.
  - intros O A ne. rewrite O, A, (proj2 (String.eqb_neq _ _) ne). simpl.
    rewrite keys_app. reflexivity.
Qed.

Lemma save_keeps_the_order_of_the_index_witness :
  let st := fst (saveFileCache "src/db.ts" (metaCard "src/db.ts" ["db"])
                   (fst (saveFileCache "src/auth.ts" (metaCard "src/auth.ts" ["auth"])
                           emptyStore))) in
  let files := RepoctxIndex.files (loadIndex st) in
  let files' :=
    RepoctxIndex.files
      (loadIndex (fst (saveFileCache "src/auth.ts" (metaCard "src/auth.ts" ["session"]) st))) in
  (hasOwn "src/auth.ts" files = true -> keys files' = keys files)
  /\ (hasOwn "src/auth.ts" files = false -> arrayIndex "src/auth.ts" = None ->
      "src/auth.ts" <> "__proto__" -> keys files' = keys files ++ ["src/auth.ts"]).
Proof.
  apply (save_keeps_the_order_of_the_index
           (fst (saveFileCache "src/db.ts" (metaCard "src/db.ts" ["db"])
                   (fst (saveFileCache "src/auth.ts" (metaCard "src/auth.ts" ["auth"])
                           emptyStore))))
           "src/auth.ts" (metaCard "src/auth.ts" ["session"])).
  vm_compute. reflexivity.
Defined.

(** X10.  The last save of a symbol wins: [saveSymbol] for a name leaves
    the store it would have left without the save for that name before
    it.  One record and one index entry per name: nothing of the earlier
    card is kept. *)
Theorem last_symbol_save_wins
    (env1 env2 : Env) (a1 a2 : SaveSymbolArgs.t) (st : Store) :
  SaveSymbolArgs.symbol a1 = SaveSymbolArgs.symbol a2 ->
  fst (saveSymbol env2 a2 (fst (saveSymbol env1 a1 st))) = fst (saveSymbol env2 a2 st).
Proof.
  intros same.
  unfold saveSymbol, saveSymbolCard, bind, read, write, ret. simpl.
  unfold writeSymbolsIndex, writeSymbolCard. simpl. rewrite same.
  f_equal.
  - f_equal. unfold loadSymbolsIndex at 1. simpl.
    rewrite parse_stringify by apply enumerated_set, enumerated_symbols_loadSymbolsIndex.
    apply set_set.
  - apply insert_insert_eq.
Qed.

Lemma last_symbol_save_wins_witness :
  fst (saveSymbol gitEnv (symbolArgs "getUser" ["dal"; "users"])
         (fst (saveSymbol usersEnv (symbolArgs "getUser" ["dal"]) twoSymbols)))
  = fst (saveSymbol gitEnv (symbolArgs "getUser" ["dal"; "users"]) twoSymbols).
Proof.
  apply (last_symbol_save_wins usersEnv gitEnv (symbolArgs "getUser" ["dal"])
           (symbolArgs "getUser" ["dal"; "users"]) twoSymbols).
  reflexivity.
Defined.
End IndexOrder.

(** ** Users of a module, virtual entries and staleness *)

Section ResolveRelative.
Local Arguments String.append : simpl nomatch.

Lemma lacks_append sep a b : lacks sep (a +:+ b) = andb (lacks sep a) (lacks sep b).
Proof.
  induction a as [|c a IH]; simpl; [reflexivity|].
  rewrite IH. now rewrite andb_assoc.
Qed.

Lemma splitAux_components sep s cur :
  lacks sep cur = true -> Forall (fun x => lacks sep x = true) (Str.splitAux sep s cur).
Proof.
  revert cur. induction s as [|c s IH]; simpl; intros cur H.
  - now constructor.
  - destruct (Ascii.eqb c sep) eqn:E.
    + constructor; [exact H | now apply IH].
    + apply IH. rewrite lacks_append, H. simpl. now rewrite E.
Qed.

Lemma segments_components p : List.forallb component (Path.segments p) = true.
Proof.
  unfold Path.segments, Str.split.
  pose proof (splitAux_components "/" p EmptyString eq_refl) as F.
  revert F. generalize (Str.splitAux "/" p EmptyString) as l.
  induction l as [|x l IH]; intros F; [reflexivity|].
  inversion F as [|? ? Hx F']; subst. simpl.
  destruct (Str.truthy x) eqn:T; [| now apply IH].
  simpl. unfold component. rewrite T, Hx. simpl. now apply IH.
Qed.

Lemma split_join sep (l : list string) :
  l <> [] -> List.forallb (lacks sep) l = true ->
  Str.split sep (Str.join (String sep EmptyString) l) = l.
Proof.
  unfold Str.split, Str.join. intros ne. induction l as [|x l IH]; [congruence|].
  simpl. intros H. apply andb_true_iff in H as [Hx Hl].
  destruct l as [|y l].
  - now rewrite splitAux_lacks.
  - change (x +:+ String sep EmptyString +:+ String.concat (String sep EmptyString) (y :: l))
      with (x +:+ String sep (String.concat (String sep EmptyString) (y :: l))).
    rewrite (splitAux_first _ _ _ _ Hx). simpl String.append. f_equal.
    apply IH; [discriminate | exact Hl].
Qed.

Lemma filter_truthy_components (l : list string) :
  List.forallb component l = true -> List.filter Str.truthy l = l.
Proof.
  induction l as [|x l IH]; simpl; [reflexivity|]. intros H.
  apply andb_true_iff in H as [Hx Hl]. unfold component in Hx.
  apply andb_true_iff in Hx as [T _]. rewrite T. now rewrite IH.
Qed.

Lemma segments_join (l : list string) :
  List.forallb component l = true -> Path.segments (Str.join "/" l) = l.
Proof.
  intros H. unfold Path.segments. destruct l as [|x l]; [reflexivity|].
  rewrite split_join; [now apply filter_truthy_components | discriminate |].
  rewrite forallb_forall in *. intros y i. specialize (H y i).
  unfold component in H. now apply andb_true_iff in H as [_ H].
Qed.

Lemma isAbsolute_join (l : list string) :
  List.forallb component l = true -> Path.isAbsolute (Str.join "/" l) = false.
Proof.
  intros H. destruct l as [|x l]; [reflexivity|].
  simpl in H. apply andb_true_iff in H as [Hx _]. unfold component in Hx.
  apply andb_true_iff in Hx as [T L].
  unfold Path.isAbsolute, Str.startsWith, Str.join.
  destruct x as [|c x]; [discriminate T|].
  simpl in L. apply andb_true_iff in L as [L _]. apply negb_true_iff in L.
  assert (forall rest, String.prefix "/" (String c rest) = false) as P.
  { intros rest.
    change (String.prefix "/" (String c rest))
      with (if ascii_dec "/"%char c then String.prefix EmptyString rest else false).
    destruct (ascii_dec "/"%char c) as [e|n]; [| reflexivity].
    subst c. now rewrite Ascii.eqb_refl in L. }
  simpl. destruct l; simpl; apply P.
Qed.

Lemma normalize_app (l m acc : list string) :
  Path.normalize (l ++ m) acc = Path.normalize m (List.rev (Path.normalize l acc)).
Proof.
  revert acc. induction l as [|s l IH]; simpl; intros acc.
  - now rewrite rev_involutive.
  - destruct (String.eqb s "."); [apply IH|].
    destruct (String.eqb s ".."); apply IH.
Qed.

Lemma normalize_ups {A} (u : list A) (m acc : list string) :
  Path.normalize (List.map (fun _ => "..") u ++ m) acc
  = Path.normalize m (List.skipn (List.length u) acc).
Proof.
  revert acc. induction u as [|a u IH]; simpl; intros acc; [reflexivity|].
  rewrite IH. destruct acc; [now rewrite skipn_nil | reflexivity].
Qed.

(** What [normalizeString] leaves are components other than [.] and [..]. *)
Lemma normalize_components (segs acc : list string) :
  List.forallb component segs = true ->
  List.forallb (fun s => andb (component s) (plain s)) acc = true ->
  List.forallb (fun s => andb (component s) (plain s)) (Path.normalize segs acc) = true.
Proof.
  revert acc. induction segs as [|s segs IH]; simpl; intros acc H A.
  - rewrite forallb_forall in *. intros x i. apply A. now apply in_rev.
  - apply andb_true_iff in H as [Hs H].
    destruct (String.eqb s ".") eqn:E1; [now apply IH|].
    destruct (String.eqb s "..") eqn:E2.
    + apply IH; [exact H|]. destruct acc; [reflexivity|].
      simpl in A. now apply andb_true_iff in A as [_ A].
    + apply IH; [exact H|]. simpl. apply andb_true_iff. split; [| exact A].
      unfold plain. now rewrite Hs, E1, E2.
Qed.

Lemma resolveSegs_components cwd p :
  List.forallb (fun s => andb (component s) (plain s)) (Path.resolveSegs cwd p) = true.
Proof.
  unfold Path.resolveSegs. apply normalize_components; [| reflexivity].
  destruct (Path.isAbsolute p); [apply segments_components|].
  rewrite forallb_app, !segments_components. reflexivity.
Qed.

Lemma dropCommon_spec (a b u d : list string) :
  Path.dropCommon a b = (u, d) -> exists c, a = c ++ u /\ b = c ++ d.
Proof.
  revert b. induction a as [|x a IH]; intros b H.
  - exists []. simpl in H. destruct b; injection H as <- <-; split; reflexivity.
  - destruct b as [|y b]; simpl in H.
    + exists []. injection H as <- <-. split; reflexivity.
    + destruct (String.eqb_spec x y) as [->|ne].
      * destruct (IH _ H) as [c [-> ->]]. exists (y :: c). split; reflexivity.
      * exists []. injection H as <- <-. split; reflexivity.
Qed.

(** The path [path.relative] gives leads, from the working directory, to
    the file it was computed for. *)
Lemma resolve_relative cwd f :
  Path.resolve cwd (Path.relative cwd f) = Path.resolve cwd f.
Proof.
  unfold Path.resolve. f_equal. unfold Path.relative.
  destruct (Path.dropCommon _ _) as [up down] eqn:D.
  destruct (dropCommon_spec _ _ _ _ D) as [c [C F]].
  pose proof (resolveSegs_components cwd f) as G. rewrite F in G.
  rewrite forallb_app in G. apply andb_true_iff in G as [_ G].
  assert (List.forallb component (List.map (fun _ : string => "..") up ++ down) = true) as K.
  { rewrite forallb_app. apply andb_true_iff. split.
    - clear. induction up; simpl; [reflexivity | exact IHup].
    - rewrite forallb_forall in *. intros x i. specialize (G x i).
      now apply andb_true_iff in G as [G _]. }
  assert (List.forallb plain down = true) as P.
  { rewrite forallb_forall in *. intros x i. specialize (G x i).
    now apply andb_true_iff in G as [_ G]. }
  unfold Path.resolveSegs at 1. rewrite (isAbsolute_join _ K), (segments_join _ K).
  rewrite normalize_app.
  assert (Path.normalize (Path.segments cwd) [] = c ++ up) as ->.
  { rewrite <- C. unfold Path.resolveSegs. simpl. now rewrite app_nil_r. }
  rewrite normalize_ups, rev_app_distr.
  rewrite <- (length_rev up), skipn_app, Nat.sub_diag, skipn_all. simpl.
  change (List.skipn 0 (List.rev c)) with (List.rev c).
  rewrite (normalize_plain _ _ P), rev_involutive. now symmetry.
Qed.

Lemma replaceAll_lacks a b s : lacks a s = true -> Str.replaceAll a b s = s.
Proof.
  induction s as [|c s IH]; simpl; [reflexivity|]. intros H.
  apply andb_true_iff in H as [H1 H2]. apply negb_true_iff in H1.
  now rewrite H1, IH.
Qed.

End ResolveRelative.

Section Digest.
Local Arguments String.append : simpl nomatch.

Lemma length_append (a b : string) :
  String.length (a +:+ b) = String.length a + String.length b.
Proof. induction a as [|c a IH]; simpl; [reflexivity | now rewrite IH]. Qed.

Lemma length_beBytes n x : List.length (Sha1.beBytes n x) = n.
Proof.
  revert x. induction n as [|n IH]; simpl; intros x; [reflexivity|].
  rewrite length_app, IH. simpl. lia.
Qed.

Lemma length_hexBytes (l : list Z) :
  String.length (String.concat EmptyString (List.map Sha1.hexByte l)) = 2 * List.length l.
Proof.
  induction l as [|x l IH]; [reflexivity|].
  destruct l as [|y l]; [reflexivity|].
  change (String.concat EmptyString (List.map Sha1.hexByte (x :: y :: l)))
    with (Sha1.hexByte x +:+ EmptyString
          +:+ String.concat EmptyString (List.map Sha1.hexByte (y :: l))).
  rewrite !length_append, IH. simpl List.length. simpl String.length. lia.
Qed.

(** A digest is forty characters long. *)
Lemma length_hex s : String.length (Sha1.hex s) = 40.
Proof.
  unfold Sha1.hex.
  destruct (List.fold_left Sha1.block _ _) as [[[[h0 h1] h2] h3] h4].
  rewrite length_hexBytes. cbn [List.flat_map].
  rewrite !length_app, !length_beBytes. reflexivity.
Qed.

(** No file hashes to the mark of a virtual entry. *)
Lemma hex_not_meta s : String.eqb (Sha1.hex s) "meta" = false.
Proof.
  apply String.eqb_neq. intros E. pose proof (length_hex s) as L.
  rewrite E in L. discriminate L.
Qed.

End Digest.

Section StaleList.
Import JsObj JsObjFacts.

Lemma getStale_flat_map env st :
  getStale env st
  = List.flat_map
      (fun rel => match loadFileCache rel st with
                  | None => []
                  | Some card => staleReport rel (classify env rel card)
                  end)
      (keys (RepoctxIndex.files (loadIndex st))).
Proof.
  unfold getStale.
  rewrite (fold_left_ext _ _ _ _ (staleStep_classify env st)).
  now rewrite fold_left_push.
Qed.

Lemma staleReport_path rel s e : In e (staleReport rel s) -> StaleEntry.path e = rel.
Proof. destruct s; simpl; [intros [] | |]; intros [<-|[]]; reflexivity. Qed.

(** What a list built key by key says of one key. *)
Lemma filter_flat_map_key {B} (g : string -> list B) (key : B -> string)
    (ks : list string) (rel : string) :
  NoDup ks -> (forall k e, In e (g k) -> key e = k) ->
  List.filter (fun e => String.eqb (key e) rel) (List.flat_map g ks)
  = if Str.mem rel ks then g rel else [].
Proof.
  intros nd K.
  assert (forall k, List.filter (fun e => String.eqb (key e) rel) (g k)
                    = if String.eqb rel k then g rel else []) as one.
  { intros k. destruct (String.eqb_spec rel k) as [<-|ne].
    - apply forallb_filter_id. apply forallb_forall. intros e i.
      apply String.eqb_eq. now apply K.
    - specialize (K k). induction (g k) as [|e l IH]; [reflexivity|]. simpl.
      assert (key e = k) as -> by (apply K; now left).
      rewrite (proj2 (String.eqb_neq k rel)) by congruence.
      apply IH. intros e' i. apply K. now right. }
  induction ks as [|k ks IH]; [reflexivity|]. simpl.
  rewrite filter_app, one. inversion nd as [|? ? nin nd']; subst.
  rewrite (IH nd').
  destruct (String.eqb_spec rel k) as [<-|ne]; simpl; [| reflexivity].
  destruct (Str.mem rel ks) eqn:M; [apply mem_In in M; contradiction|].
  apply app_nil_r.
Qed.

Lemma getStale_about env st rel :
  List.filter (fun e => String.eqb (StaleEntry.path e) rel) (getStale env st)
  = match loadFileCache rel st with
    | None => []
    | Some card => staleReport rel (classify env rel card)
    end.
Proof.
  rewrite getStale_flat_map, filter_flat_map_key.
  - destruct (Str.mem rel _) eqn:M; [reflexivity|].
    unfold loadFileCache, get.
    destruct (getOwn rel _) eqn:G; [| now destruct (inherited rel)].
    assert (In rel (keys (RepoctxIndex.files (loadIndex st)))) as i.
    { destruct (in_dec string_dec rel (keys (RepoctxIndex.files (loadIndex st)))) as [i|n];
        [exact i|]. apply getOwn_None_iff in n. congruence. }
    apply mem_In in i. congruence.
  - apply NoDup_files_loadIndex.
  - intros k e. destruct (loadFileCache k st); [apply staleReport_path | intros []].
Qed.

End StaleList.

(** X11.  The list of users [findWhereUsed] gives for a module has at most
    five names, every one a non-empty line of what [grep] printed; it
    never has the module itself, under either spelling, nor a path
    through [node_modules] or [.repoctx].  When [grep] fails the list is
    empty. *)
Theorem findWhereUsed_is_short_and_clean (env : Env) (relPath : string) :
  List.length (findWhereUsed env relPath) <= 5
  /\ (forall f, In f (findWhereUsed env relPath) ->
        f <> EmptyString /\ f <> relPath /\ f <> "./" +:+ relPath
        /\ Str.includes f "node_modules" = false
        /\ Str.includes f ".repoctx" = false
        /\ exists raw,
             grepFiles env (Path.basename relPath (Path.extname relPath)) = Stdout raw
             /\ In f (Str.split (ascii_of_nat 10) (Str.trim raw)))
  /\ (forall message,
        grepFiles env (Path.basename relPath (Path.extname relPath)) = Failed message ->
        findWhereUsed env relPath = []).
Proof.
  unfold findWhereUsed.
  destruct (grepFiles env _) as [raw|message]; simpl.
  - split; [apply firstn_le_length|]. split; [| discriminate].
    intros f i.
    assert (forall (l : list string), In f (List.firstn 5 l) -> In f l) as sub.
    { intros l j. rewrite <- (firstn_skipn 5 l). apply in_or_app. now left. }
    apply sub in i. rewrite !filter_In in i.
    destruct i as [[[i T] N] S].
    apply andb_true_iff in N as [N1 N2], S as [S1 S2].
    apply negb_true_iff in N1, N2, S1, S2.
    apply String.eqb_neq in S1, S2.
    unfold Str.truthy in T. apply negb_true_iff, String.eqb_neq in T.
    repeat split; auto. now exists raw.
  - split; [lia|]. split; [intros f [] | reflexivity].
Qed.

(** X12.  A virtual entry never touches the working tree and is never
    stale.  With [meta], [saveManual] reads only the clock and the head
    of the repository: it does the same in every working directory and
    whatever the files and [grep] are; the path is the one given, with
    slashes for backslashes.  Once saved, the entry is in no stale
    report, whatever the working tree is. *)
Theorem meta_save_ignores_the_working_tree
    (env env' : Env) (a : SaveArgs.t) (st : Store) :
  let rel := Str.replaceAll backslash "/" (SaveArgs.filePath a) in
  SaveArgs.meta a = true ->
  (now env' = now env -> gitRevParseHead env' = gitRevParseHead env ->
   saveManual env' a st = saveManual env a st)
  /\ (snd (saveManual env a st) = Ok rel \/ snd (saveManual env a st) = Throw TypeError)
  /\ (snd (saveManual env a st) = Ok rel ->
      forall e, In e (getStale env' (fst (saveManual env a st))) -> StaleEntry.path e <> rel).
Proof.
  intros rel M.
  assert (relOf env (SaveArgs.meta a) (SaveArgs.filePath a) = rel) as R
    by (unfold relOf; now rewrite M).
  split; [| split].
  - intros N H. unfold saveManual, relOf, getGitHead. rewrite M, N, H. reflexivity.
  - destruct (snd (saveManual env a st)) as [r|e] eqn:S.
    + left. revert S. unfold saveManual, bind, lift, ret. rewrite R, M.
      destruct (saveFileCache rel _ st) as [st' [[]|e]]; simpl; congruence.
    + right. revert S. unfold saveManual, bind, lift, ret. rewrite R, M.
      rewrite saveFileCache_eq. destruct (addPath _ _ _) eqn:A; simpl; [discriminate|].
      intros [= <-]. now rewrite (addPath_Throw _ _ _ _ A).
  - intros S e i E.
    assert (In e (List.filter (fun e => String.eqb (StaleEntry.path e) rel)
                    (getStale env' (fst (saveManual env a st))))) as j
      by (apply filter_In; split; [exact i | now apply String.eqb_eq]).
    rewrite getStale_about in j.
    pose proof (saveManual_cases env a st) as C. simpl in C. rewrite R in C.
    destruct (C S) as (hash & card & Hh & Hc & Sv & F & _).
    rewrite M in Hh. injection Hh as <-.
    rewrite F, (loadFileCache_saved _ _ _ Sv) in j.
    destruct (andb _ _); [destruct j|].
    unfold classify in j. rewrite Hc in j. destruct j.
Qed.

Lemma meta_save_ignores_the_working_tree_witness :
  let a := {| SaveArgs.filePath := "docs\auth flow";
              SaveArgs.summary := "How sessions are issued";
              SaveArgs.symbols := [];
              SaveArgs.exports := None;
              SaveArgs.keywords := ["auth"];
              SaveArgs.dependencies := None;
              SaveArgs.footguns := None;
              SaveArgs.delta := None;
              SaveArgs.meta := true |} in
  let rel := Str.replaceAll backslash "/" (SaveArgs.filePath a) in
  (now gitEnv = now usersEnv -> gitRevParseHead gitEnv = gitRevParseHead usersEnv ->
   saveManual gitEnv a emptyStore = saveManual usersEnv a emptyStore)
  /\ (snd (saveManual usersEnv a emptyStore) = Ok rel
      \/ snd (saveManual usersEnv a emptyStore) = Throw TypeError)
  /\ (snd (saveManual usersEnv a emptyStore) = Ok rel ->
      forall e, In e (getStale gitEnv (fst (saveManual usersEnv a emptyStore))) ->
                StaleEntry.path e <> rel).
Proof.
  apply (meta_save_ignores_the_working_tree usersEnv gitEnv
           {| SaveArgs.filePath := "docs\auth flow";
              SaveArgs.summary := "How sessions are issued";
              SaveArgs.symbols := [];
              SaveArgs.exports := None;
              SaveArgs.keywords := ["auth"];
              SaveArgs.dependencies := None;
              SaveArgs.footguns := None;
              SaveArgs.delta := None;
              SaveArgs.meta := true |} emptyStore).
  reflexivity.
Defined.

(** X13.  Staleness round trip.  Let [saveManual] save the card of a file
    whose relative path has no backslash (and is not [__proto__]).  Then
    in every later state of the working tree, what [getStale] says of
    that path is the report of the file against the bytes hashed at the
    save: nothing when the file has the same digest, "file content
    changed" when it has another, "file not found" when it cannot be
    read.  The path is reported at most once. *)
Theorem staleness_after_save
    (env env' : Env) (a : SaveArgs.t) (st : Store) (bytes : string) :
  let rel := relOf env (SaveArgs.meta a) (SaveArgs.filePath a) in
  let file := Path.resolve (cwd env) (SaveArgs.filePath a) in
  SaveArgs.meta a = false ->
  snd (saveManual env a st) = Ok rel ->
  readFile env file = Some bytes ->
  lacks backslash (Path.relative (cwd env) (SaveArgs.filePath a)) = true ->
  rel <> "__proto__" ->
  cwd env' = cwd env ->
  List.filter (fun e => String.eqb (StaleEntry.path e) rel)
    (getStale env' (fst (saveManual env a st)))
  = staleReport rel
      match readFile env' file with
      | None => Missing
      | Some bytes' => if String.eqb (Sha1.hex bytes') (Sha1.hex bytes) then Fresh else Stale
      end.
Proof.
  intros rel file M S B L ne W.
  destruct (saveManual_cases env a st S) as (hash & card & Hh & Hc & Sv & F & _).
  fold rel in Sv, F.
  rewrite M in Hh. unfold fileHash in Hh. fold file in Hh. rewrite B in Hh.
  injection Hh as <-.
  rewrite getStale_about, F, (loadFileCache_saved _ _ _ Sv).
  rewrite (proj2 (String.eqb_neq _ _) ne). simpl.
  f_equal. unfold classify. rewrite Hc, hex_not_meta, W.
  assert (Path.resolve (cwd env) rel = file) as ->.
  { unfold rel, relOf. rewrite M, (replaceAll_lacks _ _ _ L). apply resolve_relative. }
  reflexivity.
Qed.

Lemma staleness_after_save_witness :
  let env' := withFile usersEnv "/repo/src/users/dal.js" (Some "export const getUser = 2;") in
  let rel := relOf usersEnv (SaveArgs.meta saveDalInFull) (SaveArgs.filePath saveDalInFull) in
  let file := Path.resolve (cwd usersEnv) (SaveArgs.filePath saveDalInFull) in
  List.filter (fun e => String.eqb (StaleEntry.path e) rel)
    (getStale env' (fst (saveManual usersEnv saveDalInFull emptyStore)))
  = staleReport rel
      match readFile env' file with
      | None => Missing
      | Some bytes' =>
          if String.eqb (Sha1.hex bytes') (Sha1.hex "export const getUser = 1;")
          then Fresh else Stale
      end.
Proof.
  apply (staleness_after_save usersEnv
           (withFile usersEnv "/repo/src/users/dal.js" (Some "export const getUser = 2;"))
           saveDalInFull emptyStore "export const getUser = 1;").
  - reflexivity.
  - vm_compute. reflexivity.
  - vm_compute. reflexivity.
  - vm_compute. reflexivity.
  - vm_compute. discriminate.
  - reflexivity.
Defined.

Section StaleReport.
Import JsObj JsObjFacts.

Lemma NoDup_keys_flat_map {B} (g : string -> list B) (key : B -> string) (ks : list string) :
  NoDup ks ->
  (forall k, List.length (g k) <= 1) -> (forall k e, In e (g k) -> key e = k) ->
  NoDup (List.map key (List.flat_map g ks)).
Proof.
  intros nd one K. induction nd as [|k ks nin nd IH]; simpl; [constructor|].
  rewrite map_app. apply NoDup_app; [| exact IH |].
  - specialize (one k). destruct (g k) as [|e [|e' l]]; simpl in *;
      [constructor | repeat constructor; tauto | lia].
  - intros x i j. apply in_map_iff in i, j.
    destruct i as [e [<- i]], j as [e' [E j]]. apply in_flat_map in j.
    destruct j as [k' [ik' j]]. rewrite (K _ _ i) in E. rewrite (K _ _ j) in E.
    subst k'. contradiction.
Qed.


(** X14.  The stale report names a path once at most, and only a path of
    the index whose card loads and is no virtual entry; its reason is one
    of the two texts. *)
Theorem stale_report_names_each_path_once (env : Env) (st : Store) :
  NoDup (List.map StaleEntry.path (getStale env st))
  /\ forall e, In e (getStale env st) ->
       In (StaleEntry.path e) (keys (RepoctxIndex.files (loadIndex st)))
       /\ (exists card, loadFileCache (StaleEntry.path e) st = Some card
                        /\ RepoctxFileCache.hash card <> "meta")
       /\ (StaleEntry.reason e = "file content changed"
           \/ StaleEntry.reason e = "file not found").
Proof.
  rewrite getStale_flat_map. split.
  - apply NoDup_keys_flat_map.
    + apply NoDup_files_loadIndex.
    + intros k. destruct (loadFileCache k st) as [card|]; [| simpl; lia].
      destruct (classify env k card); simpl; lia.
    + intros k e. destruct (loadFileCache k st); [apply staleReport_path | intros []].
  - intros e i. apply in_flat_map in i. destruct i as [k [ik i]].
    destruct (loadFileCache k st) as [card|] eqn:L; [| destruct i].
    assert (StaleEntry.path e = k) as P by (eapply staleReport_path; exact i).
    rewrite P. split; [exact ik|]. split.
    + exists card. split; [exact L|]. intros M. unfold classify in i.
      rewrite M in i. destruct i.
    + destruct (classify env k card); simpl in i; [destruct i | |];
        destruct i as [<-|[]]; simpl; tauto.
Qed.

End StaleReport.

(** ** The digest of the public surface *)

Section SortedSymbols.

Lemma compareUnits_eq a b : Str.compareUnits a b = Eq -> a = b.
Proof.
  revert b. induction a as [|x a IH]; intros [|y b]; simpl; try discriminate; [reflexivity|].
  destruct (N.compare_spec x y) as [->|l|g]; try discriminate.
  intros H. now rewrite (IH b H).
Qed.

Lemma compareUnits_antisym a b : Str.compareUnits b a = CompOpp (Str.compareUnits a b).
Proof.
  revert b. induction a as [|x a IH]; intros [|y b]; simpl; try reflexivity.
  rewrite (N.compare_antisym x y).
  destruct (N.compare x y); simpl; [apply IH | reflexivity | reflexivity].
Qed.

Lemma compareUnits_lt_trans a b c :
  Str.compareUnits a b = Lt -> Str.compareUnits b c = Lt -> Str.compareUnits a c = Lt.
Proof.
  revert b c. induction a as [|x a IH]; intros [|y b] [|z c]; simpl;
    try reflexivity; try discriminate.
  destruct (N.compare_spec x y) as [e1|l1|g1]; try discriminate;
    destruct (N.compare_spec y z) as [e2|l2|g2]; try discriminate;
    destruct (N.compare_spec x z) as [e3|l3|g3]; try reflexivity; try lia.
  apply IH.
Qed.

Lemma compareUnits_le_trans a b c :
  Str.compareUnits a b <> Gt -> Str.compareUnits b c <> Gt -> Str.compareUnits a c <> Gt.
Proof.
  intros H1 H2.
  destruct (Str.compareUnits a b) eqn:E1; [| | congruence].
  - apply compareUnits_eq in E1. now subst.
  - destruct (Str.compareUnits b c) eqn:E2; [| | congruence].
    + apply compareUnits_eq in E2. subst. now rewrite E1.
    + now rewrite (compareUnits_lt_trans _ _ _ E1 E2).
Qed.

Lemma byteValues_inj x y : Str.byteValues x = Str.byteValues y -> x = y.
Proof.
  unfold Str.byteValues. revert y.
  induction x as [|c x IH]; intros [|d y]; simpl; try discriminate; [reflexivity|].
  intros H. injection H as H1 H2.
  rewrite <- (ascii_N_embedding c), <- (ascii_N_embedding d), H1. f_equal. now apply IH.
Qed.

(** The order of strings is total, antisymmetric and transitive. *)
Lemma leb_total x y : Str.leb x y = true \/ Str.leb y x = true.
Proof.
  unfold Str.leb, Str.compare.
  rewrite (compareUnits_antisym (Str.codeUnits x) (Str.codeUnits y)).
  rewrite (compareUnits_antisym (Str.byteValues x) (Str.byteValues y)).
  destruct (Str.compareUnits (Str.codeUnits x) (Str.codeUnits y)); simpl; auto.
  destruct (Str.compareUnits (Str.byteValues x) (Str.byteValues y)); simpl; auto.
Qed.

Lemma leb_antisym x y : Str.leb x y = true -> Str.leb y x = true -> x = y.
Proof.
  unfold Str.leb, Str.compare.
  rewrite (compareUnits_antisym (Str.codeUnits x) (Str.codeUnits y)).
  rewrite (compareUnits_antisym (Str.byteValues x) (Str.byteValues y)).
  destruct (Str.compareUnits (Str.codeUnits x) (Str.codeUnits y)); simpl; try discriminate.
  destruct (Str.compareUnits (Str.byteValues x) (Str.byteValues y)) eqn:E; simpl;
    try discriminate.
  intros _ _. apply byteValues_inj. now apply compareUnits_eq.
Qed.

Lemma leb_trans x y z : Str.leb x y = true -> Str.leb y z = true -> Str.leb x z = true.
Proof.
  unfold Str.leb, Str.compare.
  destruct (Str.compareUnits (Str.codeUnits x) (Str.codeUnits y)) eqn:E1; try discriminate.
  - apply compareUnits_eq in E1. rewrite E1.
    destruct (Str.compareUnits (Str.codeUnits y) (Str.codeUnits z)); try discriminate;
      [| reflexivity].
    intros H1 H2.
    assert (Str.compareUnits (Str.byteValues x) (Str.byteValues z) <> Gt) as H.
    { apply (compareUnits_le_trans _ (Str.byteValues y)).
      - intros G. now rewrite G in H1.
      - intros G. now rewrite G in H2. }
    destruct (Str.compareUnits (Str.byteValues x) (Str.byteValues z)); congruence.
  - intros _.
    destruct (Str.compareUnits (Str.codeUnits y) (Str.codeUnits z)) eqn:E2; try discriminate.
    + apply compareUnits_eq in E2. rewrite <- E2, E1. reflexivity.
    + rewrite (compareUnits_lt_trans _ _ _ E1 E2). reflexivity.
Qed.

(** Two insertions into a list commute. *)
Lemma insertSorted_comm (x y : string) (l : list string) :
  insertSorted x (insertSorted y l) = insertSorted y (insertSorted x l).
Proof.
  induction l as [|z l IH]; simpl.
  - destruct (Str.leb x y) eqn:A, (Str.leb y x) eqn:B; try reflexivity.
    + now rewrite (leb_antisym _ _ A B).
    + destruct (leb_total x y); congruence.
  - destruct (Str.leb y z) eqn:Y, (Str.leb x z) eqn:X; simpl.
    + destruct (Str.leb x y) eqn:A, (Str.leb y x) eqn:B; rewrite ?X, ?Y; try reflexivity.
      * now rewrite (leb_antisym _ _ A B).
      * destruct (leb_total x y); congruence.
    + rewrite Y. destruct (Str.leb x y) eqn:A; [| now rewrite X].
      rewrite (leb_trans _ _ _ A Y) in X. discriminate.
    + rewrite X. destruct (Str.leb y x) eqn:B; [| now rewrite Y].
      rewrite (leb_trans _ _ _ B X) in Y. discriminate.
    + now rewrite X, Y, IH.
Qed.

Lemma sortStrings_Permutation (l1 l2 : list string) :
  Permutation l1 l2 -> sortStrings l1 = sortStrings l2.
Proof.
  unfold sortStrings. induction 1; simpl.
  - reflexivity.
  - now f_equal.
  - apply insertSorted_comm.
  - congruence.
Qed.

(** [sort] orders code units: U+1F600 (the pair D83D DE00) comes before
    U+E000, and after U+00E9 and the letter z. *)
Example sortStrings_code_units :
  let grin := Str.bytes [240; 159; 152; 128] in
  let private := Str.bytes [238; 128; 128] in
  let eacute := Str.bytes [195; 169] in
  Str.codeUnits grin = [55357; 56832]%N
  /\ Str.codeUnits private = [57344]%N
  /\ Str.codeUnits eacute = [233]%N
  /\ sortStrings [private; "z"; grin; eacute; "Z"] = ["Z"; "z"; eacute; grin; private].
Proof. vm_compute. repeat split; reflexivity. Qed.

End SortedSymbols.

(** X15.  The digest of the public surface depends on the set of symbols
    given and on how often each is given, not on their order:
    [computePublicSurfaceHash] gives the same twelve characters for two
    lists that are permutations of one another. *)
Theorem public_surface_hash_ignores_order (symbols1 symbols2 : list string) :
  Permutation symbols1 symbols2 ->
  computePublicSurfaceHash symbols1 = computePublicSurfaceHash symbols2.
Proof.
  intros P. unfold computePublicSurfaceHash. now rewrite (sortStrings_Permutation _ _ P).
Qed.

Lemma public_surface_hash_ignores_order_witness :
  computePublicSurfaceHash ["getUser"; "createUser"; "deleteUser"]
  = computePublicSurfaceHash ["createUser"; "deleteUser"; "getUser"].
Proof.
  apply (public_surface_hash_ignores_order ["getUser"; "createUser"; "deleteUser"]
           ["createUser"; "deleteUser"; "getUser"]).
  apply (perm_trans (l' := ["createUser"; "getUser"; "deleteUser"])).
  - apply perm_swap.
  - apply perm_skip. apply perm_swap.
Defined.


(** ** Checkpoints *)

(** X16.  A checkpoint and the diff right after it.  When both [git]
    commands print, [saveCheckpoint] stores their output trimmed and the
    time, replacing whatever checkpoint there was and touching no card;
    [loadCheckpoint] gives it back; and [runDiff], as long as [HEAD] is
    the commit of the checkpoint, answers that nothing changed, naming
    the first seven characters of the commit, without running a diff. *)
Theorem checkpoint_then_diff
    (formatChanges : Checkpoint.t -> string -> string)
    (env env' : Env) (st : Store) (head branch : string) :
  let cp := {| Checkpoint.head := Str.trim head; Checkpoint.branch := Str.trim branch;
               Checkpoint.at_ := now env |} in
  let st' := fst (saveCheckpoint env st) in
  gitRevParseHead env = Stdout head ->
  gitRevParseAbbrevRefHead env = Stdout branch ->
  snd (saveCheckpoint env st) = Ok cp
  /\ loadCheckpoint st' = Some cp
  /\ (indexFile st' = indexFile st /\ filesDir st' = filesDir st
      /\ symbolsIndexFile st' = symbolsIndexFile st /\ symbolsDir st' = symbolsDir st)
  /\ (forall out, gitRevParseHead env' = Stdout out -> Str.trim out = Str.trim head ->
        runDiff formatChanges env' st'
        = "No changes since checkpoint (" +:+ String.substring 0 7 (Str.trim head) +:+ ").")
  /\ (forall message, gitRevParseHead env' = Failed message ->
        runDiff formatChanges env' st' = "Not in a git repository.").
Proof.
  intros cp st' H B. unfold st', saveCheckpoint, bind, lift, write, ret, execSync.
  rewrite H, B. simpl. repeat split.
  - intros out H' E. unfold runDiff, loadCheckpoint, execSync. simpl.
    rewrite H', E, String.eqb_refl. reflexivity.
  - intros message H'. unfold runDiff, loadCheckpoint, execSync. simpl.
    now rewrite H'.
Qed.

Lemma checkpoint_then_diff_witness :
  let cp := {| Checkpoint.head := Str.trim ("3f2a9c1d5e7b8a6c4d2e0f1a3b5c7d9e1f3a5b7c" +:+ nl);
               Checkpoint.branch := Str.trim ("main" +:+ nl);
               Checkpoint.at_ := now gitEnv |} in
  let st' := fst (saveCheckpoint gitEnv emptyStore) in
  snd (saveCheckpoint gitEnv emptyStore) = Ok cp
  /\ loadCheckpoint st' = Some cp
  /\ (indexFile st' = indexFile emptyStore /\ filesDir st' = filesDir emptyStore
      /\ symbolsIndexFile st' = symbolsIndexFile emptyStore
      /\ symbolsDir st' = symbolsDir emptyStore)
  /\ (forall out, gitRevParseHead gitEnv = Stdout out ->
        Str.trim out = Str.trim ("3f2a9c1d5e7b8a6c4d2e0f1a3b5c7d9e1f3a5b7c" +:+ nl) ->
        runDiff (fun _ out => out) gitEnv st'
        = "No changes since checkpoint ("
          +:+ String.substring 0 7 (Str.trim ("3f2a9c1d5e7b8a6c4d2e0f1a3b5c7d9e1f3a5b7c" +:+ nl))
          +:+ ").")
  /\ (forall message, gitRevParseHead gitEnv = Failed message ->
        runDiff (fun _ out => out) gitEnv st' = "Not in a git repository.").
Proof.
  apply (checkpoint_then_diff (fun _ out => out) gitEnv gitEnv emptyStore
           ("3f2a9c1d5e7b8a6c4d2e0f1a3b5c7d9e1f3a5b7c" +:+ nl) ("main" +:+ nl));
    reflexivity.
Defined.

(** ** The text of a diff *)

Example showZ_examples :
  showZ 0 = "0" /\ showZ 7 = "7" /\ showZ 10 = "10" /\ showZ 12345 = "12345"
  /\ showZ (-3) = "-3" /\ showZ 4294967296 = "4294967296".
Proof. vm_compute. repeat split; reflexivity. Qed.

Lemma In_firstn {A} (n : nat) (l : list A) x : In x (List.firstn n l) -> In x l.
Proof. intros i. rewrite <- (firstn_skipn n l). apply in_or_app. now left. Qed.

(** X17.  The excerpt of a file's diff has forty lines at most, all of
    them lines of the diff that start with [+] or [-]; a line that
    starts with [+++] or [---] is never in it, be it a header of the
    diff or an added line whose own text starts with [++].  When the
    diff has no more than forty such lines it has them all. *)
Theorem diffExcerpt_shows_changed_lines (fileDiff : string) :
  let changed l :=
    andb (orb (Str.startsWith l "+") (Str.startsWith l "-"))
         (andb (negb (Str.startsWith l "+++")) (negb (Str.startsWith l "---"))) in
  List.length (diffExcerpt fileDiff) <= 40
  /\ (forall l, In l (diffExcerpt fileDiff) ->
        In l (Str.split (ascii_of_nat 10) fileDiff)
        /\ (Str.startsWith l "+" = true \/ Str.startsWith l "-" = true))
  /\ (forall text, ~ In ("+++" +:+ text) (diffExcerpt fileDiff)
                   /\ ~ In ("---" +:+ text) (diffExcerpt fileDiff))
  /\ (List.length (List.filter changed (Str.split (ascii_of_nat 10) fileDiff)) <= 40 ->
      diffExcerpt fileDiff = List.filter changed (Str.split (ascii_of_nat 10) fileDiff)).
Proof.
  intros changed. unfold diffExcerpt. fold changed.
  assert (forall l, In l (List.firstn 40 (List.filter changed
                                            (Str.split (ascii_of_nat 10) fileDiff))) ->
                    In l (Str.split (ascii_of_nat 10) fileDiff) /\ changed l = true) as F
    by (intros l i; apply In_firstn in i; now apply filter_In in i).
  split; [apply firstn_le_length|]. split; [| split].
  - intros l i. destruct (F l i) as [j C]. split; [exact j|].
    unfold changed in C. apply andb_true_iff in C as [C _]. now apply orb_true_iff in C.
  - intros text. split; intros i; destruct (F _ i) as [_ C]; unfold changed in C;
      apply andb_true_iff in C as [_ C]; apply andb_true_iff in C as [C1 C2];
      apply negb_true_iff in C1, C2.
    + assert (Str.startsWith ("+++" +:+ text) "+++" = true) as E
        by (destruct text; reflexivity).
      congruence.
    + assert (Str.startsWith ("---" +:+ text) "---" = true) as E
        by (destruct text; reflexivity).
      congruence.
  - intros L. now apply firstn_all2.
Qed.

Section ChangeListFacts.

Context {num : Type}.
Variable Number : string -> num.
Variable add sub : num -> num -> num.
Variable numToString : num -> string.
Variable isTruthy : num -> bool.
Variable gt : num -> num -> bool.
Variable ofLength : nat -> num.
Variable toIntegerOrInfinity : num -> integerOrInfinity.
Variable sort : (FileStat.t num -> FileStat.t num -> num) ->
                list (FileStat.t num) -> list (FileStat.t num).
Variable gitDiffFile : string -> string -> exec.

Lemma excerptStep_excerptBlock head lines (s : FileStat.t num) :
  excerptStep gitDiffFile head lines s
  = lines ++ excerptBlock gitDiffFile head (FileStat.file s).
Proof.
  unfold excerptStep, excerptBlock, execSync.
  destruct (gitDiffFile head _) as [fileDiff|message]; [| now rewrite app_nil_r].
  destruct (Str.truthy (Str.trim fileDiff)); simpl; [| now rewrite app_nil_r].
  now rewrite <- !app_assoc.
Qed.

Lemma changeLines_eq top checkpoint numstatOutput :
  let stats := rankedStats Number add sub sort numstatOutput in
  let shown := match whenTruthyNumber isTruthy top with
               | Some t => sliceTo (toIntegerOrInfinity t) stats
               | None => stats
               end in
  changeLines Number add sub numToString isTruthy gt ofLength toIntegerOrInfinity sort
    gitDiffFile top checkpoint numstatOutput
  = diffHeader checkpoint (Z.of_nat (List.length stats))
    ++ List.map (statLine numToString) shown
    ++ match whenTruthyNumber isTruthy top with
       | Some t =>
           if gt (ofLength (List.length stats)) t
           then [moreFilesLine (numToString (sub (ofLength (List.length stats)) t))]
           else []
       | None => []
       end
    ++ [EmptyString; "---"; EmptyString]
    ++ List.flat_map (fun s => excerptBlock gitDiffFile (Checkpoint.head checkpoint)
                                 (FileStat.file s)) shown.
Proof.
  intros stats shown. unfold changeLines.
  fold (rankedStats Number add sub sort numstatOutput). fold stats.
  fold shown.
  rewrite (fold_left_ext _ _ _ _ (excerptStep_excerptBlock (Checkpoint.head checkpoint))).
  rewrite fold_left_push.
  rewrite (fold_left_push (fun s => [statLine numToString s])).
  assert (forall (l : list (FileStat.t num)),
            List.flat_map (fun s => [statLine numToString s]) l
            = List.map (statLine numToString) l) as C
    by (induction l as [|s l IH]; simpl; [reflexivity | now rewrite IH]).
  rewrite C.
  destruct (whenTruthyNumber isTruthy top) as [t|];
    [destruct (gt (ofLength (List.length stats)) t)|];
    rewrite <- ?app_assoc; reflexivity.
Qed.

(** What [slice(0, end)] keeps is the front of the array. *)
Lemma sliceTo_front {A} (end_ : integerOrInfinity) (l : list A) :
  exists rest, l = sliceTo end_ l ++ rest.
Proof.
  unfold sliceTo. destruct end_ as [z| |].
  - destruct (0 <=? z)%Z; eexists; symmetry; apply firstn_skipn.
  - exists []. now rewrite app_nil_r.
  - now exists l.
Qed.

(** X18.  The list of changed files is cut at [top].  The header counts
    every changed file.  Without [top], or with a [top] that is falsy,
    every file is listed and no line "... and k more files" follows.
    With any other number [top] the files listed are
    [stats.slice(0, top)], the front of the ranking up to the integer
    part of [top]; the line follows exactly when [stats.length > top],
    and the count it prints is [stats.length - top] as the engine
    computes and prints it.  When [top] is a positive integer, the first
    [top] files are listed, all of them when there are fewer; the line
    follows exactly when files were left out, and its count is their
    number.  When [top] is a negative integer, the last files are left
    out and the line is always there, with a count above the number of
    files.  The excerpts are those of the files listed, in that order; a
    file whose diff cannot be computed or is blank is listed and has no
    excerpt. *)
Theorem change_list_is_capped
    (top : option num) (checkpoint : Checkpoint.t) (numstatOutput : string) :
  let stats := rankedStats Number add sub sort numstatOutput in
  let N := List.length stats in
  let total := Z.of_nat N in
  let lines :=
    changeLines Number add sub numToString isTruthy gt ofLength toIntegerOrInfinity sort
      gitDiffFile top checkpoint numstatOutput in
  let excerpts shown :=
    List.flat_map (fun s => excerptBlock gitDiffFile (Checkpoint.head checkpoint)
                              (FileStat.file s)) shown in
  let integer := isInteger sub numToString isTruthy gt ofLength toIntegerOrInfinity in
  (whenTruthyNumber isTruthy top = None ->
   lines = diffHeader checkpoint total ++ List.map (statLine numToString) stats
           ++ [EmptyString; "---"; EmptyString] ++ excerpts stats)
  /\ (forall t, top = Some t -> isTruthy t = true ->
        let shown := sliceTo (toIntegerOrInfinity t) stats in
        lines = diffHeader checkpoint total ++ List.map (statLine numToString) shown
                ++ (if gt (ofLength N) t
                    then [moreFilesLine (numToString (sub (ofLength N) t))] else [])
                ++ [EmptyString; "---"; EmptyString] ++ excerpts shown
        /\ exists rest, stats = shown ++ rest)
  /\ (forall t n, top = Some t -> integer t n N -> (0 < n)%Z ->
        let shown := List.firstn (Z.to_nat n) stats in
        lines = diffHeader checkpoint total ++ List.map (statLine numToString) shown
                ++ (if (total >? n)%Z then [moreFiles (total - n)] else [])
                ++ [EmptyString; "---"; EmptyString] ++ excerpts shown
        /\ List.length shown = Nat.min (Z.to_nat n) (List.length stats)
        /\ ((total >? n)%Z = true <-> List.length shown < List.length stats)
        /\ ((total >? n)%Z = true ->
            (total - n)%Z = Z.of_nat (List.length stats - List.length shown)))
  /\ (forall t n, top = Some t -> integer t n N -> (n < 0)%Z ->
        let shown := List.firstn (List.length stats - Z.to_nat (- n)) stats in
        lines = diffHeader checkpoint total ++ List.map (statLine numToString) shown
                ++ [moreFiles (total - n)]
                ++ [EmptyString; "---"; EmptyString] ++ excerpts shown
        /\ (total < total - n)%Z).
Proof.
  intros stats N total lines excerpts integer.
  pose proof (changeLines_eq top checkpoint numstatOutput) as E.
  cbv zeta in E. fold stats N total lines in E. split; [| split; [| split]].
  - intros W. rewrite E, W. reflexivity.
  - intros t -> T. simpl in E. rewrite T in E.
    split; [exact E | apply sliceTo_front].
  - intros t n -> (I & T & G & D) pos. simpl in E.
    assert ((n =? 0)%Z = false) as Z0 by lia. rewrite T, Z0 in E. simpl in E.
    rewrite I, G, D in E. unfold sliceTo in E.
    assert ((0 <=? n)%Z = true) as P by lia. rewrite P in E.
    split; [exact E|]. split; [apply length_firstn|].
    rewrite length_firstn, Z.gtb_ltb, Z.ltb_lt. unfold total, N. split; [split; lia | lia].
  - intros t n -> (I & T & G & D) neg. simpl in E.
    assert ((n =? 0)%Z = false) as Z0 by lia. rewrite T, Z0 in E. simpl in E.
    rewrite I, G, D in E. unfold sliceTo in E.
    assert ((0 <=? n)%Z = false) as P by lia. rewrite P in E.
    assert ((Z.of_nat N >? n)%Z = true) as G' by lia. rewrite G' in E.
    split; [exact E | lia].
Qed.

End ChangeListFacts.

(** The integers are numbers that are integers. *)
Example integers_are_integers (n : Z) (N : nat) :
  isInteger Z.sub showZ (fun z => negb (z =? 0)%Z) Z.gtb Z.of_nat Finite n n N.
Proof. repeat split. Qed.

(** [repoctx diff --top 1] on three changed files, in numbers read as
    integers: one entry and the marker for two more, and the excerpt of
    the one file listed. *)
Example diff_top_one :
  let cp := {| Checkpoint.head := "3f2a9c1d5e7b8a6c4d2e0f1a3b5c7d9e1f3a5b7c";
               Checkpoint.branch := "main"; Checkpoint.at_ := "2024-01-02T00:00:00.000Z" |} in
  let changes :=
    changeLines digitsToZ Z.add Z.sub showZ (fun z => negb (z =? 0)%Z) Z.gtb Z.of_nat Finite
      sortBy diffsOfThree in
  changes (Some 1%Z) cp threeChanges
  = ["# Repoctx Diff (since 3f2a9c1 — 2024-01-02T00:00:00.000Z)"; EmptyString;
     "Files changed (3):"; EmptyString;
     "- src/b.ts (+10 -20)";
     "... and 2 more files";
     EmptyString; "---"; EmptyString]
  /\ changes None cp threeChanges
     = ["# Repoctx Diff (since 3f2a9c1 — 2024-01-02T00:00:00.000Z)"; EmptyString;
        "Files changed (3):"; EmptyString;
        "- src/b.ts (+10 -20)"; "- src/c.ts (+5 -0)"; "- src/a.ts (+3 -1)";
        EmptyString; "---"; EmptyString;
        "[src/c.ts]"; "+const b = 2;"; EmptyString].
Proof. vm_compute. split; reflexivity. Qed.

(** [runDiff({ top: 2.5 })] on the same three files, in numbers counted
    in halves: two files are listed, and the line counts half a file
    more. *)
Example diff_top_two_and_a_half :
  let cp := {| Checkpoint.head := "3f2a9c1d5e7b8a6c4d2e0f1a3b5c7d9e1f3a5b7c";
               Checkpoint.branch := "main"; Checkpoint.at_ := "2024-01-02T00:00:00.000Z" |} in
  changeLines (fun s => 2 * digitsToZ s)%Z Z.add Z.sub halfToString
    (fun h => negb (h =? 0)%Z) Z.gtb (fun N => 2 * Z.of_nat N)%Z
    (fun h => Finite (Z.quot h 2)) sortBy diffsOfThree (Some 5%Z) cp threeChanges
  = ["# Repoctx Diff (since 3f2a9c1 — 2024-01-02T00:00:00.000Z)"; EmptyString;
     "Files changed (3):"; EmptyString;
     "- src/b.ts (+10 -20)"; "- src/c.ts (+5 -0)";
     "... and 0.5 more files";
     EmptyString; "---"; EmptyString;
     "[src/c.ts]"; "+const b = 2;"; EmptyString].
Proof. vm_compute. reflexivity. Qed.

(** [repoctx diff]: the option [--top] is read with [Number] when it is
    given and not empty, and the text of [runDiff] is written with a
    line feed after it. *)
Example diff_command_reads_top :
  topOption digitsToZ None = None
  /\ topOption digitsToZ (Some EmptyString) = None
  /\ topOption digitsToZ (Some "2") = Some 2%Z
  /\ diffCommand digitsToZ Z.add Z.sub showZ (fun z => negb (z =? 0)%Z) Z.gtb Z.of_nat
       Finite sortBy diffsOfThree (Some "2") usersEnv emptyStore
     = "No checkpoint found. Run `repoctx checkpoint` first." +:+ nl.
Proof. vm_compute. repeat split; reflexivity. Qed.

(** ** Commands *)

Section Init.
Local Arguments String.append : simpl nomatch.

Lemma splitAux_after sep a b cur :
  exists pre, Str.splitAux sep (a +:+ String sep b) cur = pre ++ Str.splitAux sep b EmptyString.
Proof.
  revert cur. induction a as [|c a IH]; simpl; intros cur.
  - rewrite Ascii.eqb_refl. now exists [cur].
  - destruct (Ascii.eqb c sep).
    + destruct (IH EmptyString) as [pre ->]. now exists (cur :: pre).
    + apply IH.
Qed.

(** Whatever [.gitignore] held, it ignores [.repoctx] once the entry is appended. *)
Lemma ignoresRepoctx_entry content : ignoresRepoctx (content +:+ gitignoreEntry) = true.
Proof.
  unfold ignoresRepoctx. apply existsb_exists. exists ".repoctx". split; [| reflexivity].
  unfold Str.split, gitignoreEntry.
  change (nl +:+ "# repoctx context index" +:+ nl +:+ ".repoctx" +:+ nl)
    with (String (ascii_of_nat 10) ("# repoctx context index" +:+ nl +:+ ".repoctx" +:+ nl)).
  destruct (splitAux_after (ascii_of_nat 10) content
              ("# repoctx context index" +:+ nl +:+ ".repoctx" +:+ nl) EmptyString)
    as [pre ->].
  apply in_or_app. right. vm_compute. tauto.
Qed.

Lemma init_again content appendFile :
  initCommand true (Some (content +:+ gitignoreEntry)) appendFile
  = Ok (None,
        ["✓ .repoctx already in .gitignore";
         "✓ repoctx initialized. Run `repoctx onboarding` to get CLAUDE.md instructions."]).
Proof. unfold initCommand. now rewrite ignoresRepoctx_entry. Qed.

End Init.

(** X19.  [repoctx init] is idempotent on [.gitignore].  A run that
    returns leaves the file with the entry, appended after what the file
    held (a file that could not be read is taken to be missing), or
    leaves it alone when a line of it, white space apart, is [.repoctx].
    A second run finds the entry, appends nothing and does not call
    [fs.appendFile]. *)
Theorem init_is_idempotent
    (gitignore : option string) (appendFile : bool) (text : option string)
    (out : list string) :
  initCommand true gitignore appendFile = Ok (text, out) ->
  (text = None \/ text = Some gitignoreEntry)
  /\ (text = None <-> exists content, gitignore = Some content /\ ignoresRepoctx content = true)
  /\ forall appendFile',
       initCommand true (appended gitignore text) appendFile'
       = Ok (None,
             ["✓ .repoctx already in .gitignore";
              "✓ repoctx initialized. Run `repoctx onboarding` to get CLAUDE.md instructions."]).
Proof.
  unfold initCommand. simpl.
  destruct gitignore as [content|].
  - destruct (ignoresRepoctx content) eqn:I; simpl.
    + intros [= <- <-]. split; [now left|]. split.
      * split; [intros _; now exists content | reflexivity].
      * intros appendFile'. simpl. now rewrite I.
    + destruct appendFile; [| discriminate]. intros [= <- <-].
      split; [now right|]. split.
      * split; [discriminate | intros [c [[= <-] H]]; congruence].
      * intros appendFile'. apply init_again.
  - destruct appendFile; [| discriminate]. intros [= <- <-].
    split; [now right|]. split.
    + split; [discriminate | intros [c [H _]]; discriminate].
    + intros appendFile'. exact (init_again EmptyString appendFile').
Qed.

Lemma init_is_idempotent_witness :
  (Some gitignoreEntry = None \/ Some gitignoreEntry = Some gitignoreEntry)
  /\ (Some gitignoreEntry = None
      <-> exists content, Some ("node_modules" +:+ nl +:+ ".repoctx/") = Some content
                          /\ ignoresRepoctx content = true)
  /\ forall appendFile',
       initCommand true
         (appended (Some ("node_modules" +:+ nl +:+ ".repoctx/")) (Some gitignoreEntry))
         appendFile'
       = Ok (None,
             ["✓ .repoctx already in .gitignore";
              "✓ repoctx initialized. Run `repoctx onboarding` to get CLAUDE.md instructions."]).
Proof.
  apply (init_is_idempotent (Some ("node_modules" +:+ nl +:+ ".repoctx/")) true
           (Some gitignoreEntry)
           ["✓ Added .repoctx to .gitignore";
            "✓ repoctx initialized. Run `repoctx onboarding` to get CLAUDE.md instructions."]).
  vm_compute. reflexivity.
Defined.

Section SaveCommand.

Lemma In_splitList x s :
  In x (splitList s) ->
  x <> EmptyString /\ exists piece, In piece (Str.split "," s) /\ x = Str.trim piece.
Proof.
  unfold splitList. destruct (Str.truthy s); [| intros []].
  rewrite filter_In, in_map_iff. intros [[piece [E i]] T].
  unfold Str.truthy in T. apply negb_true_iff, String.eqb_neq in T.
  split; [exact T|]. now exists piece.
Qed.

End SaveCommand.

(** X20.  What [repoctx save] stores.  When the command returns, it has
    printed the path saved, and the card of that path (unless the path
    is [__proto__]) has the symbols and keywords of the options, split
    at commas, each piece trimmed and the empty ones dropped; it has
    dependencies only when the option names one, and never exports: a
    card saved from the command line has no [Exports] line. *)
Theorem saveCommand_stores_clean_lists
    (env : Env) (file summary : string) (opts : SaveOpts.t) (st : Store)
    (out : list string) :
  let rel := relOf env (SaveOpts.meta opts) file in
  let st' := fst (saveCommand env file summary opts st) in
  snd (saveCommand env file summary opts st) = Ok out ->
  rel <> "__proto__" ->
  out = ["✓ Saved context for " +:+ rel]
  /\ exists card,
       loadFileCache rel st' = Some card
       /\ RepoctxFileCache.symbols card = splitList (SaveOpts.symbols opts)
       /\ RepoctxFileCache.keywords card = Some (splitList (SaveOpts.keywords opts))
       /\ RepoctxFileCache.dependencies card
          = match splitList (SaveOpts.deps opts) with [] => None | ds => Some ds end
       /\ RepoctxFileCache.exports card = None
       /\ forall x, In x (RepoctxFileCache.symbols card ++ keywordsOf card
                          ++ nonEmpty (RepoctxFileCache.dependencies card)) ->
                    x <> EmptyString
                    /\ exists piece,
                         In piece (Str.split "," (SaveOpts.symbols opts)
                                   ++ Str.split "," (SaveOpts.keywords opts)
                                   ++ Str.split "," (SaveOpts.deps opts))
                         /\ x = Str.trim piece.
Proof.
  intros rel st' H ne. unfold st'. revert H. unfold saveCommand, bind, ret.
  set (a := {| SaveArgs.filePath := file; SaveArgs.summary := summary;
               SaveArgs.symbols := splitList (SaveOpts.symbols opts);
               SaveArgs.exports := None;
               SaveArgs.keywords := splitList (SaveOpts.keywords opts);
               SaveArgs.dependencies := Some (splitList (SaveOpts.deps opts));
               SaveArgs.footguns := SaveOpts.footguns opts;
               SaveArgs.delta := SaveOpts.delta opts;
               SaveArgs.meta := SaveOpts.meta opts |}).
  destruct (saveManual env a st) as [st1 [r|e]] eqn:S; simpl; [| discriminate].
  intros [= <-].
  assert (snd (saveManual env a st) = Ok r) as S' by now rewrite S.
  assert (r = rel) as ->.
  { revert S'. unfold saveManual, bind, lift, ret. fold rel.
    destruct (if SaveArgs.meta a then _ else _); [| discriminate].
    change (relOf env (SaveArgs.meta a) (SaveArgs.filePath a)) with rel.
    destruct (saveFileCache rel _ st) as [st2 [[]|e2]]; simpl; congruence. }
  split; [reflexivity|].
  destruct (saveManual_cases env a st S')
    as (hash & card & _ & _ & Sv & F & _ & Sy & Kw & Ex & De & _).
  change (relOf env (SaveArgs.meta a) (SaveArgs.filePath a)) with rel in Sv, F.
  exists card.
  assert (st1 = fst (saveManual env a st)) as -> by now rewrite S.
  rewrite F, (load_after_save _ _ _ Sv ne).
  split; [reflexivity|]. split; [exact Sy|]. split; [exact Kw|].
  split; [rewrite De; simpl; now destruct (splitList (SaveOpts.deps opts))|].
  split; [exact Ex|].
  intros x. unfold keywordsOf. rewrite Sy, Kw, De. simpl SaveArgs.symbols.
  simpl SaveArgs.keywords. simpl SaveArgs.dependencies.
  assert (nonEmpty (whenNonEmpty (Some (splitList (SaveOpts.deps opts))))
          = splitList (SaveOpts.deps opts)) as ->
    by (simpl; now destruct (splitList (SaveOpts.deps opts))).
  rewrite !in_app_iff. intros [i|[i|i]]; apply In_splitList in i;
    destruct i as [T [piece [j E]]]; (split; [exact T|]); exists piece;
    rewrite !in_app_iff; tauto.
Qed.

Lemma saveCommand_stores_clean_lists_witness :
  let opts := {| SaveOpts.symbols := "getUser, ,createUser";
                 SaveOpts.keywords := " dal ,users,,";
                 SaveOpts.deps := EmptyString;
                 SaveOpts.footguns := None;
                 SaveOpts.delta := None;
                 SaveOpts.meta := false |} in
  let rel := relOf usersEnv (SaveOpts.meta opts) "src/users/dal.js" in
  let st' := fst (saveCommand usersEnv "src/users/dal.js" "MongoDB DAL for users." opts
                    emptyStore) in
  ["✓ Saved context for src/users/dal.js"] = ["✓ Saved context for " +:+ rel]
  /\ exists card,
       loadFileCache rel st' = Some card
       /\ RepoctxFileCache.symbols card = splitList (SaveOpts.symbols opts)
       /\ RepoctxFileCache.keywords card = Some (splitList (SaveOpts.keywords opts))
       /\ RepoctxFileCache.dependencies card
          = match splitList (SaveOpts.deps opts) with [] => None | ds => Some ds end
       /\ RepoctxFileCache.exports card = None
       /\ forall x, In x (RepoctxFileCache.symbols card ++ keywordsOf card
                          ++ nonEmpty (RepoctxFileCache.dependencies card)) ->
                    x <> EmptyString
                    /\ exists piece,
                         In piece (Str.split "," (SaveOpts.symbols opts)
                                   ++ Str.split "," (SaveOpts.keywords opts)
                                   ++ Str.split "," (SaveOpts.deps opts))
                         /\ x = Str.trim piece.
Proof.
  apply (saveCommand_stores_clean_lists usersEnv "src/users/dal.js" "MongoDB DAL for users."
           {| SaveOpts.symbols := "getUser, ,createUser";
              SaveOpts.keywords := " dal ,users,,";
              SaveOpts.deps := EmptyString;
              SaveOpts.footguns := None;
              SaveOpts.delta := None;
              SaveOpts.meta := false |} emptyStore).
  - vm_compute. reflexivity.
  - vm_compute. discriminate.
Defined.

Example splitList_examples :
  splitList " dal ,users,," = ["dal"; "users"] /\ splitList EmptyString = []
  /\ splitList " , " = [].
Proof. vm_compute. repeat split; reflexivity. Qed.
